(** * Inventario: the product record, its line format and the file-backed store

    A shallow embedding of [inventario.py].

    - A Python [str] is a Rocq [string]; a character is read as the code
      point of the same number (U+0000 to U+00FF), so the character classes
      of [str.strip], [int] and [float] are the ones Python has on that
      range.
    - A Python [int] is a [Z]; the interpreter's cap on the length of
      int/str conversions ([sys.set_int_max_str_digits]) is not modelled.
    - A Python [float] is a binary64 value, a [spec_float] that passes
      [valid_binary] for 53 bits of precision; [float_of_str] and
      [float_repr] follow CPython's [float(s)] and [repr(x)]: the nearest
      float of a decimal, and the shortest decimal that reads back.
    - The [dict] of the store keeps insertion order, which decides the
      order of the lines written by [guardar_todo]: it is an association
      list.
    - The backing file, the faults [open] can raise on it and the text
      printed on the console are explicit components of the state. An I/O
      failure is one raised by [open]: a rewrite either replaces the whole
      text of the file or leaves the file as it was.
    - The terminal of [menu] is the list of the lines still to be typed
      and the list of what was written on the screen; [input] on an empty
      list is [EOFError]. The loop of [menu] runs on a number of turns,
      and every turn takes a line. *)

From Stdlib Require Import ZArith List Bool Ascii String Lia.
From Stdlib Require Import SpecFloat.
Import ListNotations.

Local Open Scope string_scope.
Local Open Scope Z_scope.

(** ** Text: the [str] methods the module calls *)

Module Text.

Definition code (c : ascii) : Z := Z.of_N (N_of_ascii c).

Definition LF : ascii := ascii_of_nat 10.
Definition CR : ascii := ascii_of_nat 13.

(** [str.isspace] on one character, as [str.strip()] uses it:
    U+0009..U+000D, U+001C..U+0020, U+0085 and U+00A0. *)
Definition isspace (c : ascii) : bool :=
  let n := code c in
  ((9 <=? n) && (n <=? 13)) || ((28 <=? n) && (n <=? 32))
  || (n =? 133) || (n =? 160).

(** The whitespace [int(s)] and [float(s)] skip around a number: a
    non-ASCII space is first turned into a blank, then C's [isspace] set
    is skipped, which leaves out U+001C..U+001F. *)
Definition isspace_num (c : ascii) : bool :=
  let n := code c in
  ((9 <=? n) && (n <=? 13)) || (n =? 32) || (n =? 133) || (n =? 160).

Definition isdigit (c : ascii) : bool :=
  let n := code c in (48 <=? n) && (n <=? 57).

Definition digit_val (c : ascii) : Z := code c - 48.

Definition digit_char (d : Z) : ascii := ascii_of_N (Z.to_N (48 + d)).

Fixpoint lstrip_by (sp : ascii -> bool) (s : string) : string :=
  match s with
  | String c t => if sp c then lstrip_by sp t else s
  | EmptyString => EmptyString
  end.

Fixpoint rstrip_by (sp : ascii -> bool) (s : string) : string :=
  match s with
  | String c t =>
      match rstrip_by sp t with
      | EmptyString => if sp c then EmptyString else String c EmptyString
      | t' => String c t'
      end
  | EmptyString => EmptyString
  end.

Definition strip_by (sp : ascii -> bool) (s : string) : string :=
  rstrip_by sp (lstrip_by sp s).

(** [s.strip()] *)
Definition strip (s : string) : string := strip_by isspace s.

(** [s.split(sep)] for a one-character separator: never an empty list. *)
Fixpoint split (sep : ascii) (s : string) : list string :=
  match s with
  | EmptyString => [EmptyString]
  | String c t =>
      if Ascii.eqb c sep then EmptyString :: split sep t
      else match split sep t with
           | p :: ps => String c p :: ps
           | [] => [String c EmptyString]
           end
  end.

(** Text-mode reading translates ["\r\n"] and ["\r"] to ["\n"]. *)
Fixpoint universal_newlines (s : string) : string :=
  match s with
  | EmptyString => EmptyString
  | String c t =>
      if Ascii.eqb c CR then
        String LF (match t with
                   | String c' t' =>
                       if Ascii.eqb c' LF then universal_newlines t'
                       else universal_newlines t
                   | EmptyString => EmptyString
                   end)
      else String c (universal_newlines t)
  end.

(** The lines of a text, each with its ["\n"] (the last one may lack it). *)
Fixpoint keepends (s : string) : list string :=
  match s with
  | EmptyString => []
  | String c t =>
      if Ascii.eqb c LF then String c EmptyString :: keepends t
      else match keepends t with
           | l :: ls => String c l :: ls
           | [] => [String c EmptyString]
           end
  end.

(** [f.readlines()] on a file opened in text mode with the default
    [newline=None]. *)
Definition readlines (contents : string) : list string :=
  keepends (universal_newlines contents).

Fixpoint forallb (P : ascii -> bool) (s : string) : bool :=
  match s with
  | EmptyString => true
  | String c t => P c && forallb P t
  end.

Definition lacks (c : ascii) (s : string) : bool :=
  forallb (fun x => negb (Ascii.eqb x c)) s.

(** The last character of [s] satisfies [P]; false on the empty string. *)
Fixpoint ends_with (P : ascii -> bool) (s : string) : bool :=
  match s with
  | EmptyString => false
  | String c EmptyString => P c
  | String _ t => ends_with P t
  end.

Definition starts_with (P : ascii -> bool) (s : string) : bool :=
  match s with
  | EmptyString => false
  | String c _ => P c
  end.

Fixpoint concat_all (l : list string) : string :=
  match l with
  | [] => EmptyString
  | s :: t => s ++ concat_all t
  end.

End Text.

(** ** Numbers: [int(s)], [str(n)], [float(s)] and [repr(x)] *)

Module Num.
Import Text.

(** *** Integers *)

(** Decimal digits, single underscores allowed between two digits;
    [after_digit] tells whether the previous character was a digit. *)
Fixpoint digits_us (acc : Z) (after_digit : bool) (s : string) : option Z :=
  match s with
  | EmptyString => if after_digit then Some acc else None
  | String c t =>
      if isdigit c then digits_us (10 * acc + digit_val c) true t
      else if Ascii.eqb c "_" then
        if after_digit then digits_us acc false t else None
      else None
  end.

(** [int(s)]: [None] stands for [ValueError]. *)
Definition int_of_str (s : string) : option Z :=
  match strip_by isspace_num s with
  | String c t =>
      if Ascii.eqb c "-" then option_map Z.opp (digits_us 0 false t)
      else if Ascii.eqb c "+" then digits_us 0 false t
      else digits_us 0 false (String c t)
  | EmptyString => None
  end.

(** The decimal digits of [n], most significant first, in front of [acc]. *)
Fixpoint decimal (fuel : nat) (n : Z) (acc : string) : string :=
  match fuel with
  | O => acc
  | S f =>
      let acc' := String (digit_char (n mod 10)) acc in
      if n <? 10 then acc' else decimal f (n / 10) acc'
  end.

Definition str_of_nat (n : Z) : string :=
  decimal (S (Z.to_nat (Z.log2 n))) n EmptyString.

(** [str(n)], which is what an f-string writes for an [int]. *)
Definition str_of_int (n : Z) : string :=
  if n <? 0 then String "-" (str_of_nat (- n)) else str_of_nat n.

(** *** Floats *)

Definition prec : Z := 53.
Definition emax : Z := 1024.

Definition float : Type := spec_float.

Definition nan : float := S754_nan.

(** [x == y] on floats: [nan] differs from itself, the two zeros agree. *)
Definition float_eq (x y : float) : bool := SFeqb x y.

(** The same value, bit for bit. *)
Definition float_same (x y : float) : bool :=
  match x, y with
  | S754_zero a, S754_zero b => Bool.eqb a b
  | S754_infinity a, S754_infinity b => Bool.eqb a b
  | S754_nan, S754_nan => true
  | S754_finite a m e, S754_finite b m' e' =>
      Bool.eqb a b && Pos.eqb m m' && (e =? e')
  | _, _ => false
  end.

(** The float nearest to [num / den] (ties to even), with sign [neg], for
    positive [num] and [den]. The quotient is taken in units of [2^-1074],
    the least positive float: [t] is the exponent of the result above
    that unit, [q] the quotient truncated to at most 53 bits. *)
Definition round_fraction (neg : bool) (num den : Z) : float :=
  let N := num * 2 ^ 1074 in
  let t := Z.max 0 (Z.log2 (N / den) - 52) in
  let D := den * 2 ^ t in
  let q := N / D in
  let q' :=
    match 2 * (N mod D) ?= D with
    | Lt => q
    | Gt => q + 1
    | Eq => if Z.even q then q else q + 1
    end in
  if q' =? 0 then S754_zero neg
  else
    let (mant, t') := if q' =? 2 ^ 53 then (2 ^ 52, t + 1) else (q', t) in
    if 2045 <? t' then S754_infinity neg
    else S754_finite neg (Z.to_pos mant) (t' - 1074).

(** The float nearest to [M * 10^E], with sign [neg]. *)
Definition round_decimal (neg : bool) (M E : Z) : float :=
  match M with
  | Z0 => S754_zero neg
  | Zpos _ =>
      if 0 <=? E then round_fraction neg (M * 10 ^ E) 1
      else round_fraction neg M (10 ^ (- E))
  | Zneg _ => S754_nan
  end.

Fixpoint span_digits (s : string) : string * string :=
  match s with
  | String c t =>
      if isdigit c then let (d, r) := span_digits t in (String c d, r)
      else (EmptyString, s)
  | EmptyString => (EmptyString, EmptyString)
  end.

Fixpoint Z_of_digits (acc : Z) (s : string) : Z :=
  match s with
  | String c t => Z_of_digits (10 * acc + digit_val c) t
  | EmptyString => acc
  end.

Definition lower (c : ascii) : ascii :=
  let n := code c in
  if (65 <=? n) && (n <=? 90) then ascii_of_N (Z.to_N (n + 32)) else c.

Fixpoint lowercase (s : string) : string :=
  match s with
  | String c t => String (lower c) (lowercase t)
  | EmptyString => EmptyString
  end.

Definition parse_inf_nan (neg : bool) (s : string) : option float :=
  let l := lowercase s in
  if String.eqb l "inf" || String.eqb l "infinity" then Some (S754_infinity neg)
  else if String.eqb l "nan" then Some S754_nan
  else None.

Definition is_e (c : ascii) : bool := Ascii.eqb c "e" || Ascii.eqb c "E".

(** digits [. digits] [e [sign] digits], with a digit before the exponent. *)
Definition parse_decimal (neg : bool) (s : string) : option float :=
  let (ip, r1) := span_digits s in
  let (fp, r2) :=
    match r1 with
    | String c t => if Ascii.eqb c "." then span_digits t else (EmptyString, r1)
    | EmptyString => (EmptyString, r1)
    end in
  let M := Z_of_digits 0 (ip ++ fp) in
  let shift := Z.of_nat (String.length fp) in
  match ip ++ fp with
  | EmptyString => None
  | _ =>
      match r2 with
      | EmptyString => Some (round_decimal neg M (- shift))
      | String c t =>
          if is_e c then
            let (eneg, t') :=
              match t with
              | String c' u =>
                  if Ascii.eqb c' "-" then (true, u)
                  else if Ascii.eqb c' "+" then (false, u)
                  else (false, t)
              | EmptyString => (false, t)
              end in
            match span_digits t' with
            | (String d ds, EmptyString) =>
                let ex := Z_of_digits 0 (String d ds) in
                Some (round_decimal neg M ((if eneg then - ex else ex) - shift))
            | _ => None
            end
          else None
      end
  end.

(** Underscores may only stand between two digits; they are dropped. *)
Fixpoint drop_underscores (prev : option ascii) (s : string) : option string :=
  match s with
  | EmptyString =>
      match prev with
      | Some p => if Ascii.eqb p "_" then None else Some EmptyString
      | None => Some EmptyString
      end
  | String c t =>
      if Ascii.eqb c "_" then
        match prev with
        | Some p => if isdigit p then drop_underscores (Some c) t else None
        | None => None
        end
      else
        match prev with
        | Some p =>
            if Ascii.eqb p "_" && negb (isdigit c) then None
            else option_map (String c) (drop_underscores (Some c) t)
        | None => option_map (String c) (drop_underscores (Some c) t)
        end
  end.

Definition parse_signed (s : string) : option float :=
  let (neg, body) :=
    match s with
    | String c t =>
        if Ascii.eqb c "-" then (true, t)
        else if Ascii.eqb c "+" then (false, t)
        else (false, s)
    | EmptyString => (false, s)
    end in
  match parse_decimal neg body with
  | Some x => Some x
  | None => parse_inf_nan neg body
  end.

(** [float(s)]: [None] stands for [ValueError]. *)
Definition float_of_str (s : string) : option float :=
  match drop_underscores None (strip_by isspace_num s) with
  | Some t => parse_signed t
  | None => None
  end.

(** *** [repr(x)]: the shortest digits that read back as [x] *)

(** A positive finite float [m * 2^e] as a fraction. *)
Definition ratio (m : positive) (e : Z) : Z * Z :=
  if 0 <=? e then (Zpos m * 2 ^ e, 1) else (Zpos m, 2 ^ (- e)).

(** [x * 10^j] as a fraction, for [x = num / den]. *)
Definition scale10 (num den j : Z) : Z * Z :=
  if 0 <=? j then (num * 10 ^ j, den) else (num, den * 10 ^ (- j)).

(** The least [k] from the start value on with [x < 10^k]. *)
Fixpoint find_decpt (fuel : nat) (k num den : Z) : Z :=
  match fuel with
  | O => k
  | S f =>
      let (a, b) := scale10 num den (- k) in
      if a <? b then k else find_decpt f (k + 1) num den
  end.

(** The [n]-digit integers around [x * 10^j], [j = n - decpt]: the one to
    print when one of them reads back as [x] (the nearer one when both
    do, the even one on a tie), and the nearest one in any case. *)
Definition candidates (x : float) (num den decpt n : Z) : option Z * Z :=
  let j := n - decpt in
  let (a, b) := scale10 num den j in
  let lo := a / b in
  let hi := lo + 1 in
  let nearest :=
    match 2 * (a mod b) ?= b with
    | Lt => lo
    | Gt => hi
    | Eq => if Z.even lo then lo else hi
    end in
  let lo_ok := float_same (round_decimal false lo (- j)) x in
  let hi_ok := float_same (round_decimal false hi (- j)) x in
  (if lo_ok && hi_ok then Some nearest
   else if lo_ok then Some lo
   else if hi_ok then Some hi
   else None, nearest).

Fixpoint shortest (fuel : nat) (x : float) (num den decpt n : Z) : Z * Z :=
  match fuel with
  | O => (snd (candidates x num den decpt n), n)
  | S f =>
      match fst (candidates x num den decpt n) with
      | Some d => (d, n)
      | None => shortest f x num den decpt (n + 1)
      end
  end.

Fixpoint rstrip_zeros (s : string) : string :=
  match s with
  | String c t =>
      match rstrip_zeros t with
      | EmptyString => if Ascii.eqb c "0" then EmptyString else String c EmptyString
      | t' => String c t'
      end
  | EmptyString => EmptyString
  end.

Fixpoint zeros (n : nat) : string :=
  match n with
  | O => EmptyString
  | S k => String "0" (zeros k)
  end.

(** The digits of a positive finite float and the position of its
    decimal point: [x = 0.d1d2...dn * 10^decpt], at most 17 digits. *)
Definition float_digits (m : positive) (e : Z) : string * Z :=
  let (num, den) := ratio m e in
  let decpt := find_decpt 640 (-330) num den in
  let (d, n) := shortest 16 (S754_finite false m e) num den decpt 1 in
  let ds := str_of_nat d in
  (rstrip_zeros ds, decpt + (Z.of_nat (String.length ds) - n)).

Definition exponent_digits (ex : Z) : string :=
  let s := str_of_nat (Z.abs ex) in
  match s with
  | String _ EmptyString => String "0" s
  | _ => s
  end.

(** Format code ['r']: exponent form when [decpt <= -4] or [decpt > 16],
    else positional with a digit on each side of the point. *)
Definition format_r (digits : string) (decpt : Z) : string :=
  let n := String.length digits in
  if (decpt <=? -4) || (16 <? decpt) then
    let mantissa :=
      match digits with
      | String d EmptyString => digits
      | String d rest => String d (String "." rest)
      | EmptyString => EmptyString
      end in
    mantissa ++ String "e" (String (if decpt - 1 <? 0 then "-" else "+")
                                   (exponent_digits (decpt - 1)))
  else if decpt <=? 0 then
    String "0" (String "." (zeros (Z.to_nat (- decpt)) ++ digits))
  else if decpt <? Z.of_nat n then
    substring 0 (Z.to_nat decpt) digits
    ++ String "." (substring (Z.to_nat decpt) (n - Z.to_nat decpt) digits)
  else
    digits ++ zeros (Z.to_nat decpt - n) ++ ".0".

(** [repr(x)], which is what an f-string writes for a [float]. *)
Definition float_repr (x : float) : string :=
  match x with
  | S754_nan => "nan"
  | S754_infinity s => if s then "-inf" else "inf"
  | S754_zero s => if s then "-0.0" else "0.0"
  | S754_finite s m e =>
      let (ds, decpt) := float_digits m e in
      if s then String "-" (format_r ds decpt) else format_r ds decpt
  end.

End Num.

Import Text Num.

(** ** The product record *)

Definition INVENTARIO_FILE : string := "inventario.txt".
Definition FIELD_SEP : ascii := "|".

Record Producto := mkProducto {
  id : string;
  nombre : string;
  cantidad : Z;
  precio : float
}.

(** [p == q] as the dataclass defines it: field by field. *)
Definition Producto_eq (p q : Producto) : bool :=
  String.eqb (id p) (id q) && String.eqb (nombre p) (nombre q)
  && (cantidad p =? cantidad q) && float_eq (precio p) (precio q).

Definition to_line (p : Producto) : string :=
  id p ++ String FIELD_SEP (nombre p ++ String FIELD_SEP
    (str_of_int (cantidad p) ++ String FIELD_SEP
      (float_repr (precio p) ++ String LF EmptyString))).

Definition from_line (line : string) : option Producto :=
  match split FIELD_SEP (strip line) with
  | [pid; nom; cantidad_s; precio_s] =>
      match int_of_str cantidad_s with
      | Some c =>
          match float_of_str precio_s with
          | Some x => Some (mkProducto pid nom c x)
          | None => None
          end
      | None => None
      end
  | _ => None
  end.

(** ** The dict of the store, in insertion order *)

Definition dict : Type := list (string * Producto).

(** [d.get(k)] *)
Fixpoint dict_get (k : string) (d : dict) : option Producto :=
  match d with
  | [] => None
  | (k', v) :: t => if String.eqb k' k then Some v else dict_get k t
  end.

(** [k in d] *)
Definition dict_in (k : string) (d : dict) : bool :=
  match dict_get k d with Some _ => true | None => false end.

(** [d[k] = v]: a known key keeps its place, a new one goes last. *)
Fixpoint dict_set (k : string) (v : Producto) (d : dict) : dict :=
  match d with
  | [] => [(k, v)]
  | (k', v') :: t =>
      if String.eqb k' k then (k, v) :: t else (k', v') :: dict_set k v t
  end.

Fixpoint dict_del (k : string) (d : dict) : dict :=
  match d with
  | [] => []
  | (k', v') :: t =>
      if String.eqb k' k then dict_del k t else (k', v') :: dict_del k t
  end.

(** [d.pop(k)]: the value removed and what is left; [None] stands for
    [KeyError]. *)
Definition dict_pop (k : string) (d : dict) : option (Producto * dict) :=
  match dict_get k d with
  | Some v => Some (v, dict_del k d)
  | None => None
  end.

(** [d.values()] *)
Definition dict_values (d : dict) : list Producto := map snd d.

Definition dict_keys (d : dict) : list string := map fst d.

(** ** The backing file and the console *)

Inductive exn := FileNotFoundError | PermissionError | OSError.

(** The file at [ruta]: its text when it exists, and the error [open]
    raises on it, if any, in each mode. *)
Record file := mkFile {
  contents : option string;
  read_fault : option exn;
  write_fault : option exn
}.

(** One constructor for each [print] of the class. *)
Inductive message :=
| InfoCreated (ruta : string)
| ErrCreatePermission (ruta : string)
| ErrCreate (e : exn)
| WarnNotFound (ruta : string)
| ErrReadPermission (ruta : string)
| ErrRead (ruta : string) (e : exn)
| WarnCorrupt (line : string)
| InfoLoaded (n : nat)
| ErrWritePermission (ruta : string)
| ErrWrite (e : exn)
| WarnDuplicate (pid : string)
| OkAdded (nom : string)
| WarnMissing (pid : string)
| OkUpdated (pid : string)
| OkDeleted (nom : string).

(** ** The store *)

Record Inventario := mkInventario {
  ruta : string;
  productos : dict;
  archivo : file;
  consola : list message
}.

(** Methods run in a state monad over the object and its surroundings. *)
Definition M (A : Type) : Type := Inventario -> A * Inventario.

Definition ret {A} (a : A) : M A := fun s => (a, s).

Definition bind {A B} (m : M A) (k : A -> M B) : M B :=
  fun s => let (a, s') := m s in k a s'.

Notation "x <- m ;; k" := (bind m (fun x => k))
  (at level 61, m at next level, right associativity).
Notation "m ;;; k" := (bind m (fun _ => k))
  (at level 61, right associativity).

Definition get_ruta : M string := fun s => (ruta s, s).

Definition get_productos : M dict := fun s => (productos s, s).

Definition set_productos (d : dict) : M unit :=
  fun s => (tt, mkInventario (ruta s) d (archivo s) (consola s)).

Definition print (m : message) : M unit :=
  fun s => (tt, mkInventario (ruta s) (productos s) (archivo s) (consola s ++ [m])).

(** [os.path.exists(self.ruta)] *)
Definition path_exists : M bool :=
  fun s => (match contents (archivo s) with Some _ => true | None => false end, s).

(** [open(self.ruta, "r")] followed by [readlines]. *)
Definition read_file : M (exn + list string) :=
  fun s =>
    (match read_fault (archivo s) with
     | Some e => inl e
     | None =>
         match contents (archivo s) with
         | Some c => inr (readlines c)
         | None => inl FileNotFoundError
         end
     end, s).

(** [open(self.ruta, "w")] followed by the writes of [chunks]: the file is
    replaced by what was written, or left alone when [open] raises. *)
Definition write_file (chunks : list string) : M (option exn) :=
  fun s =>
    match write_fault (archivo s) with
    | Some e => (Some e, s)
    | None =>
        (None, mkInventario (ruta s) (productos s)
                 (mkFile (Some (concat_all chunks))
                         (read_fault (archivo s)) (write_fault (archivo s)))
                 (consola s))
    end.

Fixpoint for_each {A} (l : list A) (body : A -> M unit) : M unit :=
  match l with
  | [] => ret tt
  | x :: t => body x ;;; for_each t body
  end.

Definition _ensure_file_exists : M unit :=
  r <- get_ruta ;;
  e <- path_exists ;;
  if e then ret tt
  else
    w <- write_file [EmptyString] ;;
    match w with
    | None => print (InfoCreated r)
    | Some PermissionError => print (ErrCreatePermission r)
    | Some err => print (ErrCreate err)
    end.

Definition cargar_linea (line : string) : M unit :=
  if String.eqb (strip line) EmptyString then ret tt
  else
    match from_line line with
    | None => print (WarnCorrupt (strip line))
    | Some prod =>
        d <- get_productos ;;
        set_productos (dict_set (id prod) prod d)
    end.

Definition cargar_desde_archivo : M unit :=
  r <- get_ruta ;;
  f <- read_file ;;
  match f with
  | inl FileNotFoundError => print (WarnNotFound r) ;;; _ensure_file_exists
  | inl PermissionError => print (ErrReadPermission r)
  | inl OSError => print (ErrRead r OSError)
  | inr lineas =>
      set_productos [] ;;;
      for_each lineas cargar_linea ;;;
      d <- get_productos ;;
      print (InfoLoaded (List.length d))
  end.

Definition guardar_todo : M bool :=
  r <- get_ruta ;;
  d <- get_productos ;;
  w <- write_file (map to_line (dict_values d)) ;;
  match w with
  | None => ret true
  | Some PermissionError => print (ErrWritePermission r) ;;; ret false
  | Some err => print (ErrWrite err) ;;; ret false
  end.

Definition añadir_producto (producto : Producto) : M bool :=
  d <- get_productos ;;
  if dict_in (id producto) d then
    print (WarnDuplicate (id producto)) ;;; ret false
  else
    set_productos (dict_set (id producto) producto d) ;;;
    ok <- guardar_todo ;;
    if ok then print (OkAdded (nombre producto)) ;;; ret true
    else ret false.

Definition actualizar_producto (producto : Producto) : M bool :=
  d <- get_productos ;;
  if negb (dict_in (id producto) d) then
    print (WarnMissing (id producto)) ;;; ret false
  else
    set_productos (dict_set (id producto) producto d) ;;;
    ok <- guardar_todo ;;
    if ok then print (OkUpdated (id producto)) ;;; ret true
    else ret false.

Definition eliminar_producto (id_producto : string) : M bool :=
  d <- get_productos ;;
  if negb (dict_in id_producto d) then
    print (WarnMissing id_producto) ;;; ret false
  else
    match dict_pop id_producto d with
    | Some (eliminado, d') =>
        set_productos d' ;;;
        ok <- guardar_todo ;;
        if ok then print (OkDeleted (nombre eliminado)) ;;; ret true
        else ret false
    | None => ret false
    end.

Definition obtener_producto (id_producto : string) : M (option Producto) :=
  d <- get_productos ;;
  ret (dict_get id_producto d).

(** [Inventario(ruta)] on a machine whose file at [ruta] is [f]. *)
Definition Inventario_init (r : string) (f : file) : Inventario :=
  snd ((_ensure_file_exists ;;; cargar_desde_archivo)
         (mkInventario r [] f [])).

(** ** Vocabulary of the statements *)

(** The characters [str(n)] is made of. *)
Definition int_char (c : ascii) : bool := isdigit c || Ascii.eqb c "-".

(** The characters [repr(x)] is made of. *)
Definition float_char (c : ascii) : bool :=
  isdigit c || Ascii.eqb c "." || Ascii.eqb c "e" || Ascii.eqb c "+"
  || Ascii.eqb c "-" || Ascii.eqb c "i" || Ascii.eqb c "n"
  || Ascii.eqb c "f" || Ascii.eqb c "a".

(** The strings of a list with a separator between them. *)
Fixpoint join (sep : ascii) (l : list string) : string :=
  match l with
  | [] => EmptyString
  | [a] => a
  | a :: t => a ++ String sep (join sep t)
  end.

(** The diagnostic of a reload that cannot read the file. *)
Definition read_diagnostic (r : string) (e : exn) : message :=
  match e with
  | FileNotFoundError => WarnNotFound r
  | PermissionError => ErrReadPermission r
  | OSError => ErrRead r OSError
  end.

(** The diagnostic of a rewrite that cannot open the file. *)
Definition write_diagnostic (r : string) (e : exn) : message :=
  match e with
  | PermissionError => ErrWritePermission r
  | err => ErrWrite err
  end.

(** The line of a record without its final newline. *)
Definition cuerpo (p : Producto) : string :=
  id p ++ String FIELD_SEP (nombre p ++ String FIELD_SEP
    (str_of_int (cantidad p) ++ String FIELD_SEP (float_repr (precio p)))).

(** [10^(k-1) <= x], for [x = num / den]. *)
Definition decade_below (num den k : Z) : Prop :=
  snd (scale10 num den (1 - k)) <= fst (scale10 num den (1 - k)).

(** [x] is a binary64 value: [spec_float] has room for mantissas and
    exponents no float has. *)
Definition is_float (x : float) : bool := valid_binary prec emax x.

Definition is_nan (x : float) : bool :=
  match x with S754_nan => true | _ => false end.

(** [from_line(p.to_line()) == p] *)
Definition round_trips (p : Producto) : bool :=
  match from_line (to_line p) with
  | Some q => Producto_eq q p
  | None => false
  end.

Definition line_break (c : ascii) : bool := Ascii.eqb c LF || Ascii.eqb c CR.

Definition no_line_break (s : string) : bool :=
  forallb (fun c => negb (line_break c)) s.

(** A record whose line is a single line of the file that parses back to
    a record equal to it: no separator and no line break in id and name,
    no blank in front of the id, a price that is not NaN. *)
Definition limpio (p : Producto) : bool :=
  lacks FIELD_SEP (id p) && lacks FIELD_SEP (nombre p)
  && negb (starts_with isspace (id p))
  && no_line_break (id p) && no_line_break (nombre p)
  && is_float (precio p) && negb (is_nan (precio p)).

Definition blank (line : string) : bool := String.eqb (strip line) EmptyString.

(** The records of the lines that parse, in file order. *)
Definition registros (lineas : list string) : list Producto :=
  flat_map (fun l => match from_line l with Some p => [p] | None => [] end)
           lineas.

(** The diagnostics of the lines that are neither blank nor parse. *)
Definition corruptas (lineas : list string) : list message :=
  flat_map (fun l =>
              if blank l then []
              else match from_line l with
                   | Some _ => []
                   | None => [WarnCorrupt (strip l)]
                   end)
           lineas.

(** The dict after storing records one after the other under their ids. *)
Definition store_all (ps : list Producto) (d : dict) : dict :=
  fold_left (fun d p => dict_set (id p) p d) ps d.

Definition dict_of (ps : list Producto) : dict := store_all ps [].

(** Every entry of the dict is filed under the id of its record, once. *)
Definition keyed_by_id (d : dict) : Prop :=
  NoDup (dict_keys d) /\ Forall (fun kv => fst kv = id (snd kv)) d.

(** The store with another dict, file or console. *)
Definition with_consola (c : list message) (s : Inventario) : Inventario :=
  mkInventario (ruta s) (productos s) (archivo s) c.

Definition with_contents (c : string) (s : Inventario) : Inventario :=
  mkInventario (ruta s) (productos s)
    (mkFile (Some c) (read_fault (archivo s)) (write_fault (archivo s)))
    (consola s).

(** The outcome of an operation that is refused: it returns [False],
    prints [m] and leaves the dict, the file and the path alone. *)
Definition refused (m : message) (s : Inventario) (out : bool * Inventario) : Prop :=
  fst out = false
  /\ productos (snd out) = productos s
  /\ archivo (snd out) = archivo s
  /\ ruta (snd out) = ruta s
  /\ consola (snd out) = (consola s ++ [m])%list.

(** The outcome of an operation whose rewrite of the file fails with [e]:
    it returns [False] and prints the diagnostic, the dict is [d'] and the
    file is the one of before. *)
Definition unsaved (d' : dict) (e : exn) (s : Inventario)
    (out : bool * Inventario) : Prop :=
  fst out = false
  /\ productos (snd out) = d'
  /\ archivo (snd out) = archivo s
  /\ consola (snd out) = (consola s ++ [write_diagnostic (ruta s) e])%list.

(** The text [guardar_todo] writes for a dict. *)
Definition file_text (d : dict) : string :=
  concat_all (map to_line (dict_values d)).

(** 0.5 and 1.0 *)
Definition half : float := S754_finite false 4503599627370496 (-53).
Definition one : float := S754_finite false 4503599627370496 (-52).

Definition bolt : Producto := mkProducto "P1" "Bolt" 10 half.

(** A file that does not exist yet and can be created, read and written. *)
Definition no_file : file := mkFile None None None.

(** The record of the example with a blank before its id. *)
Definition blank_id : Producto := mkProducto " P1" "Bolt" 10 half.

(** A record whose name runs over two lines. *)
Definition two_lines : Producto :=
  mkProducto "P1" ("Bo" ++ String LF "lt") 10 half.

(** A record whose name holds the separator. *)
Definition washer : Producto := mkProducto "P2" "a|b" 1 one.

Definition nut : Producto := mkProducto "P1" "Nut" 5 half.

(** A store over a readable file with the given text. *)
Definition store_on (d : dict) (text : string) : Inventario :=
  mkInventario INVENTARIO_FILE d (mkFile (Some text) None None) [].

(** A store whose file cannot be opened. *)
Definition store_locked (d : dict) (e : exn) : Inventario :=
  mkInventario INVENTARIO_FILE d (mkFile (Some EmptyString) (Some e) (Some e)) [].

(** A good line followed by one with three fields. *)
Definition text_with_short_line : string :=
  "P1|Bolt|10|0.5" ++ String LF ("P9|Nail|3" ++ String LF EmptyString).

(** Two good lines for the same id. *)
Definition text_with_repeated_id : string :=
  "P1|Bolt|10|0.5" ++ String LF ("P1|Nut|5|0.5" ++ String LF EmptyString).

(** The store of the end-to-end scenario after [bolt] was added. *)
Definition store_bolt : Inventario :=
  snd (añadir_producto bolt (Inventario_init INVENTARIO_FILE no_file)).

Definition screw : Producto := mkProducto "P2" "Screw" 3 one.

(** The store of the scenario after [screw] was added too. *)
Definition store_bolt_screw : Inventario :=
  snd (añadir_producto screw store_bolt).

(** The same store after [washer] was added too. *)
Definition store_bolt_washer : Inventario :=
  snd (añadir_producto washer store_bolt).

(** The entries of a dict that come after the one for [k]. *)
Fixpoint after_key (k : string) (d : dict) : dict :=
  match d with
  | [] => []
  | (k', _) :: t => if String.eqb k' k then t else after_key k t
  end.

(** A record for the id of [bolt] whose name holds the separator. *)
Definition dirty : Producto := mkProducto "P1" "a|b" 5 half.

(** A record whose id is the one of [screw] after a blank. *)
Definition ghost : Producto := mkProducto " P2" "Ghost" 1 one.

(** The store of the scenario after [screw] and then [ghost] were added. *)
Definition store_bolt_screw_ghost : Inventario :=
  snd (añadir_producto ghost store_bolt_screw).

(** ** The listing *)

(** [c * n] *)
Fixpoint repeat_char (c : ascii) (n : nat) : string :=
  match n with
  | O => EmptyString
  | S k => String c (repeat_char c k)
  end.

(** [format(s, "<w")] and [format(s, ">w")]: blanks up to [w] columns,
    nothing cut. The first is what a format spec that is a bare width
    does to a [str], the second what it does to a number. *)
Definition ljust (w : nat) (s : string) : string :=
  s ++ repeat_char " " (w - String.length s).

Definition rjust (w : nat) (s : string) : string :=
  repeat_char " " (w - String.length s) ++ s.

(** The integer nearest to [a / b], the even one on a tie. *)
Definition nearest (a b : Z) : Z :=
  match 2 * (a mod b) ?= b with
  | Lt => a / b
  | Gt => a / b + 1
  | Eq => if Z.even (a / b) then a / b else a / b + 1
  end.

(** The hundredths nearest to the float [m * 2^e]. *)
Definition cents (m : positive) (e : Z) : Z :=
  let (num, den) := ratio m e in nearest (100 * num) den.

(** [format(x, ".2f")]: the decimal with two places nearest to [x]. *)
Definition format_2f (x : float) : string :=
  match x with
  | S754_nan => "nan"
  | S754_infinity s => if s then "-inf" else "inf"
  | S754_zero s => if s then "-0.00" else "0.00"
  | S754_finite s m e =>
      let n := cents m e in
      let body :=
        str_of_nat (n / 100)
        ++ String "." (String (digit_char (n mod 100 / 10))
                         (String (digit_char (n mod 10)) EmptyString)) in
      if s then String "-" body else body
  end.

Definition COLUMN_SEP : string := " | ".

(** The header line, the rule under it and the line of a record. *)
Definition encabezado : string :=
  ljust 10 "ID" ++ COLUMN_SEP ++ ljust 30 "Nombre" ++ COLUMN_SEP
  ++ rjust 6 "Cant." ++ COLUMN_SEP ++ rjust 8 "Precio".

Definition regla : string := repeat_char "-" 62.

Definition fila (p : Producto) : string :=
  ljust 10 (id p) ++ COLUMN_SEP ++ ljust 30 (nombre p) ++ COLUMN_SEP
  ++ rjust 6 (str_of_int (cantidad p)) ++ COLUMN_SEP
  ++ rjust 8 (format_2f (precio p)).

(** ** The terminal of the menu *)

(** The prompts of [input]. *)
Inductive pregunta :=
| PideOpcion
| PideId
| PideNombre
| PideCantidad
| PidePrecio
| PideIdActualizar
| PideNombreNuevo (actual : string)
| PideCantidadNueva (actual : Z)
| PidePrecioNuevo (actual : float)
| PideIdEliminar
| PideConfirmar
| PideIdBuscar.

(** What reaches the screen: the prints of the class, the lines of the
    listing, and the prints and prompts of [menu]. *)
Inductive salida :=
| Clase (m : message)
| InfoVacio
| Linea (s : string)
| Opciones
| Pregunta (q : pregunta)
| ErrEntrada
| WarnNoExiste
| Ficha (p : Producto)
| NoEncontrado
| OpcionInvalida.

(** A session at the terminal: the store, the lines still to be typed,
    and the screen. *)
Record Sesion := mkSesion {
  inv : Inventario;
  entrada : list string;
  pantalla : list salida
}.

(** Code at the terminal either goes on with a value or stops on the
    [EOFError] of an [input] that finds nothing to read ([None]). *)
Definition IO (A : Type) : Type := Sesion -> option A * Sesion.

Definition io_ret {A} (a : A) : IO A := fun t => (Some a, t).

Definition io_bind {A B} (m : IO A) (k : A -> IO B) : IO B :=
  fun t =>
    match m t with
    | (Some a, t') => k a t'
    | (None, t') => (None, t')
    end.

Declare Scope io_scope.
Delimit Scope io_scope with io.
Notation "x <- m ;; k" := (io_bind m (fun x => k))
  (at level 61, m at next level, right associativity) : io_scope.
Notation "m ;;; k" := (io_bind m (fun _ => k))
  (at level 61, right associativity) : io_scope.

Definition mostrar (o : salida) : IO unit :=
  fun t => (Some tt, mkSesion (inv t) (entrada t) (pantalla t ++ [o])).

(** [input(q)]: the prompt is written, then a line is taken. *)
Definition input (q : pregunta) : IO string :=
  fun t =>
    match entrada t with
    | [] => (None, mkSesion (inv t) [] (pantalla t ++ [Pregunta q]))
    | l :: rest => (Some l, mkSesion (inv t) rest (pantalla t ++ [Pregunta q]))
    end.

(** A method of the store called from the terminal: what it adds to
    the console of the store appears on the screen. *)
Definition clase {A} (m : M A) : IO A :=
  fun t =>
    let (a, s') := m (inv t) in
    (Some a,
     mkSesion s' (entrada t)
       (pantalla t
        ++ map Clase (skipn (List.length (consola (inv t))) (consola s')))).

(** What the listing prints for a dict. *)
Definition listado (d : dict) : list salida :=
  match d with
  | [] => [InfoVacio]
  | _ => Linea encabezado :: Linea regla
         :: map (fun p => Linea (fila p)) (dict_values d)
  end.

Definition listar_productos : IO unit :=
  fun t =>
    (Some tt,
     mkSesion (inv t) (entrada t)
       (pantalla t ++ listado (productos (inv t)))).

(** [s.lower()] on U+0000..U+00FF: A-Z and the capital letters
    U+00C0..U+00DE, the sign U+00D7 apart, move up by 32. *)
Definition lower_char (c : ascii) : ascii :=
  let n := code c in
  if ((65 <=? n) && (n <=? 90))
     || ((192 <=? n) && (n <=? 222) && negb (n =? 215))
  then ascii_of_N (Z.to_N (n + 32)) else c.

Fixpoint str_lower (s : string) : string :=
  match s with
  | String c t => String (lower_char c) (str_lower t)
  | EmptyString => EmptyString
  end.

(** ** The menu *)

Local Open Scope io_scope.

(** Choice 2: the price is asked only once the quantity is a number. *)
Definition opcion_anadir : IO unit :=
  pid <- input PideId ;;
  nom <- input PideNombre ;;
  cantidad_s <- input PideCantidad ;;
  match int_of_str (strip cantidad_s) with
  | None => mostrar ErrEntrada
  | Some c =>
      precio_s <- input PidePrecio ;;
      match float_of_str (strip precio_s) with
      | None => mostrar ErrEntrada
      | Some x =>
          clase (añadir_producto (mkProducto (strip pid) (strip nom) c x)) ;;;
          io_ret tt
      end
  end.

(** Choice 3: the three answers are read before any is converted; a
    blank answer keeps the field of the record in the store. *)
Definition opcion_actualizar : IO unit :=
  pid <- input PideIdActualizar ;;
  existing <- clase (obtener_producto (strip pid)) ;;
  match existing with
  | None => mostrar WarnNoExiste
  | Some ex =>
      nom <- input (PideNombreNuevo (nombre ex)) ;;
      cantidad_s <- input (PideCantidadNueva (cantidad ex)) ;;
      precio_s <- input (PidePrecioNuevo (precio ex)) ;;
      let nom' := if String.eqb (strip nom) EmptyString then nombre ex
                  else strip nom in
      match (if String.eqb (strip cantidad_s) EmptyString
             then Some (cantidad ex) else int_of_str (strip cantidad_s)) with
      | None => mostrar ErrEntrada
      | Some c =>
          match (if String.eqb (strip precio_s) EmptyString
                 then Some (precio ex) else float_of_str (strip precio_s)) with
          | None => mostrar ErrEntrada
          | Some x =>
              clase (actualizar_producto (mkProducto (strip pid) nom' c x)) ;;;
              io_ret tt
          end
      end
  end.

Definition opcion_eliminar : IO unit :=
  pid <- input PideIdEliminar ;;
  confirm <- input PideConfirmar ;;
  if String.eqb (str_lower (strip confirm)) "s"
  then clase (eliminar_producto (strip pid)) ;;; io_ret tt
  else io_ret tt.

Definition opcion_buscar : IO unit :=
  pid <- input PideIdBuscar ;;
  p <- clase (obtener_producto (strip pid)) ;;
  match p with
  | Some p => mostrar (Ficha p)
  | None => mostrar NoEncontrado
  end.

(** The branch of the loop for a choice: [true] to go round again,
    [false] on [break]. *)
Definition eleccion (elec : string) : IO bool :=
  if String.eqb elec "1" then listar_productos ;;; io_ret true
  else if String.eqb elec "2" then opcion_anadir ;;; io_ret true
  else if String.eqb elec "3" then opcion_actualizar ;;; io_ret true
  else if String.eqb elec "4" then opcion_eliminar ;;; io_ret true
  else if String.eqb elec "5" then opcion_buscar ;;; io_ret true
  else if String.eqb elec "6" then clase cargar_desde_archivo ;;; io_ret true
  else if String.eqb elec "0" then io_ret false
  else mostrar OpcionInvalida ;;; io_ret true.

(** One turn of the loop. *)
Definition ronda : IO bool :=
  mostrar Opciones ;;;
  elec <- input PideOpcion ;;
  eleccion (strip elec).

Local Close Scope io_scope.



(** The terminal in front of a store, with lines to type. *)
Definition sesion (s : Inventario) (lineas : list string) : Sesion :=
  mkSesion s lineas [].

(** ** Vocabulary of the further statements *)

(** The file holds what [guardar_todo] writes for the dict in memory. *)
Definition saved (s : Inventario) : Prop :=
  contents (archivo s) = Some (file_text (productos s)).

(** The diagnostic of a file that cannot be created. *)
Definition create_diagnostic (r : string) (e : exn) : message :=
  match e with
  | PermissionError => ErrCreatePermission r
  | err => ErrCreate err
  end.

(** A call of a method of the store, and the store it leaves. *)
Inductive llamada :=
| Anadir (r : Producto)
| Actualizar (r : Producto)
| Eliminar (k : string)
| Obtener (k : string)
| Cargar
| Guardar.

Definition llamar (c : llamada) (s : Inventario) : Inventario :=
  match c with
  | Anadir r => snd (añadir_producto r s)
  | Actualizar r => snd (actualizar_producto r s)
  | Eliminar k => snd (eliminar_producto k s)
  | Obtener k => snd (obtener_producto k s)
  | Cargar => snd (cargar_desde_archivo s)
  | Guardar => snd (guardar_todo s)
  end.


(** The screen of a turn of the menu up to the answer to the choice. *)
Definition tras_opcion (t : Sesion) (rest : list string) : Sesion :=
  mkSesion (inv t) rest (pantalla t ++ [Opciones; Pregunta PideOpcion]).

(** The store after a sequence of calls. *)
Definition historia (cs : list llamada) (s : Inventario) : Inventario :=
  fold_left (fun s c => llamar c s) cs s.

(** * Facts *)

(** ** Strings *)

Lemma append_nil_r (s : string) : s ++ EmptyString = s.
Proof. induction s; simpl; congruence. Qed.

Section TextFacts.

Variable P : ascii -> bool.

Lemma forallb_app (a b : string) :
  forallb P (a ++ b) = forallb P a && forallb P b.
Proof.
  induction a as [|c a IH]; simpl; [reflexivity|].
  now rewrite IH, andb_assoc.
Qed.

Lemma forallb_weaken (Q : ascii -> bool) (s : string) :
  (forall c, P c = true -> Q c = true) ->
  forallb P s = true -> forallb Q s = true.
Proof.
  intros HPQ. induction s as [|c s IH]; simpl; [reflexivity|].
  rewrite !andb_true_iff. intros [Hc Hs]. auto.
Qed.

Lemma ends_with_app (a b : string) :
  b <> EmptyString -> ends_with P (a ++ b) = ends_with P b.
Proof.
  intros Hb. induction a as [|c a IH]; simpl; [reflexivity|].
  rewrite IH. destruct (a ++ b) eqn:E; [|reflexivity].
  destruct a; simpl in E; [congruence | discriminate].
Qed.

Lemma ends_with_cons (c : ascii) (s : string) :
  s <> EmptyString -> ends_with P (String c s) = ends_with P s.
Proof. destruct s; [congruence | reflexivity]. Qed.

Lemma ends_with_forallb (s : string) :
  s <> EmptyString -> forallb P s = true -> ends_with P s = true.
Proof.
  induction s as [|c s IH]; [congruence|]. simpl.
  rewrite andb_true_iff. intros _ [Hc Hs].
  destruct s; [exact Hc|]. apply IH; [discriminate | exact Hs].
Qed.

End TextFacts.

Section StripFacts.

Variable P : ascii -> bool.

Lemma lstrip_by_fixed (s : string) :
  starts_with P s = false -> lstrip_by P s = s.
Proof. destruct s as [|c s]; simpl; [reflexivity|]. now intros ->. Qed.

Lemma rstrip_by_all (s : string) :
  forallb P s = true -> rstrip_by P s = EmptyString.
Proof.
  induction s as [|c s IH]; simpl; [reflexivity|].
  rewrite andb_true_iff. intros [Hc Hs]. now rewrite (IH Hs), Hc.
Qed.

(** Stripping on the right removes a tail of spaces after a last
    character that is not one. *)
Lemma rstrip_by_tail (a b : string) :
  ends_with (fun c => negb (P c)) a = true -> forallb P b = true ->
  rstrip_by P (a ++ b) = a.
Proof.
  intros Ha Hb. induction a as [|c a IH]; [discriminate|].
  simpl in *. destruct a as [|c' a].
  - simpl. rewrite (rstrip_by_all _ Hb).
    apply negb_true_iff in Ha. now rewrite Ha.
  - rewrite (IH Ha). reflexivity.
Qed.

Lemma strip_by_fixed (s : string) :
  forallb (fun c => negb (P c)) s = true -> strip_by P s = s.
Proof.
  intros H. unfold strip_by. destruct s as [|c s]; [reflexivity|].
  rewrite lstrip_by_fixed.
  - rewrite <- (append_nil_r (String c s)) at 1.
    apply rstrip_by_tail; [|reflexivity].
    apply ends_with_forallb; [discriminate | exact H].
  - simpl in *. apply andb_true_iff in H. now apply negb_true_iff.
Qed.

End StripFacts.

Lemma append_assoc (a b c : string) : (a ++ b) ++ c = a ++ (b ++ c).
Proof. induction a; simpl; congruence. Qed.

Lemma lacks_eqb (c : ascii) (s : string) (x : ascii) (t : string) :
  lacks c (String x t) = true -> Ascii.eqb x c = false /\ lacks c t = true.
Proof.
  unfold lacks. simpl. rewrite andb_true_iff, negb_true_iff. tauto.
Qed.

(** Splitting stops at the first separator. *)
Lemma split_cons (sep : ascii) (a b : string) :
  lacks sep a = true ->
  split sep (a ++ String sep b) = a :: split sep b.
Proof.
  induction a as [|c a IH]; intros H.
  - simpl. now rewrite Ascii.eqb_refl.
  - apply (lacks_eqb sep a) in H. destruct H as [Hc Ha].
    simpl. rewrite Hc, (IH Ha). reflexivity.
Qed.

Lemma split_single (sep : ascii) (a : string) :
  lacks sep a = true -> split sep a = [a].
Proof.
  induction a as [|c a IH]; intros H; [reflexivity|].
  apply (lacks_eqb sep a) in H. destruct H as [Hc Ha].
  simpl. now rewrite Hc, (IH Ha).
Qed.

Lemma split_nonempty (sep : ascii) (s : string) :
  (1 <= List.length (split sep s))%nat.
Proof.
  induction s as [|c s IH]; simpl; [lia|].
  destruct (Ascii.eqb c sep); simpl; [lia|].
  destruct (split sep s); simpl in *; lia.
Qed.

(** A separator more is a part more. *)
Lemma split_length_app (sep : ascii) (a b : string) :
  List.length (split sep (a ++ String sep b))
  = (List.length (split sep a) + List.length (split sep b))%nat.
Proof.
  induction a as [|c a IH]; simpl.
  - now rewrite Ascii.eqb_refl.
  - destruct (Ascii.eqb c sep); simpl; [now rewrite IH|].
    pose proof (split_nonempty sep a) as Ha.
    pose proof (split_nonempty sep b) as Hb.
    destruct (split sep (a ++ String sep b)) eqn:E1;
      destruct (split sep a) eqn:E2; simpl in *; lia.
Qed.

Lemma universal_newlines_fixed (s : string) :
  lacks CR s = true -> universal_newlines s = s.
Proof.
  induction s as [|c s IH]; intros H; [reflexivity|].
  apply (lacks_eqb CR s) in H. destruct H as [Hc Hs].
  simpl. rewrite Hc. now rewrite (IH Hs).
Qed.

(** A text made of a line and more text reads as that line and the lines
    of the rest. *)
Lemma keepends_cons (a rest : string) :
  lacks LF a = true ->
  keepends (a ++ String LF rest) = (a ++ String LF EmptyString) :: keepends rest.
Proof.
  induction a as [|c a IH]; intros H.
  - simpl. reflexivity.
  - apply (lacks_eqb LF a) in H. destruct H as [Hc Ha].
    simpl. rewrite Hc, (IH Ha). reflexivity.
Qed.

(** ** Integers in decimal *)

Lemma digit_char_spec (d : Z) :
  0 <= d < 10 -> isdigit (digit_char d) = true /\ digit_val (digit_char d) = d.
Proof.
  intros H.
  assert (E : d = 0 \/ d = 1 \/ d = 2 \/ d = 3 \/ d = 4 \/ d = 5 \/ d = 6
              \/ d = 7 \/ d = 8 \/ d = 9) by lia.
  repeat (destruct E as [E|E]; [subst d; split; reflexivity|]).
  subst d; split; reflexivity.
Qed.

Lemma decimal_S (fuel : nat) (n : Z) (acc : string) :
  decimal (S fuel) n acc
  = if n <? 10 then String (digit_char (n mod 10)) acc
    else decimal fuel (n / 10) (String (digit_char (n mod 10)) acc).
Proof. reflexivity. Qed.

Lemma decimal_acc (fuel : nat) (n : Z) (acc : string) :
  decimal fuel n acc = decimal fuel n EmptyString ++ acc.
Proof.
  revert n acc. induction fuel as [|f IH]; intros n acc; [reflexivity|].
  simpl. destruct (n <? 10); [reflexivity|].
  rewrite (IH _ (String _ acc)), (IH _ (String _ EmptyString)).
  now rewrite append_assoc.
Qed.

Lemma decimal_isdigit (fuel : nat) (n : Z) :
  forallb isdigit (decimal fuel n EmptyString) = true.
Proof.
  revert n. induction fuel as [|f IH]; intros n; [reflexivity|].
  assert (Hd : isdigit (digit_char (n mod 10)) = true).
  { apply digit_char_spec. apply Z.mod_pos_bound. lia. }
  simpl. destruct (n <? 10).
  - simpl. now rewrite Hd.
  - rewrite decimal_acc, forallb_app, IH. simpl. now rewrite Hd.
Qed.

Lemma decimal_nonempty (fuel : nat) (n : Z) :
  decimal (S fuel) n EmptyString <> EmptyString.
Proof.
  simpl. destruct (n <? 10); [discriminate|].
  rewrite decimal_acc. destruct (decimal fuel (n / 10) EmptyString); discriminate.
Qed.

Lemma Z_of_digits_app (a : Z) (s t : string) :
  Z_of_digits a (s ++ t) = Z_of_digits (Z_of_digits a s) t.
Proof. revert a. induction s as [|c s IH]; intros a; simpl; auto. Qed.

Lemma decimal_value (fuel : nat) (n : Z) :
  0 <= n < 10 ^ Z.of_nat (S fuel) ->
  Z_of_digits 0 (decimal (S fuel) n EmptyString) = n.
Proof.
  revert n. induction fuel as [|f IH]; intros n Hn.
  - change (10 ^ Z.of_nat 1) with 10 in Hn.
    simpl. destruct (Z.ltb_spec n 10); [|lia].
    simpl. rewrite Z.mod_small by lia.
    destruct (digit_char_spec n) as [_ ->]; lia.
  - rewrite decimal_S. destruct (Z.ltb_spec n 10) as [Hlt|Hge].
    + simpl. rewrite Z.mod_small by lia.
      destruct (digit_char_spec n) as [_ ->]; lia.
    + rewrite decimal_acc, Z_of_digits_app, IH.
      * cbn [Z_of_digits]. destruct (digit_char_spec (n mod 10)) as [_ ->].
        { apply Z.mod_pos_bound. lia. }
        pose proof (Z.div_mod n 10 ltac:(lia)). lia.
      * split; [apply Z.div_pos; lia|].
        apply Z.div_lt_upper_bound; [lia|].
        replace (Z.of_nat (S (S f))) with (Z.succ (Z.of_nat (S f))) in Hn by lia.
        rewrite Z.pow_succ_r in Hn by lia. lia.
Qed.

Lemma str_of_nat_value (n : Z) : 0 <= n -> Z_of_digits 0 (str_of_nat n) = n.
Proof.
  intros Hn. unfold str_of_nat. apply decimal_value.
  split; [exact Hn|].
  pose proof (Z.log2_nonneg n) as Hl.
  replace (Z.of_nat (S (Z.to_nat (Z.log2 n)))) with (Z.succ (Z.log2 n)) by lia.
  destruct (Z.eq_dec n 0) as [->|Hz].
  - reflexivity.
  - apply Z.lt_le_trans with (2 ^ Z.succ (Z.log2 n)).
    + apply Z.log2_spec. lia.
    + apply Z.pow_le_mono_l. lia.
Qed.

Lemma str_of_nat_isdigit (n : Z) : forallb isdigit (str_of_nat n) = true.
Proof. apply decimal_isdigit. Qed.

Lemma str_of_nat_nonempty (n : Z) : str_of_nat n <> EmptyString.
Proof. apply decimal_nonempty. Qed.

Lemma digits_us_digits (s : string) (a : Z) (b : bool) :
  forallb isdigit s = true -> s <> EmptyString \/ b = true ->
  digits_us a b s = Some (Z_of_digits a s).
Proof.
  revert a b. induction s as [|c s IH]; intros a b Hs Hb.
  - destruct Hb as [Hb| ->]; [congruence | reflexivity].
  - simpl in *. apply andb_true_iff in Hs. destruct Hs as [Hc Hs].
    rewrite Hc. apply IH; auto.
Qed.

Lemma str_of_int_chars (n : Z) : forallb int_char (str_of_int n) = true.
Proof.
  assert (H : forall k, forallb int_char (str_of_nat k) = true).
  { intros k. apply (forallb_weaken isdigit); [|apply str_of_nat_isdigit].
    intros c Hc. unfold int_char. now rewrite Hc. }
  unfold str_of_int. destruct (n <? 0); [simpl|]; apply H.
Qed.

(** [int(str(n)) == n] *)
Lemma int_of_str_of_int (n : Z) : int_of_str (str_of_int n) = Some n.
Proof.
  unfold int_of_str. rewrite strip_by_fixed.
  2:{ apply (forallb_weaken int_char); [|apply str_of_int_chars].
      intros c. unfold int_char, isdigit, isspace_num, Ascii.eqb.
      destruct c as [[] [] [] [] [] [] [] []]; vm_compute; congruence. }
  unfold str_of_int. destruct (Z.ltb_spec n 0) as [Hneg|Hpos].
  - simpl. rewrite digits_us_digits.
    + rewrite str_of_nat_value by lia. simpl. f_equal. lia.
    + apply str_of_nat_isdigit.
    + left. apply str_of_nat_nonempty.
  - pose proof (str_of_nat_isdigit n) as Hd.
    pose proof (str_of_nat_nonempty n) as Hne.
    pose proof (str_of_nat_value n Hpos) as Hv.
    destruct (str_of_nat n) as [|c t]; [congruence|].
    assert (Hc : isdigit c = true) by (simpl in Hd; now apply andb_true_iff in Hd).
    assert (Ascii.eqb c "-" = false /\ Ascii.eqb c "+" = false) as [-> ->].
    { revert Hc. unfold isdigit, Ascii.eqb.
      destruct c as [[] [] [] [] [] [] [] []]; vm_compute; auto. }
    rewrite digits_us_digits; [now rewrite Hv | exact Hd | left; discriminate].
Qed.

(** ** Rounding a fraction to a float *)

(** The quotient nearest to [N / D] is [m] when [N / D] is within a half
    of [m]. *)
Lemma nearest_quotient (N D m : Z) :
  0 < D -> 2 * Z.abs (N - m * D) < D ->
  match 2 * (N mod D) ?= D with
  | Lt => N / D
  | Gt => N / D + 1
  | Eq => if Z.even (N / D) then N / D else N / D + 1
  end = m.
Proof.
  intros HD Hnear.
  pose proof (Z.div_mod N D ltac:(lia)) as Hdm.
  pose proof (Z.mod_pos_bound N D HD) as Hr.
  set (q := N / D) in *. set (r := N mod D) in *.
  assert (Hq : q = m \/ q = m - 1) by nia.
  destruct (Z.compare_spec (2 * r) D) as [He|Hl|Hg]; nia.
Qed.

Lemma log2_between (a k : Z) :
  0 <= k -> 2 ^ k <= a < 2 ^ (k + 1) -> Z.log2 a = k.
Proof. intros Hk H. apply Z.log2_unique; [exact Hk | now rewrite Z.add_1_r in H]. Qed.

Lemma div_between (N D lo hi : Z) :
  0 < D -> lo * D <= N < hi * D -> lo <= N / D < hi.
Proof.
  intros HD [H1 H2]. split.
  - apply Z.div_le_lower_bound; lia.
  - apply Z.div_lt_upper_bound; lia.
Qed.

(** A fraction within half a unit in the last place of a float, and
    within a quarter when the float is a power of two, rounds to it. *)
Lemma round_fraction_near (m T num den : Z) :
  0 <= T <= 2045 -> 0 < m < 2 ^ 53 -> T = 0 \/ 2 ^ 52 <= m ->
  0 < num -> 0 < den ->
  2 * Z.abs (num * 2 ^ 1074 - m * 2 ^ T * den) < 2 ^ T * den ->
  (m = 2 ^ 52 ->
   4 * Z.abs (num * 2 ^ 1074 - m * 2 ^ T * den) < 2 ^ T * den) ->
  round_fraction false num den = S754_finite false (Z.to_pos m) (T - 1074).
Proof.
  intros HT Hm Hnorm Hnum Hden Hnear Hquarter. unfold round_fraction.
  set (N := num * 2 ^ 1074) in *.
  assert (HP : 0 < 2 ^ T) by (apply Z.pow_pos_nonneg; lia).
  assert (HN : 0 < N) by (unfold N; apply Z.mul_pos_pos; [lia | now apply Z.pow_pos_nonneg]).
  set (P := 2 ^ T) in *.
  assert (Hcases :
            (Z.max 0 (Z.log2 (N / den) - 52) = T
             /\ 2 * Z.abs (N - m * (den * 2 ^ T)) < den * 2 ^ T)
            \/ (1 <= T /\ m = 2 ^ 52
                /\ Z.max 0 (Z.log2 (N / den) - 52) = T - 1
                /\ 2 * Z.abs (N - 2 ^ 53 * (den * 2 ^ (T - 1))) < den * 2 ^ (T - 1))).
  { fold P. destruct (Z.eq_dec T 0) as [HT0|HT0].
    - left. split; [|nia].
      assert (HY : 0 <= N / den < 2 ^ 53).
      { apply div_between; [lia|]. subst T. change (2 ^ 0) with 1 in *.
        unfold P in *. nia. }
      destruct (Z.eq_dec (N / den) 0) as [->|Hnz]; [subst T; reflexivity|].
      assert (Z.log2 (N / den) < 53) by (apply Z.log2_lt_pow2; lia).
      lia.
    - destruct Hnorm as [?|Hm52]; [lia|].
      destruct (Z_lt_le_dec N (2 ^ 52 * P * den)) as [Hlow|Hhigh].
      + right. assert (Hm' : m = 2 ^ 52) by nia.
        specialize (Hquarter Hm').
        assert (HP2 : P = 2 * 2 ^ (T - 1)).
        { unfold P. replace T with (Z.succ (T - 1)) at 1 by lia.
          apply Z.pow_succ_r. lia. }
        split; [lia|]. split; [exact Hm'|]. split; [|nia].
        assert (HY : 2 ^ 51 * P <= N / den < 2 ^ 52 * P).
        { apply div_between; [lia|]. nia. }
        rewrite (log2_between (N / den) (51 + T)); [lia | lia |].
        rewrite !Z.pow_add_r by lia. fold P.
        change (2 ^ 1) with 2. lia.
      + left. split; [|nia].
        assert (HY : 2 ^ 52 * P <= N / den < 2 ^ 53 * P).
        { apply div_between; [lia|]. nia. }
        rewrite (log2_between (N / den) (52 + T)); [lia | lia |].
        rewrite !Z.pow_add_r by lia. fold P.
        change (2 ^ 1) with 2. lia. }
  destruct Hcases as [[-> Hhalf] | (HT1 & Hm52 & -> & Hhalf)].
  - rewrite (nearest_quotient N (den * 2 ^ T) m) by (fold P; nia || lia).
    destruct (Z.eqb_spec m 0); [lia|].
    destruct (Z.eqb_spec m (2 ^ 53)); [lia|].
    destruct (Z.ltb_spec 2045 T); [lia|]. reflexivity.
  - assert (0 < 2 ^ (T - 1)) by (apply Z.pow_pos_nonneg; lia).
    rewrite (nearest_quotient N (den * 2 ^ (T - 1)) (2 ^ 53)) by (nia || lia).
    rewrite Z.eqb_refl. cbn [Z.eqb]. replace (T - 1 + 1) with T by lia.
    destruct (Z.ltb_spec 2045 T); [lia|]. now subst m.
Qed.

(** Rounding sees the value of the fraction only. *)
Lemma round_fraction_scale (neg : bool) (c num den : Z) :
  0 < c -> 0 < den ->
  round_fraction neg (c * num) (c * den) = round_fraction neg num den.
Proof.
  intros Hc Hden. unfold round_fraction.
  replace (c * num * 2 ^ 1074) with (c * (num * 2 ^ 1074)) by ring.
  set (N := num * 2 ^ 1074).
  rewrite (Z.div_mul_cancel_l N den c) by lia.
  set (t := Z.max 0 (Z.log2 (N / den) - 52)).
  assert (Ht : 0 < 2 ^ t) by (apply Z.pow_pos_nonneg; lia).
  replace (c * den * 2 ^ t) with (c * (den * 2 ^ t)) by ring.
  set (D := den * 2 ^ t).
  assert (HD : 0 < D) by (unfold D; nia).
  rewrite (Z.div_mul_cancel_l N D c) by lia.
  rewrite (Z.mul_mod_distr_l N D c) by lia.
  replace (2 * (c * (N mod D))) with (c * (2 * (N mod D))) by ring.
  rewrite <- (Zmult_compare_compat_l _ _ c) by lia. reflexivity.
Qed.

Lemma pow10_pos (k : Z) : 0 <= k -> 0 < 10 ^ k.
Proof. intros H. apply Z.pow_pos_nonneg; lia. Qed.

Lemma pow2_pos (k : Z) : 0 <= k -> 0 < 2 ^ k.
Proof. intros H. apply Z.pow_pos_nonneg; lia. Qed.

(** [M * 10^E] as a fraction over any large enough power of ten. *)
Lemma round_decimal_over (neg : bool) (M E B : Z) :
  0 < M -> 0 <= B -> 0 <= E + B ->
  round_decimal neg M E = round_fraction neg (M * 10 ^ (E + B)) (10 ^ B).
Proof.
  intros HM HB HEB. unfold round_decimal.
  destruct M as [|p|p]; try lia.
  destruct (Z.leb_spec 0 E) as [HE|HE].
  - rewrite <- (round_fraction_scale neg (10 ^ B)) by (try apply pow10_pos; lia).
    f_equal; [|ring]. rewrite Z.pow_add_r by lia. ring.
  - rewrite <- (round_fraction_scale neg (10 ^ (E + B)) (Z.pos p))
      by (apply pow10_pos; lia).
    f_equal; [ring|]. rewrite <- Z.pow_add_r by lia. f_equal. lia.
Qed.

(** Zeros at the end of the digits can go to the exponent. *)
Lemma round_decimal_shift (neg : bool) (M E z : Z) :
  0 < M -> 0 <= z ->
  round_decimal neg (M * 10 ^ z) E = round_decimal neg M (E + z).
Proof.
  intros HM Hz. pose proof (pow10_pos z Hz) as Hp.
  rewrite (round_decimal_over neg (M * 10 ^ z) E (Z.max 0 (- E))) by nia.
  rewrite (round_decimal_over neg M (E + z) (Z.max 0 (- E))) by lia.
  f_equal. rewrite <- Z.mul_assoc, <- Z.pow_add_r by lia. f_equal. f_equal. lia.
Qed.

Lemma round_fraction_sign (neg : bool) (num den : Z) (m : positive) (e : Z) :
  round_fraction false num den = S754_finite false m e ->
  round_fraction neg num den = S754_finite neg m e.
Proof.
  unfold round_fraction.
  destruct (_ =? 0); [discriminate|].
  destruct (if _ =? 2 ^ 53 then _ else _) as [mant t'].
  destruct (2045 <? t'); [discriminate|]. now intros [= -> ->].
Qed.

Lemma round_decimal_sign (neg : bool) (M E : Z) (m : positive) (e : Z) :
  round_decimal false M E = S754_finite false m e ->
  round_decimal neg M E = S754_finite neg m e.
Proof.
  unfold round_decimal. destruct M; try discriminate.
  destruct (0 <=? E); apply round_fraction_sign.
Qed.

Lemma round_decimal_finite_pos (M E : Z) (m : positive) (e : Z) :
  round_decimal false M E = S754_finite false m e -> 0 < M.
Proof. unfold round_decimal. destruct M; [discriminate | lia | discriminate]. Qed.

(** ** The shape of a binary64 float *)

Lemma digits2_size (p : positive) : digits2_pos p = Pos.size p.
Proof. induction p; simpl; congruence. Qed.

Lemma valid_finite (s : bool) (m : positive) (e : Z) :
  valid_binary prec emax (S754_finite s m e) = true ->
  0 <= e + 1074 <= 2045 /\ Z.pos m < 2 ^ 53
  /\ (e + 1074 = 0 \/ 2 ^ 52 <= Z.pos m).
Proof.
  unfold valid_binary, bounded, canonical_mantissa, fexp, emin, prec, emax.
  rewrite andb_true_iff, Z.eqb_eq, Z.leb_le, digits2_size.
  intros [Hc He].
  pose proof (Pos.size_gt m) as Hgt. pose proof (Pos.size_le m) as Hle.
  assert (Hsz : Z.pos (Pos.size m) <= 53) by lia.
  assert (Hlt : Z.pos m < 2 ^ 53).
  { apply Z.lt_le_trans with (2 ^ Z.pos (Pos.size m)).
    - rewrite <- Pos2Z.inj_pow. now apply Pos2Z.pos_lt_pos.
    - apply Z.pow_le_mono_r; lia. }
  split; [lia|]. split; [exact Hlt|].
  destruct (Z.eq_dec (e + 1074) 0) as [?|Hne]; [now left | right].
  assert (Hs53 : Z.pos (Pos.size m) = 53) by lia.
  assert (H2 : 2 ^ Z.pos (Pos.size m) <= Z.pos m~0).
  { rewrite <- Pos2Z.inj_pow. now apply Pos2Z.pos_le_pos. }
  rewrite Hs53 in H2. change (2 ^ 53) with (2 * 2 ^ 52) in H2. lia.
Qed.

(** ** Fractions over common denominators *)

Lemma ratio_over (m : positive) (e num den : Z) :
  0 <= e + 1074 -> ratio m e = (num, den) ->
  0 < num /\ 0 < den
  /\ exists c, 0 < c /\ c * num = Z.pos m * 2 ^ (e + 1074) /\ c * den = 2 ^ 1074.
Proof.
  intros He. unfold ratio.
  assert (Hm : 0 < Z.pos m) by lia. revert Hm. generalize (Z.pos m). intros mz Hm.
  destruct (Z.leb_spec 0 e) as [H|H]; intros [= <- <-].
  - pose proof (pow2_pos e H). split; [apply Z.mul_pos_pos; lia|]. split; [lia|].
    exists (2 ^ 1074). split; [reflexivity|]. split; [|ring].
    rewrite Z.pow_add_r by lia. ring.
  - pose proof (pow2_pos (- e) ltac:(lia)). split; [lia|]. split; [lia|].
    exists (2 ^ (e + 1074)). split; [apply pow2_pos; lia|]. split; [ring|].
    rewrite <- Z.pow_add_r by lia. f_equal. lia.
Qed.

Lemma scale10_over (num den j B a b : Z) :
  0 < num -> 0 < den -> 0 <= B -> 0 <= j + B ->
  scale10 num den j = (a, b) ->
  0 < a /\ 0 < b
  /\ exists c, 0 < c /\ c * a = num * 10 ^ (j + B) /\ c * b = den * 10 ^ B.
Proof.
  intros Hn Hd HB HjB. unfold scale10.
  destruct (Z.leb_spec 0 j) as [H|H]; intros [= <- <-].
  - pose proof (pow10_pos j H). split; [apply Z.mul_pos_pos; lia|]. split; [lia|].
    exists (10 ^ B). split; [now apply pow10_pos|]. split; [|ring].
    rewrite Z.pow_add_r by lia. ring.
  - pose proof (pow10_pos (- j) ltac:(lia)). split; [lia|]. split; [apply Z.mul_pos_pos; lia|].
    exists (10 ^ (j + B)). split; [now apply pow10_pos|]. split; [ring|].
    assert (HB' : 10 ^ B = 10 ^ (- j) * 10 ^ (j + B)).
    { rewrite <- Z.pow_add_r by lia. f_equal. lia. }
    rewrite HB'. ring.
Qed.

(** ** The position of the decimal point *)

Lemma find_decpt_lower (fuel : nat) (k num den : Z) :
  decade_below num den k ->
  k <= find_decpt fuel k num den <= k + Z.of_nat fuel
  /\ decade_below num den (find_decpt fuel k num den).
Proof.
  revert k. induction fuel as [|f IH]; intros k Hk; [simpl; split; [lia | exact Hk]|].
  cbn [find_decpt]. destruct (scale10 num den (- k)) as [a b] eqn:E.
  destruct (Z.ltb_spec a b) as [Hlt|Hge]; [split; [lia | exact Hk]|].
  destruct (IH (k + 1)) as [Hr Hd].
  - unfold decade_below. replace (1 - (k + 1)) with (- k) by lia.
    now rewrite E.
  - split; [lia | exact Hd].
Qed.

(** ** Seventeen digits are enough *)

Lemma nearest_half (a b : Z) :
  0 < b ->
  2 * Z.abs (match 2 * (a mod b) ?= b with
             | Lt => a / b
             | Gt => a / b + 1
             | Eq => if Z.even (a / b) then a / b else a / b + 1
             end * b - a) <= b.
Proof.
  intros Hb.
  pose proof (Z.div_mod a b ltac:(lia)) as Hdm.
  pose proof (Z.mod_pos_bound a b Hb) as Hr.
  destruct (Z.compare_spec (2 * (a mod b)) b); [destruct (Z.even (a / b))| |]; nia.
Qed.

Lemma candidates_nearest (x : float) (num den decpt n a b : Z) :
  scale10 num den (n - decpt) = (a, b) ->
  snd (candidates x num den decpt n)
  = match 2 * (a mod b) ?= b with
    | Lt => a / b
    | Gt => a / b + 1
    | Eq => if Z.even (a / b) then a / b else a / b + 1
    end.
Proof. intros E. unfold candidates. rewrite E. reflexivity. Qed.

(** The arithmetic behind it: [10^16 > 2^53]. *)
Lemma seventeen_digits (m Tn K G A R C d : Z) :
  0 < m < 2 ^ 53 -> 0 < Tn -> 0 < K -> 0 < G -> 0 < A -> 0 < R ->
  2 ^ 53 < C ->
  A * R * C = G * G ->
  K * G <= m * Tn * R ->
  2 * Z.abs (d * K * G - m * Tn * (R * C)) <= K * G ->
  2 * Z.abs (d * A * K - m * Tn * G) < Tn * G
  /\ (m = 2 ^ 52 -> 4 * Z.abs (d * A * K - m * Tn * G) < Tn * G).
Proof.
  intros Hm HTn HK HG HA HR HC Hpow Hlow Hnear.
  assert (E : A * (d * K * G - m * Tn * (R * C))
              = G * (d * A * K - m * Tn * G)).
  { replace (A * (d * K * G - m * Tn * (R * C)))
      with (d * A * K * G - m * Tn * (A * R * C)) by ring.
    rewrite Hpow. ring. }
  assert (H1 : 2 * Z.abs (d * A * K - m * Tn * G) <= K * A).
  { apply Z.mul_le_mono_pos_l with G; [exact HG|].
    replace (G * (2 * Z.abs (d * A * K - m * Tn * G)))
      with (2 * Z.abs (G * (d * A * K - m * Tn * G)))
      by (rewrite Z.abs_mul, (Z.abs_eq G) by lia; ring).
    rewrite <- E, Z.abs_mul, (Z.abs_eq A) by lia.
    replace (G * (K * A)) with (A * (K * G)) by ring.
    replace (2 * (A * Z.abs (d * K * G - m * Tn * (R * C))))
      with (A * (2 * Z.abs (d * K * G - m * Tn * (R * C)))) by ring.
    apply Z.mul_le_mono_nonneg_l; lia. }
  assert (HRC : 0 < R * C) by nia.
  assert (HTR : 0 < Tn * R) by nia.
  assert (HKG : 0 < K * G) by nia.
  (* [f * (K * A) < Tn * G] follows from [f * (K * G) < C * (Tn * R)]. *)
  assert (Hstep : forall f, 0 < f -> f * (K * G) < C * (Tn * R) ->
                            f * (K * A) < Tn * G).
  { intros f Hf Hlt.
    apply Z.mul_lt_mono_pos_l with (R * C); [exact HRC|].
    replace (R * C * (f * (K * A))) with (f * K * (A * R * C)) by ring.
    rewrite Hpow.
    replace (f * K * (G * G)) with (G * (f * (K * G))) by ring.
    replace (R * C * (Tn * G)) with (G * (C * (Tn * R))) by ring.
    apply Z.mul_lt_mono_pos_l; assumption. }
  assert (Hbig : 2 ^ 53 * (Tn * R) < C * (Tn * R)).
  { apply Z.mul_lt_mono_pos_r; assumption. }
  split.
  - assert (1 * (K * A) < Tn * G); [|lia].
    apply Hstep; [lia|].
    assert (K * G < 2 ^ 53 * (Tn * R)) by nia. lia.
  - intros ->.
    assert (2 * (K * A) < Tn * G); [|lia].
    apply Hstep; [lia|].
    assert (2 * (K * G) <= 2 ^ 53 * (Tn * R)).
    { change (2 ^ 53) with (2 * 2 ^ 52). lia. }
    lia.
Qed.

Lemma nearest_reads_back (m : positive) (e num den decpt : Z) :
  valid_binary prec emax (S754_finite false m e) = true ->
  ratio m e = (num, den) ->
  -330 <= decpt <= 310 ->
  decade_below num den decpt ->
  round_decimal false
    (snd (candidates (S754_finite false m e) num den decpt 17)) (decpt - 17)
  = S754_finite false m e.
Proof.
  intros Hvalid Hratio Hrange Hlow.
  destruct (valid_finite _ _ _ Hvalid) as (HT & Hm & Hnorm).
  destruct (ratio_over m e num den ltac:(lia) Hratio)
    as (Hnum & Hden & c1 & Hc1 & Hc1n & Hc1d).
  destruct (scale10 num den (17 - decpt)) as [a b] eqn:Eab.
  destruct (scale10_over num den (17 - decpt) 350 a b Hnum Hden
              ltac:(lia) ltac:(lia) Eab)
    as (Ha & Hb & c2 & Hc2 & Hc2a & Hc2b).
  rewrite (candidates_nearest _ num den decpt 17 a b Eab).
  pose proof (nearest_half a b Hb) as Hnear.
  remember (match 2 * (a mod b) ?= b with
            | Lt => a / b | Gt => a / b + 1
            | Eq => if Z.even (a / b) then a / b else a / b + 1 end) as d eqn:Ed.
  clear Ed.
  unfold decade_below in Hlow.
  destruct (scale10 num den (1 - decpt)) as [a' b'] eqn:Eab'.
  destruct (scale10_over num den (1 - decpt) 350 a' b' Hnum Hden
              ltac:(lia) ltac:(lia) Eab')
    as (Ha' & Hb' & c3 & Hc3 & Hc3a & Hc3b).
  cbn [fst snd] in Hlow.
  assert (Hpow : 10 ^ (333 + decpt) * 10 ^ (351 - decpt) * 10 ^ 16
                 = 10 ^ 350 * 10 ^ 350).
  { rewrite <- !Z.pow_add_r by lia. f_equal. lia. }
  replace (17 - decpt + 350) with (351 - decpt + 16) in Hc2a by lia.
  rewrite Z.pow_add_r in Hc2a by lia.
  replace (1 - decpt + 350) with (351 - decpt) in Hc3a by lia.
  assert (Hgoal : forall d', d' = d ->
            round_decimal false d' (decpt - 17)
            = round_fraction false (d' * 10 ^ (333 + decpt)) (10 ^ 350) ->
            round_fraction false (d * 10 ^ (333 + decpt)) (10 ^ 350)
            = S754_finite false (Z.to_pos (Z.pos m)) (e + 1074 - 1074) ->
            round_decimal false d (decpt - 17) = S754_finite false m e).
  { intros d' -> -> ->. f_equal. lia. }
  assert (HTn : 0 < 2 ^ (e + 1074)) by (apply pow2_pos; lia).
  assert (HK : 0 < 2 ^ 1074) by (apply pow2_pos; lia).
  assert (HG : 0 < 10 ^ 350) by (apply pow10_pos; lia).
  assert (HA : 0 < 10 ^ (333 + decpt)) by (apply pow10_pos; lia).
  assert (HR : 0 < 10 ^ (351 - decpt)) by (apply pow10_pos; lia).
  assert (HC : 2 ^ 53 < 10 ^ 16) by (vm_compute; reflexivity).
  assert (Hstar : 2 * Z.abs (d * 10 ^ (333 + decpt) * 2 ^ 1074
                             - Z.pos m * 2 ^ (e + 1074) * 10 ^ 350)
                  < 2 ^ (e + 1074) * 10 ^ 350
                  /\ (Z.pos m = 2 ^ 52 ->
                      4 * Z.abs (d * 10 ^ (333 + decpt) * 2 ^ 1074
                                 - Z.pos m * 2 ^ (e + 1074) * 10 ^ 350)
                      < 2 ^ (e + 1074) * 10 ^ 350)).
  { assert (Hmp : 0 < Z.pos m) by lia.
    revert Hmp Hm HTn HK HG HA HR HC Hpow Hc1n Hc1d Hc2a Hc2b Hc3a Hc3b.
    generalize (2 ^ (e + 1074)) (2 ^ 1074) (10 ^ 350) (10 ^ (333 + decpt))
      (10 ^ (351 - decpt)) (10 ^ 16) (Z.pos m).
    intros Tn K G A R C mz Hmp Hm HTn HK HG HA HR HC Hpow Hc1n Hc1d Hc2a Hc2b
      Hc3a Hc3b.
    apply (seventeen_digits mz Tn K G A R C d); try assumption.
    - lia.
    - assert (den * G <= num * R) by nia.
      replace (K * G) with (c1 * (den * G)) by (rewrite <- Hc1d; ring).
      replace (mz * Tn * R) with (c1 * (num * R)) by (rewrite <- Hc1n; ring).
      apply Z.mul_le_mono_nonneg_l; lia.
    - assert (E : d * K * G - mz * Tn * (R * C) = c1 * c2 * (d * b - a)).
      { replace (c1 * c2 * (d * b - a))
          with (d * (c1 * (c2 * b)) - c1 * (c2 * a)) by ring.
        rewrite Hc2a, Hc2b. rewrite <- Hc1n, <- Hc1d. ring. }
      assert (E' : K * G = c1 * c2 * b).
      { replace (c1 * c2 * b) with (c1 * (c2 * b)) by ring.
        rewrite Hc2b, <- Hc1d. ring. }
      rewrite E, E', Z.abs_mul.
      assert (Hcc : 0 < c1 * c2) by nia.
      rewrite (Z.abs_eq (c1 * c2)) by lia.
      replace (2 * (c1 * c2 * Z.abs (d * b - a)))
        with (c1 * c2 * (2 * Z.abs (d * b - a))) by ring.
      apply Z.mul_le_mono_nonneg_l; lia. }
  assert (Hd : 0 < d).
  { destruct (Z_lt_le_dec 0 d) as [?|Hd0]; [assumption | exfalso].
    destruct Hstar as [Hstar _]. revert Hstar HTn HK HG HA.
    generalize (2 ^ (e + 1074)) (2 ^ 1074) (10 ^ 350) (10 ^ (333 + decpt)).
    intros Tn K G A Hstar HTn HK HG HA.
    assert (0 < Z.pos m * (Tn * G)) by nia.
    assert (d * (A * K) <= 0) by nia. nia. }
  apply (Hgoal d eq_refl).
  - rewrite (round_decimal_over false d (decpt - 17) 350) by lia.
    do 2 f_equal. f_equal. lia.
  - apply round_fraction_near;
      [lia | lia | lia | apply Z.mul_pos_pos; lia | lia
      | apply Hstar | apply Hstar].
Qed.

(** ** The characters of [repr(x)] *)

Lemma isdigit_float_char (s : string) :
  forallb isdigit s = true -> forallb float_char s = true.
Proof.
  apply forallb_weaken. intros c Hc. unfold float_char. now rewrite Hc.
Qed.

Lemma append_nonempty (a b : string) :
  b <> EmptyString -> a ++ b <> EmptyString.
Proof. destruct a; simpl; [auto | discriminate]. Qed.

Lemma forallb_substring (P : ascii -> bool) (s : string) (n m : nat) :
  forallb P s = true -> forallb P (substring n m s) = true.
Proof.
  revert n m. induction s as [|c s IH]; intros n m H.
  - destruct n, m; reflexivity.
  - simpl in H. apply andb_true_iff in H. destruct H as [Hc Hs].
    destruct n as [|n]; simpl.
    + destruct m as [|m]; [reflexivity|]. simpl. rewrite Hc. now apply IH.
    + now apply IH.
Qed.

Lemma rstrip_zeros_isdigit (s : string) :
  forallb isdigit s = true -> forallb isdigit (rstrip_zeros s) = true.
Proof.
  induction s as [|c s IH]; [reflexivity|]. simpl.
  rewrite andb_true_iff. intros [Hc Hs]. specialize (IH Hs).
  destruct (rstrip_zeros s).
  - destruct (Ascii.eqb c "0"); simpl; [reflexivity | now rewrite Hc].
  - simpl in *. now rewrite Hc, IH.
Qed.

Lemma zeros_isdigit (n : nat) : forallb isdigit (zeros n) = true.
Proof. induction n; simpl; auto. Qed.

Lemma exponent_digits_isdigit (ex : Z) :
  forallb isdigit (exponent_digits ex) = true.
Proof.
  unfold exponent_digits. pose proof (str_of_nat_isdigit (Z.abs ex)) as H.
  destruct (str_of_nat (Z.abs ex)) as [|c [|c' t]]; auto.
Qed.

Lemma float_digits_isdigit (m : positive) (e : Z) :
  forallb isdigit (fst (float_digits m e)) = true.
Proof.
  unfold float_digits. destruct (ratio m e) as [num den].
  destruct (shortest _ _ _ _ _ _) as [d n]. simpl.
  apply rstrip_zeros_isdigit, str_of_nat_isdigit.
Qed.

Lemma format_r_chars (ds : string) (decpt : Z) :
  forallb isdigit ds = true ->
  forallb float_char (format_r ds decpt) = true
  /\ format_r ds decpt <> EmptyString.
Proof.
  intros Hd. pose proof (isdigit_float_char ds Hd) as Hf.
  unfold format_r.
  destruct ((decpt <=? -4) || (16 <? decpt)); [|destruct (decpt <=? 0);
    [|destruct (decpt <? Z.of_nat (String.length ds))]].
  - split; [|apply append_nonempty; discriminate].
    rewrite forallb_app. apply andb_true_iff. split.
    + destruct ds as [|d [|d' rest]]; exact Hf.
    + cbn [forallb].
      rewrite (isdigit_float_char _ (exponent_digits_isdigit (decpt - 1))).
      destruct (decpt - 1 <? 0); reflexivity.
  - split; [|discriminate].
    cbn [forallb]. rewrite forallb_app, Hf.
    now rewrite (isdigit_float_char _ (zeros_isdigit _)).
  - split; [|apply append_nonempty; discriminate].
    rewrite forallb_app. cbn [forallb].
    now rewrite !forallb_substring by exact Hf.
  - split; [|apply append_nonempty, append_nonempty; discriminate].
    rewrite !forallb_app, Hf.
    now rewrite (isdigit_float_char _ (zeros_isdigit _)).
Qed.

Lemma float_repr_chars (x : float) :
  forallb float_char (float_repr x) = true /\ float_repr x <> EmptyString.
Proof.
  destruct x as [s|s| |s m e]; try (destruct s; (split; [reflexivity | discriminate])).
  - split; [reflexivity | discriminate].
  - unfold float_repr. pose proof (float_digits_isdigit m e) as Hd.
    destruct (float_digits m e) as [ds decpt]. simpl in Hd.
    destruct (format_r_chars ds decpt Hd) as [Hc Hne].
    destruct s; [split; [|discriminate]|split; assumption].
    cbn [forallb]. now rewrite Hc.
Qed.

(** A character of a number is neither a blank of [strip], nor the
    separator, nor a line break. *)
Lemma float_char_plain (c : ascii) :
  float_char c = true ->
  isspace c = false /\ Ascii.eqb c FIELD_SEP = false /\ line_break c = false.
Proof.
  unfold float_char, isdigit, isspace, line_break, Ascii.eqb.
  destruct c as [[] [] [] [] [] [] [] []]; vm_compute; auto; discriminate.
Qed.

Lemma int_char_plain (c : ascii) :
  int_char c = true ->
  isspace c = false /\ Ascii.eqb c FIELD_SEP = false /\ line_break c = false.
Proof.
  unfold int_char, isdigit, isspace, line_break, Ascii.eqb.
  destruct c as [[] [] [] [] [] [] [] []]; vm_compute; auto; discriminate.
Qed.

(** ** The digits of [repr(x)] read back *)

Lemma float_same_eq (x y : float) : float_same x y = true -> x = y.
Proof.
  destruct x as [a|a| |a m e], y as [b|b| |b m' e']; simpl; try discriminate;
    try reflexivity.
  - intros H. apply eqb_prop in H. now subst.
  - intros H. apply eqb_prop in H. now subst.
  - rewrite !andb_true_iff. intros [[Ha Hm] He].
    apply eqb_prop in Ha. apply Pos.eqb_eq in Hm. apply Z.eqb_eq in He.
    now subst.
Qed.

Lemma candidates_checked (x : float) (num den decpt n d : Z) :
  fst (candidates x num den decpt n) = Some d ->
  round_decimal false d (decpt - n) = x.
Proof.
  unfold candidates. replace (- (n - decpt)) with (decpt - n) by lia.
  destruct (scale10 num den (n - decpt)) as [a b]. cbn [fst].
  set (lo := a / b).
  destruct (float_same (round_decimal false lo (decpt - n)) x) eqn:Hlo;
    destruct (float_same (round_decimal false (lo + 1) (decpt - n)) x) eqn:Hhi;
    cbn [andb]; try discriminate; intros [= <-];
    try (now apply float_same_eq).
  match goal with
  | |- context [?c ?= b] => destruct (c ?= b); [destruct (Z.even lo)| |]
  end; now apply float_same_eq.
Qed.

Lemma shortest_cases (fuel : nat) (x : float) (num den decpt n d n' : Z) :
  shortest fuel x num den decpt n = (d, n') ->
  round_decimal false d (decpt - n') = x
  \/ (n' = n + Z.of_nat fuel /\ d = snd (candidates x num den decpt n')).
Proof.
  revert n. induction fuel as [|f IH]; intros n.
  - cbn [shortest]. intros [= <- <-]. right. split; [lia | reflexivity].
  - cbn [shortest].
    destruct (fst (candidates x num den decpt n)) as [c|] eqn:Hc.
    + intros [= <- <-]. left. exact (candidates_checked x num den decpt n c Hc).
    + intros H. destruct (IH _ H) as [?|[-> ->]]; [now left | right].
      split; [lia | reflexivity].
Qed.

Lemma decade_below_start (m : positive) (e num den : Z) :
  0 <= e + 1074 -> ratio m e = (num, den) -> decade_below num den (-330).
Proof.
  intros He Hr.
  destruct (ratio_over m e num den He Hr) as (Hn & Hd & c1 & Hc1 & Hcn & Hcd).
  unfold decade_below.
  destruct (scale10 num den (1 - -330)) as [a b] eqn:E.
  destruct (scale10_over num den (1 - -330) 0 a b Hn Hd ltac:(lia) ltac:(lia) E)
    as (Ha & Hb & c2 & Hc2 & Hc2a & Hc2b).
  cbn [fst snd]. change (1 - -330 + 0) with 331 in Hc2a.
  change (10 ^ 0) with 1 in Hc2b.
  assert (H1 : 2 ^ 1074 <= 10 ^ 331) by (vm_compute; discriminate).
  assert (H2 : 1 <= Z.pos m * 2 ^ (e + 1074)).
  { pose proof (pow2_pos (e + 1074) He). nia. }
  revert H1 H2 Hcn Hcd Hc2a. generalize (2 ^ 1074) (10 ^ 331) (2 ^ (e + 1074)).
  intros K G Tn H1 H2 Hcn Hcd Hc2a.
  assert (Hcc : 0 < c1 * c2) by nia.
  apply Z.mul_le_mono_pos_l with (c1 * c2); [exact Hcc|].
  replace (c1 * c2 * b) with (c1 * (c2 * b)) by ring.
  replace (c1 * c2 * a) with (c1 * (c2 * a)) by ring.
  rewrite Hc2a, Hc2b.
  replace (c1 * (den * 1)) with (c1 * den) by ring.
  replace (c1 * (num * G)) with (c1 * num * G) by ring.
  rewrite Hcn, Hcd.
  assert (0 <= G) by lia. nia.
Qed.

Lemma zeros_spec (z : nat) (a : Z) :
  Z_of_digits a (zeros z) = a * 10 ^ Z.of_nat z
  /\ String.length (zeros z) = z.
Proof.
  revert a. induction z as [|z IH]; intros a.
  - split; [simpl; lia | reflexivity].
  - destruct (IH (10 * a + digit_val "0")) as [Hv Hl].
    cbn [zeros Z_of_digits String.length]. rewrite Hv, Hl. split; [|reflexivity].
    change (digit_val "0") with 0.
    replace (Z.of_nat (S z)) with (Z.succ (Z.of_nat z)) by lia.
    rewrite Z.pow_succ_r by lia. ring.
Qed.

Lemma rstrip_zeros_spec (s : string) :
  exists z, s = rstrip_zeros s ++ zeros z.
Proof.
  induction s as [|c s [z IH]]; [now exists O|].
  cbn [rstrip_zeros]. destruct (rstrip_zeros s) as [|c' t'] eqn:E.
  - destruct (Ascii.eqb_spec c "0") as [->|Hne].
    + exists (S z). simpl in *. now rewrite IH at 1.
    + exists z. simpl in *. now rewrite IH at 1.
  - exists z. simpl in *. now rewrite IH at 1.
Qed.

Lemma Z_of_digits_nonneg (s : string) (a : Z) :
  0 <= a -> forallb isdigit s = true -> 0 <= Z_of_digits a s.
Proof.
  revert a. induction s as [|c s IH]; intros a Ha Hs; [exact Ha|].
  simpl in Hs. apply andb_true_iff in Hs. destruct Hs as [Hc Hs].
  cbn [Z_of_digits]. apply IH; [|exact Hs].
  unfold isdigit, digit_val in *. lia.
Qed.

Lemma length_append (a b : string) :
  String.length (a ++ b) = (String.length a + String.length b)%nat.
Proof. induction a; simpl; congruence. Qed.

(** The digits and the decimal point of a float are those of a decimal
    that rounds to the float. *)
Lemma float_digits_reads_back (m : positive) (e : Z) (ds : string) (dp : Z) :
  valid_binary prec emax (S754_finite false m e) = true ->
  float_digits m e = (ds, dp) ->
  forallb isdigit ds = true
  /\ 0 < Z_of_digits 0 ds
  /\ round_decimal false (Z_of_digits 0 ds) (dp - Z.of_nat (String.length ds))
     = S754_finite false m e.
Proof.
  intros Hvalid. unfold float_digits.
  destruct (valid_finite _ _ _ Hvalid) as (HT & _ & _).
  destruct (ratio m e) as [num den] eqn:Hratio.
  destruct (find_decpt_lower 640 (-330) num den
              (decade_below_start m e num den ltac:(lia) Hratio))
    as [Hrange Hlow].
  set (decpt := find_decpt 640 (-330) num den) in *.
  destruct (shortest 16 (S754_finite false m e) num den decpt 1) as [d n] eqn:Hs.
  intros [= <- <-].
  assert (Hback : round_decimal false d (decpt - n) = S754_finite false m e).
  { destruct (shortest_cases _ _ _ _ _ _ _ _ Hs) as [H|[-> ->]]; [exact H|].
    apply nearest_reads_back; try assumption; lia. }
  pose proof (round_decimal_finite_pos _ _ _ _ Hback) as Hd.
  pose proof (str_of_nat_value d ltac:(lia)) as Hval.
  pose proof (str_of_nat_isdigit d) as Hdig.
  destruct (rstrip_zeros_spec (str_of_nat d)) as [z Hz].
  set (ds := rstrip_zeros (str_of_nat d)) in *.
  rewrite Hz in Hval, Hdig. rewrite Hz.
  rewrite Z_of_digits_app in Hval. destruct (zeros_spec z (Z_of_digits 0 ds)) as [Hzv Hzl].
  rewrite Hzv in Hval. rewrite forallb_app in Hdig.
  apply andb_true_iff in Hdig. destruct Hdig as [Hdig _].
  assert (HM : 0 < Z_of_digits 0 ds).
  { pose proof (pow10_pos (Z.of_nat z) ltac:(lia)).
    pose proof (Z_of_digits_nonneg ds 0 ltac:(lia) Hdig).
    nia. }
  split; [exact Hdig|]. split; [exact HM|].
  rewrite <- Hback, <- Hval, round_decimal_shift by lia.
  f_equal. rewrite length_append, Hzl. lia.
Qed.

(** ** Reading [repr(x)] *)

Lemma span_digits_app (a t : string) :
  forallb isdigit a = true -> starts_with isdigit t = false ->
  span_digits (a ++ t) = (a, t).
Proof.
  intros Ha Ht. induction a as [|c a IH].
  - cbn [append]. destruct t as [|c t]; [reflexivity|].
    cbn [starts_with] in Ht. cbn [span_digits]. now rewrite Ht.
  - cbn [forallb] in Ha. apply andb_true_iff in Ha. destruct Ha as [Hc Ha].
    cbn [append span_digits]. now rewrite Hc, (IH Ha).
Qed.

Lemma span_digits_all (a : string) :
  forallb isdigit a = true -> span_digits a = (a, EmptyString).
Proof.
  intros Ha. rewrite <- (append_nil_r a) at 1. now apply span_digits_app.
Qed.

Lemma drop_underscores_none (s : string) (prev : option ascii) :
  lacks "_" s = true ->
  match prev with Some p => Ascii.eqb p "_" = false | None => True end ->
  drop_underscores prev s = Some s.
Proof.
  revert prev. induction s as [|c s IH]; intros prev Hs Hp.
  - simpl. destruct prev as [p|]; [now rewrite Hp | reflexivity].
  - apply (lacks_eqb "_" s) in Hs. destruct Hs as [Hc Hs].
    cbn [drop_underscores]. rewrite Hc.
    destruct prev as [p|]; [rewrite Hp; cbn [andb]|];
      now rewrite (IH (Some c) Hs Hc).
Qed.

Lemma float_char_number (c : ascii) :
  float_char c = true ->
  isspace_num c = false /\ Ascii.eqb c "_" = false.
Proof.
  unfold float_char, isdigit, isspace_num, Ascii.eqb.
  destruct c as [[] [] [] [] [] [] [] []]; vm_compute; auto; discriminate.
Qed.

Lemma float_of_str_plain (s : string) :
  forallb float_char s = true -> float_of_str s = parse_signed s.
Proof.
  intros H. unfold float_of_str.
  rewrite strip_by_fixed.
  - rewrite drop_underscores_none; [reflexivity | | exact I].
    revert H. apply forallb_weaken. intros c Hc.
    destruct (float_char_number c Hc) as [_ ->]. reflexivity.
  - revert H. apply forallb_weaken. intros c Hc.
    destruct (float_char_number c Hc) as [-> _]. reflexivity.
Qed.

Lemma isdigit_not_sign (c : ascii) :
  isdigit c = true ->
  Ascii.eqb c "-" = false /\ Ascii.eqb c "+" = false /\ Ascii.eqb c "." = false
  /\ is_e c = false.
Proof.
  unfold isdigit, is_e, Ascii.eqb.
  destruct c as [[] [] [] [] [] [] [] []]; vm_compute; auto; discriminate.
Qed.

Lemma parse_signed_digits (neg : bool) (body : string) (x : float) :
  starts_with isdigit body = true ->
  parse_decimal neg body = Some x ->
  parse_signed (if neg then String "-" body else body) = Some x.
Proof.
  intros Hd Hp. destruct neg.
  - unfold parse_signed. cbn [Ascii.eqb Bool.eqb]. now rewrite Hp.
  - unfold parse_signed. destruct body as [|c t]; [discriminate|].
    simpl in Hd. destruct (isdigit_not_sign c Hd) as (-> & -> & _).
    now rewrite Hp.
Qed.

(** *** The three shapes of a decimal literal *)

Lemma nonempty_app_digits (ip fp : string) :
  ip ++ fp <> EmptyString ->
  exists c t, ip ++ fp = String c t.
Proof. destruct (ip ++ fp) as [|c t]; [congruence | eauto]. Qed.

Lemma parse_decimal_point (neg : bool) (ip fp : string) :
  forallb isdigit ip = true -> forallb isdigit fp = true ->
  ip ++ fp <> EmptyString ->
  parse_decimal neg (ip ++ String "." fp)
  = Some (round_decimal neg (Z_of_digits 0 (ip ++ fp))
            (- Z.of_nat (String.length fp))).
Proof.
  intros Hip Hfp Hne. unfold parse_decimal.
  rewrite (span_digits_app ip (String "." fp) Hip eq_refl).
  cbn [Ascii.eqb Bool.eqb]. rewrite (span_digits_all fp Hfp).
  destruct (nonempty_app_digits ip fp Hne) as (c & t & ->). reflexivity.
Qed.

Lemma parse_exponent (neg : bool) (M shift ex : Z) (ed : string) :
  forallb isdigit ed = true -> ed <> EmptyString ->
  Z_of_digits 0 ed = Z.abs ex ->
  (let (eneg, t') :=
     match String (if ex <? 0 then "-"%char else "+"%char) ed with
     | String c' u =>
         if Ascii.eqb c' "-" then (true, u)
         else if Ascii.eqb c' "+" then (false, u)
         else (false, String (if ex <? 0 then "-"%char else "+"%char) ed)
     | EmptyString => (false, String (if ex <? 0 then "-"%char else "+"%char) ed)
     end in
   match span_digits t' with
   | (String d ds, EmptyString) =>
       let v := Z_of_digits 0 (String d ds) in
       Some (round_decimal neg M ((if eneg then - v else v) - shift))
   | _ => None
   end)
  = Some (round_decimal neg M (ex - shift)).
Proof.
  intros Hed Hne Hv. destruct (Z.ltb_spec ex 0) as [Hneg|Hpos];
    cbn [Ascii.eqb Bool.eqb]; rewrite (span_digits_all ed Hed);
    destruct ed as [|d ds]; try congruence; cbv zeta; rewrite Hv;
    do 2 f_equal; lia.
Qed.

Lemma parse_decimal_exp (neg : bool) (ip fp ed : string) (ex : Z) :
  forallb isdigit ip = true -> forallb isdigit fp = true ->
  ip ++ fp <> EmptyString ->
  forallb isdigit ed = true -> ed <> EmptyString ->
  Z_of_digits 0 ed = Z.abs ex ->
  parse_decimal neg
    (ip ++ (if String.eqb fp EmptyString then EmptyString else String "." fp)
        ++ String "e" (String (if ex <? 0 then "-"%char else "+"%char) ed))
  = Some (round_decimal neg (Z_of_digits 0 (ip ++ fp))
            (ex - Z.of_nat (String.length fp))).
Proof.
  intros Hip Hfp Hne Hed Hedne Hv. unfold parse_decimal.
  destruct fp as [|c fp'].
  - cbn [String.eqb append].
    rewrite (span_digits_app ip (String "e" _) Hip eq_refl).
    cbn [Ascii.eqb Bool.eqb]. cbn [is_e Ascii.eqb Bool.eqb orb].
    rewrite append_nil_r in *.
    destruct ip as [|c t]; [congruence|].
    apply (parse_exponent neg _ _ ex ed Hed Hedne Hv).
  - cbn [String.eqb]. cbn [append].
    rewrite (span_digits_app ip (String "." _) Hip eq_refl).
    cbn [Ascii.eqb Bool.eqb].
    pose proof (span_digits_app (String c fp')
                  (String "e" (String (if ex <? 0 then "-"%char else "+"%char) ed))
                  Hfp eq_refl) as Hspan.
    cbn [append] in Hspan. rewrite Hspan.
    destruct (nonempty_app_digits ip (String c fp') Hne) as (c0 & t0 & ->).
    cbn [is_e Ascii.eqb Bool.eqb orb].
    apply (parse_exponent neg _ _ ex ed Hed Hedne Hv).
Qed.

Lemma exponent_digits_value (ex : Z) :
  forallb isdigit (exponent_digits ex) = true
  /\ exponent_digits ex <> EmptyString
  /\ Z_of_digits 0 (exponent_digits ex) = Z.abs ex.
Proof.
  split; [apply exponent_digits_isdigit|].
  unfold exponent_digits.
  pose proof (str_of_nat_value (Z.abs ex) (Z.abs_nonneg ex)) as Hv.
  pose proof (str_of_nat_nonempty (Z.abs ex)) as Hne.
  destruct (str_of_nat (Z.abs ex)) as [|c [|c' t]]; [congruence| |].
  - split; [discriminate|]. exact Hv.
  - split; [discriminate | exact Hv].
Qed.

Lemma substring_all (s : string) : substring 0 (String.length s) s = s.
Proof. induction s as [|c s IH]; simpl; congruence. Qed.

Lemma substring_split (s : string) (k : nat) :
  (k <= String.length s)%nat ->
  substring 0 k s ++ substring k (String.length s - k) s = s
  /\ String.length (substring k (String.length s - k) s)
     = (String.length s - k)%nat.
Proof.
  revert k. induction s as [|c s IH]; intros k Hk.
  - destruct k; [split; reflexivity | simpl in Hk; lia].
  - destruct k as [|k].
    + cbn [substring String.length Nat.sub append].
      rewrite substring_all. split; reflexivity.
    + simpl in Hk. destruct (IH k ltac:(lia)) as [H1 H2].
      cbn [substring String.length Nat.sub append]. rewrite H1. split; [reflexivity | exact H2].
Qed.

Lemma Z_of_digits_pos_nonempty (s : string) :
  0 < Z_of_digits 0 s -> s <> EmptyString.
Proof. destruct s; [simpl; lia | discriminate]. Qed.

(** A formatted float reads as the decimal it was formatted from. *)
Lemma parse_format_r (neg : bool) (ds : string) (dp : Z) :
  forallb isdigit ds = true -> 0 < Z_of_digits 0 ds ->
  starts_with isdigit (format_r ds dp) = true
  /\ parse_decimal neg (format_r ds dp)
     = Some (round_decimal neg (Z_of_digits 0 ds)
               (dp - Z.of_nat (String.length ds))).
Proof.
  intros Hds HM. pose proof (Z_of_digits_pos_nonempty ds HM) as Hne.
  unfold format_r.
  destruct ((dp <=? -4) || (16 <? dp)); [|destruct (Z.leb_spec dp 0) as [H0|H0];
    [|destruct (Z.ltb_spec dp (Z.of_nat (String.length ds))) as [Hn|Hn]]].
  - destruct (exponent_digits_value (dp - 1)) as (He1 & He2 & He3).
    destruct ds as [|c rest]; [congruence|].
    assert (Hc : isdigit c = true /\ forallb isdigit rest = true).
    { cbn [forallb] in Hds. now apply andb_true_iff in Hds. }
    destruct Hc as [Hc Hrest].
    pose proof (parse_decimal_exp neg (String c EmptyString) rest
                  (exponent_digits (dp - 1)) (dp - 1)
                  ltac:(cbn [forallb]; now rewrite Hc) Hrest
                  ltac:(discriminate) He1 He2 He3) as Hparse.
    replace (dp - Z.of_nat (String.length (String c rest)))
      with (dp - 1 - Z.of_nat (String.length rest))
      by (cbn [String.length]; lia).
    destruct rest as [|c' r']; (split; [exact Hc | exact Hparse]).
  - split; [reflexivity|].
    pose proof (zeros_isdigit (Z.to_nat (- dp))) as Hz.
    change (String "0" (String "." (zeros (Z.to_nat (- dp)) ++ ds)))
      with ("0" ++ String "." (zeros (Z.to_nat (- dp)) ++ ds)).
    rewrite (parse_decimal_point neg "0" (zeros (Z.to_nat (- dp)) ++ ds));
      [| reflexivity | now rewrite forallb_app, Hz, Hds | discriminate].
    destruct (zeros_spec (S (Z.to_nat (- dp))) 0) as [Hzv _].
    change ("0" ++ zeros (Z.to_nat (- dp)) ++ ds)
      with (zeros (S (Z.to_nat (- dp))) ++ ds).
    rewrite Z_of_digits_app, Hzv, Z.mul_0_l.
    do 2 f_equal. rewrite length_append.
    destruct (zeros_spec (Z.to_nat (- dp)) 0) as [_ ->]. lia.
  - destruct (substring_split ds (Z.to_nat dp) ltac:(lia)) as [Hsplit Hlen].
    split.
    + destruct ds as [|c rest]; [congruence|].
      destruct (Z.to_nat dp) eqn:E; [lia|]. cbn [substring starts_with].
      cbn [forallb] in Hds. now apply andb_true_iff in Hds.
    + rewrite parse_decimal_point.
      * rewrite Hsplit, Hlen. do 2 f_equal. lia.
      * now apply forallb_substring.
      * now apply forallb_substring.
      * now rewrite Hsplit.
  - split.
    + destruct ds as [|c rest]; [congruence|]. cbn [append starts_with].
      cbn [forallb] in Hds. now apply andb_true_iff in Hds.
    + set (k := (Z.to_nat dp - String.length ds)%nat).
      replace (ds ++ zeros k ++ ".0") with ((ds ++ zeros k) ++ String "." "0")
        by (now rewrite append_assoc).
      pose proof (zeros_isdigit k) as Hz.
      rewrite parse_decimal_point;
        [| now rewrite forallb_app, Hds, Hz | reflexivity
         | rewrite append_assoc; now apply append_nonempty, append_nonempty].
      rewrite !Z_of_digits_app.
      destruct (zeros_spec k (Z_of_digits 0 ds)) as [-> _].
      cbn [Z_of_digits String.length]. change (digit_val "0") with 0.
      replace (10 * (Z_of_digits 0 ds * 10 ^ Z.of_nat k) + 0)
        with (Z_of_digits 0 ds * 10 ^ (Z.of_nat k + 1))
        by (rewrite Z.pow_add_r by lia; ring).
      rewrite round_decimal_shift by lia. do 2 f_equal. lia.
Qed.

(** Every binary64 float is given back by [float(repr(x))]. *)
Lemma float_of_str_repr (x : float) :
  valid_binary prec emax x = true -> float_of_str (float_repr x) = Some x.
Proof.
  intros Hvalid.
  rewrite float_of_str_plain by apply float_repr_chars.
  destruct x as [s|s| |s m e].
  - destruct s; vm_compute; reflexivity.
  - destruct s; vm_compute; reflexivity.
  - vm_compute. reflexivity.
  - unfold float_repr. destruct (float_digits m e) as [ds dp] eqn:Hfd.
    destruct (float_digits_reads_back m e ds dp Hvalid Hfd) as (Hds & HM & Hback).
    destruct (parse_format_r s ds dp Hds HM) as [Hstart Hparse].
    apply parse_signed_digits; [exact Hstart|].
    rewrite Hparse. f_equal. now apply round_decimal_sign.
Qed.

(** ** What [float(s)] returns is a float *)

Lemma size_le_53 (p : positive) : Z.pos p < 2 ^ 53 -> Z.pos (Pos.size p) <= 53.
Proof.
  intros H. pose proof (Pos.size_le p) as Hle.
  assert (H2 : 2 ^ Z.pos (Pos.size p) <= Z.pos p~0).
  { rewrite <- Pos2Z.inj_pow. now apply Pos2Z.pos_le_pos. }
  destruct (Z_le_gt_dec (Z.pos (Pos.size p)) 53) as [?|Hgt]; [assumption|].
  assert (2 ^ 54 <= 2 ^ Z.pos (Pos.size p)) by (apply Z.pow_le_mono_r; lia).
  change (2 ^ 54) with (2 * 2 ^ 53) in *. lia.
Qed.

Lemma size_ge_53 (p : positive) : 2 ^ 52 <= Z.pos p -> 53 <= Z.pos (Pos.size p).
Proof.
  intros H. pose proof (Pos.size_gt p) as Hgt.
  assert (H2 : Z.pos p < 2 ^ Z.pos (Pos.size p)).
  { rewrite <- Pos2Z.inj_pow. now apply Pos2Z.pos_lt_pos. }
  destruct (Z_le_gt_dec 53 (Z.pos (Pos.size p))) as [?|Hlt]; [assumption|].
  assert (2 ^ Z.pos (Pos.size p) <= 2 ^ 52) by (apply Z.pow_le_mono_r; lia).
  lia.
Qed.

Lemma finite_valid (neg : bool) (q t : Z) :
  0 < q < 2 ^ 53 -> 0 <= t <= 2045 -> t = 0 \/ 2 ^ 52 <= q ->
  valid_binary prec emax (S754_finite neg (Z.to_pos q) (t - 1074)) = true.
Proof.
  intros Hq Ht Hnorm.
  unfold valid_binary, bounded, canonical_mantissa, fexp, emin, prec, emax.
  rewrite digits2_size, andb_true_iff, Z.eqb_eq, Z.leb_le.
  destruct q as [|p|p]; try lia. cbn [Z.to_pos].
  pose proof (size_le_53 p ltac:(lia)) as Hle.
  split; [|lia]. destruct Hnorm as [->|H52]; [lia|].
  pose proof (size_ge_53 p H52). lia.
Qed.

Lemma round_fraction_valid (neg : bool) (num den : Z) :
  0 < num -> 0 < den ->
  valid_binary prec emax (round_fraction neg num den) = true.
Proof.
  intros Hnum Hden. unfold round_fraction.
  set (N := num * 2 ^ 1074).
  assert (HN : 0 < N) by (unfold N; apply Z.mul_pos_pos; [lia | now apply pow2_pos]).
  set (Y := N / den).
  assert (HY : 0 <= Y) by (apply Z.div_pos; lia).
  set (t := Z.max 0 (Z.log2 Y - 52)).
  assert (Ht : 0 <= t) by lia.
  pose proof (pow2_pos t Ht) as HP.
  set (D := den * 2 ^ t). set (q := N / D).
  assert (Hq : q = Y / 2 ^ t) by (unfold q, D, Y; now rewrite Z.div_div by lia).
  assert (Hqb : 0 <= q < 2 ^ 53 /\ (t = 0 \/ 2 ^ 52 <= q)).
  { destruct (Z.eq_dec Y 0) as [HY0|HY0].
    - rewrite Hq, HY0, Z.div_0_l by lia. split; [lia|]. left.
      unfold t. rewrite HY0. reflexivity.
    - pose proof (Z.log2_spec Y ltac:(lia)) as [Hlo Hhi].
      pose proof (Z.log2_nonneg Y) as HL.
      destruct (Z_le_gt_dec (Z.log2 Y) 52) as [Hsmall|Hbig].
      + assert (t = 0) as -> by lia. rewrite Hq, Z.pow_0_r, Z.div_1_r.
        split; [|now left]. split; [lia|].
        apply Z.lt_le_trans with (2 ^ Z.succ (Z.log2 Y)); [exact Hhi|].
        apply Z.pow_le_mono_r; lia.
      + assert (Ht' : t = Z.log2 Y - 52) by lia.
        assert (E1 : 2 ^ Z.log2 Y = 2 ^ 52 * 2 ^ t).
        { rewrite <- Z.pow_add_r by lia. f_equal. lia. }
        assert (E2 : 2 ^ Z.succ (Z.log2 Y) = 2 ^ 53 * 2 ^ t).
        { rewrite <- Z.pow_add_r by lia. f_equal. lia. }
        rewrite E1 in Hlo. rewrite E2 in Hhi. rewrite Hq.
        assert (2 ^ 52 <= Y / 2 ^ t < 2 ^ 53) by (apply div_between; lia).
        split; [lia | right; lia]. }
  set (q' := match 2 * (N mod D) ?= D with
             | Lt => q | Gt => q + 1
             | Eq => if Z.even q then q else q + 1 end).
  assert (Hq' : q' = q \/ q' = q + 1).
  { unfold q'. destruct (2 * (N mod D) ?= D); [destruct (Z.even q)| |]; auto. }
  destruct (Z.eqb_spec q' 0) as [_|Hnz]; [reflexivity|].
  destruct (Z.eqb_spec q' (2 ^ 53)) as [H53|Hn53].
  - destruct (Z.ltb_spec 2045 (t + 1)); [reflexivity|].
    apply finite_valid; [split; reflexivity | lia | right; lia].
  - destruct (Z.ltb_spec 2045 t); [reflexivity|].
    apply finite_valid; lia.
Qed.

Lemma round_decimal_valid (neg : bool) (M E : Z) :
  valid_binary prec emax (round_decimal neg M E) = true.
Proof.
  unfold round_decimal. destruct M as [|p|p]; try reflexivity.
  destruct (Z.leb_spec 0 E).
  - apply round_fraction_valid; [|lia].
    apply Z.mul_pos_pos; [lia | now apply pow10_pos].
  - apply round_fraction_valid; [lia | apply pow10_pos; lia].
Qed.

Lemma parse_decimal_valid (neg : bool) (s : string) (x : float) :
  parse_decimal neg s = Some x -> valid_binary prec emax x = true.
Proof.
  unfold parse_decimal.
  repeat match goal with
         | |- context [let (_, _) := ?p in _] => destruct p
         | |- context [match ?v with _ => _ end] => destruct v
         end;
    try discriminate; intros [= <-]; apply round_decimal_valid.
Qed.

Lemma float_of_str_valid (s : string) (x : float) :
  float_of_str s = Some x -> valid_binary prec emax x = true.
Proof.
  unfold float_of_str. destruct (drop_underscores _ _) as [t|]; [|discriminate].
  unfold parse_signed.
  destruct (match t with
            | EmptyString => (false, t)
            | String c t0 => _
            end) as [neg body].
  destruct (parse_decimal neg body) as [y|] eqn:Hp.
  - intros [= <-]. exact (parse_decimal_valid _ _ _ Hp).
  - unfold parse_inf_nan.
    destruct (_ || _); [now intros [= <-]|].
    destruct (String.eqb _ _); [now intros [= <-] | discriminate].
Qed.

(** Every record read from a line has a float for a price. *)
Lemma from_line_is_float (line : string) (p : Producto) :
  from_line line = Some p -> is_float (precio p) = true.
Proof.
  unfold from_line.
  destruct (split FIELD_SEP (strip line)) as [|a [|b [|c [|d [|x t]]]]];
    try discriminate.
  destruct (int_of_str c); [|discriminate].
  destruct (float_of_str d) as [y|] eqn:Hd; [|discriminate].
  intros [= <-]. exact (float_of_str_valid _ _ Hd).
Qed.

(** ** The line of a record *)

Lemma to_line_cuerpo (p : Producto) :
  to_line p = cuerpo p ++ String LF EmptyString.
Proof.
  unfold to_line, cuerpo.
  repeat (rewrite append_assoc; cbn [append]). reflexivity.
Qed.

Lemma str_of_int_plain (n : Z) :
  forallb (fun c => negb (isspace c)) (str_of_int n) = true
  /\ lacks FIELD_SEP (str_of_int n) = true
  /\ no_line_break (str_of_int n) = true.
Proof.
  pose proof (str_of_int_chars n) as H.
  repeat split; revert H; apply forallb_weaken; intros c Hc;
    destruct (int_char_plain c Hc) as (H1 & H2 & H3);
    now rewrite ?H1, ?H2, ?H3.
Qed.

Lemma float_repr_plain (x : float) :
  forallb (fun c => negb (isspace c)) (float_repr x) = true
  /\ lacks FIELD_SEP (float_repr x) = true
  /\ no_line_break (float_repr x) = true.
Proof.
  destruct (float_repr_chars x) as [H _].
  repeat split; revert H; apply forallb_weaken; intros c Hc;
    destruct (float_char_plain c Hc) as (H1 & H2 & H3);
    now rewrite ?H1, ?H2, ?H3.
Qed.

(** [strip] removes the newline of a line and nothing else, unless the id
    begins with a blank. *)
Lemma strip_to_line (p : Producto) :
  starts_with isspace (id p) = false -> strip (to_line p) = cuerpo p.
Proof.
  intros Hid. unfold strip, strip_by. rewrite lstrip_by_fixed.
  - rewrite to_line_cuerpo. apply rstrip_by_tail; [|reflexivity].
    unfold cuerpo.
    destruct (float_repr_chars (precio p)) as [_ Hne].
    destruct (float_repr_plain (precio p)) as [Hsp _].
    do 2 (rewrite ends_with_app by discriminate;
          rewrite ends_with_cons by (apply append_nonempty; discriminate)).
    rewrite ends_with_app by discriminate.
    rewrite ends_with_cons by exact Hne.
    now apply ends_with_forallb.
  - unfold to_line. destruct (id p); [reflexivity | exact Hid].
Qed.

Lemma split_cuerpo (p : Producto) :
  lacks FIELD_SEP (id p) = true -> lacks FIELD_SEP (nombre p) = true ->
  split FIELD_SEP (cuerpo p)
  = [id p; nombre p; str_of_int (cantidad p); float_repr (precio p)].
Proof.
  intros Hid Hnom. unfold cuerpo.
  destruct (str_of_int_plain (cantidad p)) as (_ & Hc & _).
  destruct (float_repr_plain (precio p)) as (_ & Hp & _).
  now rewrite !split_cons, split_single.
Qed.

Lemma float_eq_refl (x : float) : is_nan x = false -> float_eq x x = true.
Proof.
  unfold float_eq, SFeqb. destruct x as [s|s| |s m e]; try discriminate;
    intros _; try (destruct s; reflexivity).
  cbn [SFcompare]. rewrite Z.compare_refl, Pos.compare_cont_refl.
  destruct s; reflexivity.
Qed.

(** A line whose fields keep clear of the separator and whose id does not
    begin with a blank parses back to its record. *)
Lemma from_line_to_line_same (p : Producto) :
  lacks FIELD_SEP (id p) = true -> lacks FIELD_SEP (nombre p) = true ->
  starts_with isspace (id p) = false ->
  float_of_str (float_repr (precio p)) = Some (precio p) ->
  from_line (to_line p) = Some p.
Proof.
  intros Hid Hnom Hsp Hf. unfold from_line.
  rewrite (strip_to_line p Hsp), (split_cuerpo p Hid Hnom).
  rewrite int_of_str_of_int, Hf. now destruct p.
Qed.

Lemma Producto_eq_refl (p : Producto) :
  float_eq (precio p) (precio p) = true -> Producto_eq p p = true.
Proof.
  intros H. unfold Producto_eq.
  now rewrite !String.eqb_refl, Z.eqb_refl, H.
Qed.

(** ** The dict *)

Section DictFacts.

Local Open Scope list_scope.

Implicit Types (k : string) (v : Producto) (d : dict).

Lemma dict_get_set_same k v d : dict_get k (dict_set k v d) = Some v.
Proof.
  induction d as [|[k' v'] d IH]; simpl.
  - now rewrite String.eqb_refl.
  - destruct (String.eqb k' k) eqn:E; simpl.
    + now rewrite String.eqb_refl.
    + now rewrite E.
Qed.

Lemma dict_get_set_other k k' v d :
  k <> k' -> dict_get k' (dict_set k v d) = dict_get k' d.
Proof.
  intros Hne. apply String.eqb_neq in Hne.
  induction d as [|[k0 v0] d IH]; simpl.
  - now rewrite Hne.
  - destruct (String.eqb k0 k) eqn:E; simpl.
    + apply String.eqb_eq in E. subst k0. now rewrite Hne.
    + now rewrite IH.
Qed.

Lemma dict_get_del_same k d : dict_get k (dict_del k d) = None.
Proof.
  induction d as [|[k' v'] d IH]; simpl; [reflexivity|].
  destruct (String.eqb k' k) eqn:E; simpl; [exact IH | now rewrite E].
Qed.

Lemma dict_get_del_other k k' d :
  k <> k' -> dict_get k' (dict_del k d) = dict_get k' d.
Proof.
  intros Hne. induction d as [|[k0 v0] d IH]; simpl; [reflexivity|].
  destruct (String.eqb k0 k) eqn:E; simpl.
  - apply String.eqb_eq in E. subst k0.
    apply String.eqb_neq in Hne. now rewrite Hne.
  - now rewrite IH.
Qed.

Lemma dict_get_In k v d : dict_get k d = Some v -> In (k, v) d.
Proof.
  induction d as [|[k' v'] d IH]; simpl; [discriminate|].
  destruct (String.eqb k' k) eqn:E.
  - apply String.eqb_eq in E. intros [= ->]. left. now subst.
  - auto.
Qed.

Lemma dict_in_keys k d : dict_in k d = true <-> In k (dict_keys d).
Proof.
  unfold dict_in. induction d as [|[k' v'] d IH]; simpl.
  - split; [discriminate | tauto].
  - destruct (String.eqb_spec k' k) as [->|Hne].
    + split; auto.
    + rewrite IH. split; [auto | intros [?|?]; [contradiction | assumption]].
Qed.

(** Storing under a new key appends; under a known key the keys stay. *)
Lemma dict_set_fresh k v d :
  ~ In k (dict_keys d) -> dict_set k v d = d ++ [(k, v)].
Proof.
  induction d as [|[k' v'] d IH]; simpl; intros H; [reflexivity|].
  destruct (String.eqb_spec k' k) as [->|Hne]; [tauto|].
  rewrite IH; tauto.
Qed.

Lemma dict_keys_set k v d :
  dict_keys (dict_set k v d)
  = if dict_in k d then dict_keys d else (dict_keys d ++ [k])%list.
Proof.
  unfold dict_in. induction d as [|[k' v'] d IH]; simpl; [reflexivity|].
  destruct (String.eqb_spec k' k) as [->|Hne]; simpl; [reflexivity|].
  rewrite IH. now destruct (dict_get k d).
Qed.

Lemma dict_set_NoDup k v d :
  NoDup (dict_keys d) -> NoDup (dict_keys (dict_set k v d)).
Proof.
  intros H. rewrite dict_keys_set. destruct (dict_in k d) eqn:E; [exact H|].
  apply NoDup_app; [exact H | apply NoDup_cons; [tauto | constructor] |].
  intros x Hx [<-|[]]. apply dict_in_keys in Hx. congruence.
Qed.

Lemma dict_set_entries k v d kv :
  In kv (dict_set k v d) -> kv = (k, v) \/ In kv d.
Proof.
  induction d as [|[k' v'] d IH]; simpl.
  - intros [<-|[]]. now left.
  - destruct (String.eqb k' k); simpl; intros [<-|H]; auto.
    destruct (IH H); auto.
Qed.

Lemma dict_set_keyed k v d :
  k = id v -> keyed_by_id d -> keyed_by_id (dict_set k v d).
Proof.
  intros Hk [Hnd Hall]. split; [now apply dict_set_NoDup|].
  apply Forall_forall. intros kv Hin.
  destruct (dict_set_entries _ _ _ _ Hin) as [->|Hd]; [exact Hk|].
  rewrite Forall_forall in Hall. now apply Hall.
Qed.

Lemma dict_del_keys k d x :
  In x (dict_keys (dict_del k d)) -> In x (dict_keys d).
Proof.
  induction d as [|[k' v'] d IH]; simpl; [tauto|].
  destruct (String.eqb k' k); simpl; [auto | intros [?|?]; auto].
Qed.

Lemma dict_del_entries k d kv : In kv (dict_del k d) -> In kv d.
Proof.
  induction d as [|[k' v'] d IH]; simpl; [tauto|].
  destruct (String.eqb k' k); simpl; [auto | intros [?|?]; auto].
Qed.

Lemma dict_del_keyed k d : keyed_by_id d -> keyed_by_id (dict_del k d).
Proof.
  intros [Hnd Hall]. split.
  - clear Hall. induction d as [|[k' v'] d IH]; simpl; [constructor|].
    inversion Hnd as [|? ? Hk Hd]; subst.
    destruct (String.eqb k' k); [auto|]. simpl. constructor; [|auto].
    intros Hin. apply Hk. eapply dict_del_keys, Hin.
  - apply Forall_forall. intros kv Hin. apply dict_del_entries in Hin.
    rewrite Forall_forall in Hall. now apply Hall.
Qed.

(** The same entry sits at the same place after another key is stored. *)
Lemma dict_set_nth_other k v d (i : nat) k' v' :
  k <> k' -> nth_error d i = Some (k', v') ->
  nth_error (dict_set k v d) i = Some (k', v').
Proof.
  intros Hne. revert i. induction d as [|[k0 v0] d IH]; intros i Hi.
  - destruct i; discriminate.
  - simpl. destruct (String.eqb_spec k0 k) as [->|Hk0].
    + destruct i as [|i]; simpl in *; [congruence | exact Hi].
    + destruct i as [|i]; simpl in *; [exact Hi | auto].
Qed.

(** *** Storing a list of records *)

Lemma store_all_keeps k ps d :
  (forall q, In q ps -> id q <> k) ->
  dict_get k (store_all ps d) = dict_get k d.
Proof.
  revert d. induction ps as [|p ps IH]; intros d H; [reflexivity|].
  simpl. rewrite IH by (intros q Hq; apply H; now right).
  apply dict_get_set_other, H. now left.
Qed.

Lemma store_all_last (before after : list Producto) (p : Producto) d :
  (forall q, In q after -> id q <> id p) ->
  dict_get (id p) (store_all (before ++ p :: after) d) = Some p.
Proof.
  intros H. unfold store_all. rewrite fold_left_app. simpl.
  fold (store_all after). rewrite store_all_keeps by exact H.
  apply dict_get_set_same.
Qed.

Lemma store_all_NoDup ps d :
  NoDup (dict_keys d) -> NoDup (dict_keys (store_all ps d)).
Proof.
  revert d. induction ps as [|p ps IH]; intros d H; [exact H|].
  simpl. apply IH. now apply dict_set_NoDup.
Qed.

Lemma store_all_keyed ps d :
  keyed_by_id d -> keyed_by_id (store_all ps d).
Proof.
  revert d. induction ps as [|p ps IH]; intros d H; [exact H|].
  simpl. apply IH. now apply dict_set_keyed.
Qed.

Lemma store_all_entries ps d kv :
  In kv (store_all ps d) -> In kv d \/ (In (snd kv) ps /\ fst kv = id (snd kv)).
Proof.
  revert d. induction ps as [|p ps IH]; intros d H; [now left|].
  simpl in H. destruct (IH _ H) as [Hd|[Hp Hk]].
  - destruct (dict_set_entries _ _ _ _ Hd) as [->|Hd']; [|now left].
    right. split; [now left | reflexivity].
  - right. split; [now right | exact Hk].
Qed.

Lemma store_all_grows k ps d :
  dict_in k d = true -> dict_in k (store_all ps d) = true.
Proof.
  revert d. induction ps as [|p ps IH]; intros d H; [exact H|].
  simpl. apply IH. unfold dict_in in *.
  destruct (String.eqb_spec (id p) k) as [->|Hne].
  - now rewrite dict_get_set_same.
  - now rewrite dict_get_set_other.
Qed.

Lemma store_all_has (p : Producto) ps d :
  In p ps -> dict_in (id p) (store_all ps d) = true.
Proof.
  revert d. induction ps as [|q ps IH]; intros d; [intros []|].
  intros [->|Hin]; simpl; [|now apply IH].
  apply store_all_grows. unfold dict_in. now rewrite dict_get_set_same.
Qed.

(** Storing the values of a well-keyed dict rebuilds it. *)
Lemma store_all_values d1 d2 :
  keyed_by_id (d1 ++ d2) -> store_all (dict_values d2) d1 = d1 ++ d2.
Proof.
  revert d1. induction d2 as [|[k v] d2 IH]; intros d1 H.
  - now rewrite app_nil_r.
  - simpl. assert (Hk : k = id v /\ ~ In k (dict_keys d1)).
    { destruct H as [Hnd Hall]. split.
      - rewrite Forall_forall in Hall. apply (Hall (k, v)).
        apply in_or_app. right. now left.
      - unfold dict_keys in Hnd. rewrite map_app in Hnd. simpl in Hnd.
        apply NoDup_remove_2 in Hnd. intros Hin. apply Hnd.
        apply in_or_app. now left. }
    destruct Hk as [<- Hfresh]. rewrite dict_set_fresh by exact Hfresh.
    rewrite IH; rewrite <- app_assoc; [reflexivity | exact H].
Qed.

End DictFacts.

(** ** The store *)

Lemma from_line_wrong_length (l : string) :
  List.length (split FIELD_SEP (strip l)) <> 4%nat -> from_line l = None.
Proof.
  unfold from_line. intros Hlen.
  destruct (split FIELD_SEP (strip l)) as [|a [|b [|c [|d [|x t]]]]];
    try reflexivity.
  now contradiction Hlen.
Qed.

Lemma blank_from_line (l : string) : blank l = true -> from_line l = None.
Proof.
  unfold blank, from_line. intros H. apply String.eqb_eq in H.
  now rewrite H.
Qed.

(** The loop of [cargar_desde_archivo]: the records that parse are stored
    in order, the other lines that are not blank are reported. *)
Lemma for_each_cargar (lineas : list string) (s : Inventario) :
  for_each lineas cargar_linea s
  = (tt, mkInventario (ruta s) (store_all (registros lineas) (productos s))
           (archivo s) (consola s ++ corruptas lineas)%list).
Proof.
  revert s. induction lineas as [|l t IH]; intros [r d f c].
  - simpl. now rewrite app_nil_r.
  - cbn [for_each]. unfold bind at 1. unfold cargar_linea at 1.
    cbn [registros corruptas flat_map]. fold (registros t). fold (corruptas t).
    fold (blank l). destruct (blank l) eqn:Hb.
    + rewrite (blank_from_line l Hb). unfold ret. rewrite IH. reflexivity.
    + destruct (from_line l) as [p|].
      * unfold bind, get_productos, set_productos. simpl. rewrite IH.
        reflexivity.
      * unfold print. rewrite IH. simpl. now rewrite <- app_assoc.
Qed.

Lemma cargar_desde_archivo_ok (s : Inventario) (c : string) :
  read_fault (archivo s) = None -> contents (archivo s) = Some c ->
  cargar_desde_archivo s
  = (tt, mkInventario (ruta s) (dict_of (registros (readlines c))) (archivo s)
           (consola s ++ corruptas (readlines c)
            ++ [InfoLoaded (List.length (dict_of (registros (readlines c))))])%list).
Proof.
  intros Hr Hc. unfold cargar_desde_archivo, bind, get_ruta, read_file.
  rewrite Hr, Hc. unfold set_productos. rewrite for_each_cargar.
  unfold get_productos, print, dict_of. simpl. now rewrite <- app_assoc.
Qed.

(** Ensuring the file exists touches neither the path nor the dict. *)
Lemma ensure_file_exists_frame (s : Inventario) :
  exists f' msgs,
    _ensure_file_exists s
    = (tt, mkInventario (ruta s) (productos s) f' (consola s ++ msgs)%list).
Proof.
  destruct s as [r d f c].
  unfold _ensure_file_exists, bind, get_ruta, path_exists, write_file. simpl.
  destruct (contents f).
  - exists f, []. unfold ret. now rewrite app_nil_r.
  - simpl. destruct (write_fault f) as [[]|]; simpl; do 2 eexists; reflexivity.
Qed.

Lemma cargar_desde_archivo_fault (s : Inventario) (e : exn) :
  fst (read_file s) = inl e ->
  exists f' rest,
    cargar_desde_archivo s
    = (tt, mkInventario (ruta s) (productos s) f'
             (consola s ++ read_diagnostic (ruta s) e :: rest)%list).
Proof.
  intros He.
  assert (Hgo : cargar_desde_archivo s
                = match e with
                  | FileNotFoundError =>
                      (print (WarnNotFound (ruta s)) ;;; _ensure_file_exists) s
                  | PermissionError => print (ErrReadPermission (ruta s)) s
                  | OSError => print (ErrRead (ruta s) OSError) s
                  end).
  { unfold cargar_desde_archivo, bind at 1 2, get_ruta.
    destruct (read_file s) as [[e'|ls] s'] eqn:Hrf.
    - assert (s' = s) by (unfold read_file in Hrf; congruence). subst s'.
      simpl in He. injection He as ->. now destruct e.
    - discriminate. }
  rewrite Hgo. destruct e.
  - unfold bind, print.
    destruct (ensure_file_exists_frame
                (mkInventario (ruta s) (productos s) (archivo s)
                   (consola s ++ [WarnNotFound (ruta s)]))) as (f' & msgs & ->).
    exists f', msgs. simpl. now rewrite <- app_assoc.
  - exists (archivo s), []. reflexivity.
  - exists (archivo s), []. reflexivity.
Qed.

Lemma guardar_todo_ok (s : Inventario) :
  write_fault (archivo s) = None ->
  guardar_todo s = (true, with_contents (file_text (productos s)) s).
Proof.
  intros H. unfold guardar_todo, bind, get_ruta, get_productos, write_file,
    with_contents.
  now rewrite H.
Qed.

Lemma guardar_todo_fault (s : Inventario) (e : exn) :
  write_fault (archivo s) = Some e ->
  guardar_todo s
  = (false, with_consola (consola s ++ [write_diagnostic (ruta s) e]) s).
Proof.
  intros H. unfold guardar_todo, bind, get_ruta, get_productos, write_file.
  rewrite H. destruct s, e; reflexivity.
Qed.

(** ** The models at work *)

Example strip_split :
  split FIELD_SEP (strip ("  a||b c " ++ String LF EmptyString))
  = ["a"; ""; "b c"].
Proof. reflexivity. Qed.

Example readlines_universal :
  readlines ("a" ++ String CR (String LF ("b" ++ String CR ("c" ++ String LF "d"))))
  = ["a" ++ String LF EmptyString; "b" ++ String LF EmptyString;
     "c" ++ String LF EmptyString; "d"].
Proof. reflexivity. Qed.

Example int_of_str_accepts :
  map int_of_str [" -1_000 "; "+7"; "007"; "0"]
  = [Some (-1000); Some 7; Some 7; Some 0].
Proof. reflexivity. Qed.

Example int_of_str_rejects :
  map int_of_str [""; "1__0"; "_1"; "1_"; "- 1"; "1.0"; "0x10"; "ten"]
  = [None; None; None; None; None; None; None; None].
Proof. reflexivity. Qed.

Example str_of_int_examples :
  map str_of_int [0; 10; -1200; 4300] = ["0"; "10"; "-1200"; "4300"].
Proof. reflexivity. Qed.

Example float_of_str_accepts :
  map float_of_str ["0.50"; " 1_0.0e-1 "; "1."; ".5"; "-0.0"; "1e400"; "-Inf"; "NaN"]
  = [Some half; Some one; Some one; Some half; Some (S754_zero true);
     Some (S754_infinity false); Some (S754_infinity true); Some nan].
Proof. vm_compute. reflexivity. Qed.

Example float_of_str_rejects :
  map float_of_str [""; "."; "1e"; "1._5"; "0x10"; "1,5"; "cheap"]
  = [None; None; None; None; None; None; None].
Proof. vm_compute. reflexivity. Qed.

Example float_of_str_rounds :
  map float_of_str ["0.1"; "9007199254740993"; "1e23"; "5e-324"; "2e-324"]
  = [Some (S754_finite false 7205759403792794 (-56));
     Some (S754_finite false 4503599627370496 1);
     Some (S754_finite false 5960464477539062 24);
     Some (S754_finite false 1 (-1074));
     Some (S754_zero false)].
Proof. vm_compute. reflexivity. Qed.

Example float_repr_examples :
  map float_repr
    [half; one; S754_finite false 7205759403792794 (-56);
     S754_finite false 5960464477539062 24; S754_finite false 1 (-1074);
     S754_finite true 5629499534213120 (-43); S754_zero true; nan;
     S754_infinity true]
  = ["0.5"; "1.0"; "0.1"; "1e+23"; "5e-324"; "-640.0"; "-0.0"; "nan"; "-inf"].
Proof. vm_compute. reflexivity. Qed.

(** * The claims *)

(** ** Parsing and serialising a record *)

(** C1, as amended: for every record whose id and name hold no separator,
    whose id does not begin with a blank of [str.strip] and whose price is
    a float other than NaN, parsing the serialised line yields the record:
    [from_line(p.to_line()) == p]. *)
Theorem from_line_to_line_round_trip (p : Producto) :
  lacks FIELD_SEP (id p) = true -> lacks FIELD_SEP (nombre p) = true ->
  starts_with isspace (id p) = false ->
  is_float (precio p) = true -> is_nan (precio p) = false ->
  from_line (to_line p) = Some p /\ round_trips p = true.
Proof.
  intros Hid Hnom Hsp Hf Hnan.
  pose proof (from_line_to_line_same p Hid Hnom Hsp
                (float_of_str_repr _ Hf)) as H.
  split; [exact H|]. unfold round_trips. rewrite H.
  now apply Producto_eq_refl, float_eq_refl.
Qed.

Lemma from_line_to_line_round_trip_bolt :
  from_line (to_line bolt) = Some bolt /\ round_trips bolt = true.
Proof.
  apply (from_line_to_line_round_trip bolt); reflexivity.
Defined.

(** C1 as stated fails: [strip] takes the blank in front of the id with
    it, so the line of [" P1"] parses to the record of ["P1"]. *)
Lemma round_trip_loses_leading_blank :
  lacks FIELD_SEP (id blank_id) = true
  /\ lacks FIELD_SEP (nombre blank_id) = true
  /\ to_line blank_id = " P1|Bolt|10|0.5" ++ String LF EmptyString
  /\ from_line (to_line blank_id) = Some bolt
  /\ round_trips blank_id = false.
Proof. vm_compute. repeat split; reflexivity. Qed.

(** A NaN price does not compare equal to itself after the round trip
    either. *)
Lemma round_trip_nan_price :
  from_line (to_line (mkProducto "P1" "Bolt" 10 nan))
  = Some (mkProducto "P1" "Bolt" 10 nan)
  /\ round_trips (mkProducto "P1" "Bolt" 10 nan) = false.
Proof. vm_compute. split; reflexivity. Qed.

(** C3: [from_line] returns nothing when the split does not give four
    parts, when the third part is no integer or when the fourth is no
    float; otherwise it returns the record of the four fields, and every
    record it returns is of that form. *)
Theorem from_line_all_or_nothing (line : string) :
  (List.length (split FIELD_SEP (strip line)) <> 4%nat -> from_line line = None)
  /\ (forall a b c d,
        split FIELD_SEP (strip line) = [a; b; c; d] ->
        (int_of_str c = None -> from_line line = None)
        /\ (float_of_str d = None -> from_line line = None)
        /\ (forall n x,
              int_of_str c = Some n -> float_of_str d = Some x ->
              from_line line = Some (mkProducto a b n x)))
  /\ (forall p,
        from_line line = Some p ->
        exists c d,
          split FIELD_SEP (strip line) = [id p; nombre p; c; d]
          /\ int_of_str c = Some (cantidad p)
          /\ float_of_str d = Some (precio p)).
Proof.
  split; [apply from_line_wrong_length|]. unfold from_line. split.
  - intros a b c d ->. split; [|split].
    + intros ->. reflexivity.
    + intros ->. now destruct (int_of_str c).
    + intros n x -> ->. reflexivity.
  - intros p.
    destruct (split FIELD_SEP (strip line)) as [|a [|b [|c [|d [|x t]]]]];
      try discriminate.
    destruct (int_of_str c) as [n|] eqn:Hc; [|discriminate].
    destruct (float_of_str d) as [y|] eqn:Hd; [|discriminate].
    intros [= <-]. exists c, d. auto.
Qed.

Lemma from_line_all_or_nothing_examples :
  from_line "P1|Bolt|10" = None
  /\ from_line "P1|Bolt|ten|0.5" = None
  /\ from_line "P1|Bolt|10|cheap" = None
  /\ from_line "P1|Bolt|10|0.5" = Some bolt.
Proof.
  destruct (from_line_all_or_nothing "P1|Bolt|10") as (H3 & _ & _).
  destruct (from_line_all_or_nothing "P1|Bolt|ten|0.5") as (_ & Hint & _).
  destruct (from_line_all_or_nothing "P1|Bolt|10|cheap") as (_ & Hfloat & _).
  destruct (from_line_all_or_nothing "P1|Bolt|10|0.5") as (_ & Hok & _).
  split; [apply H3; vm_compute; discriminate|].
  split; [apply (proj1 (Hint "P1" "Bolt" "ten" "0.5" eq_refl)); reflexivity|].
  split.
  - apply (proj1 (proj2 (Hfloat "P1" "Bolt" "10" "cheap" eq_refl))).
    reflexivity.
  - apply (proj2 (proj2 (Hok "P1" "Bolt" "10" "0.5" eq_refl))); reflexivity.
Defined.

(** ** Reloading *)

Lemma registros_spec (lineas : list string) (p : Producto) :
  In p (registros lineas) <-> exists l, In l lineas /\ from_line l = Some p.
Proof.
  unfold registros. rewrite in_flat_map. split; intros (l & Hl & H); exists l.
  - destruct (from_line l) as [q|]; [|contradiction].
    destruct H as [->|[]]. auto.
  - rewrite H. split; [exact Hl | now left].
Qed.

Lemma corruptas_spec (lineas : list string) (m : message) :
  In m (corruptas lineas)
  <-> exists l, In l lineas /\ blank l = false /\ from_line l = None
                /\ m = WarnCorrupt (strip l).
Proof.
  unfold corruptas. rewrite in_flat_map. split.
  - intros (l & Hl & H). exists l. destruct (blank l); [contradiction|].
    destruct (from_line l); [contradiction|]. destruct H as [<-|[]]. auto.
  - intros (l & Hl & Hb & Hf & ->). exists l. rewrite Hb, Hf.
    split; [exact Hl | now left].
Qed.

Lemma registros_app (l1 l2 : list string) :
  registros (l1 ++ l2) = (registros l1 ++ registros l2)%list.
Proof. apply flat_map_app. Qed.

(** C2: when the file can be read, reload replaces the dict by the records
    parsed from the lines of the file, stored in file order; every line
    that is neither blank nor well formed is reported and dropped; a good
    line and a line of three fields load one record; a second reload
    gives the same dict. *)
Theorem cargar_desde_archivo_loads (s : Inventario) (c : string) :
  read_fault (archivo s) = None -> contents (archivo s) = Some c ->
  let lineas := readlines c in
  let s' := snd (cargar_desde_archivo s) in
  productos s' = dict_of (registros lineas)
  /\ (forall p, In p (dict_values (productos s')) ->
                exists l, In l lineas /\ blank l = false /\ from_line l = Some p)
  /\ (forall l p, In l lineas -> from_line l = Some p ->
                  dict_in (id p) (productos s') = true)
  /\ consola s'
     = (consola s ++ corruptas lineas
        ++ [InfoLoaded (List.length (productos s'))])%list
  /\ archivo s' = archivo s
  /\ (forall l1 l2 p,
        lineas = [l1; l2] \/ lineas = [l2; l1] ->
        from_line l1 = Some p ->
        List.length (split FIELD_SEP (strip l2)) = 3%nat ->
        productos s' = [(id p, p)])
  /\ productos (snd (cargar_desde_archivo s')) = productos s'.
Proof.
  intros Hr Hc lineas s'. subst s'.
  rewrite (cargar_desde_archivo_ok s c Hr Hc). fold lineas. cbn [snd productos
    consola archivo].
  split; [reflexivity|]. split; [|split; [|split; [|split; [|split]]]].
  - intros p Hp. unfold dict_values in Hp. apply in_map_iff in Hp.
    destruct Hp as ([k v] & <- & Hin).
    destruct (store_all_entries _ _ _ Hin) as [[]|[Hv _]].
    apply registros_spec in Hv. destruct Hv as (l & Hl & Hf).
    exists l. repeat split; auto.
    destruct (blank l) eqn:Hb; [|reflexivity].
    rewrite (blank_from_line l Hb) in Hf. discriminate.
  - intros l p Hl Hf. apply store_all_has, registros_spec. eauto.
  - reflexivity.
  - reflexivity.
  - intros l1 l2 p Hls H1 H2.
    assert (Hnone : from_line l2 = None).
    { apply from_line_wrong_length. rewrite H2. discriminate. }
    destruct Hls as [-> | ->]; unfold registros; simpl;
      now rewrite H1, Hnone.
  - rewrite (cargar_desde_archivo_ok _ c); [reflexivity | exact Hr | exact Hc].
Qed.

Lemma cargar_desde_archivo_loads_short_line :
  let s' := snd (cargar_desde_archivo (store_on [("P7", nut)] text_with_short_line)) in
  productos s' = [("P1", bolt)]
  /\ consola s' = [WarnCorrupt "P9|Nail|3"; InfoLoaded 1]
  /\ productos (snd (cargar_desde_archivo s')) = productos s'.
Proof.
  destruct (cargar_desde_archivo_loads
              (store_on [("P7", nut)] text_with_short_line)
              text_with_short_line eq_refl eq_refl)
    as (Hd & _ & _ & Hc & _ & _ & Hagain).
  cbv zeta. split; [|split].
  - rewrite Hd. vm_compute. reflexivity.
  - rewrite Hc, Hd. vm_compute. reflexivity.
  - exact Hagain.
Defined.

(** C7: when the file cannot be opened for reading, reload reports it and
    leaves the dict as it was. *)
Theorem cargar_desde_archivo_unreadable (s : Inventario) (e : exn) :
  fst (read_file s) = inl e ->
  let s' := snd (cargar_desde_archivo s) in
  productos s' = productos s
  /\ ruta s' = ruta s
  /\ exists rest,
       consola s' = (consola s ++ read_diagnostic (ruta s) e :: rest)%list.
Proof.
  intros He. destruct (cargar_desde_archivo_fault s e He) as (f' & rest & ->).
  simpl. repeat split. now exists rest.
Qed.

(** [open] for reading fails on a fault of the file or on a missing file. *)
Lemma read_file_fails (s : Inventario) (e : exn) :
  fst (read_file s) = inl e
  <-> read_fault (archivo s) = Some e
      \/ (read_fault (archivo s) = None /\ contents (archivo s) = None
          /\ e = FileNotFoundError).
Proof.
  unfold read_file. simpl. destruct (read_fault (archivo s)) as [e'|].
  - split; [intros [= ->]; now left|].
    intros [[= ->]|(H & _)]; [reflexivity | discriminate].
  - destruct (contents (archivo s)).
    + split; [discriminate|]. intros [H|(_ & H & _)]; discriminate.
    + split; [intros [= <-]; right; auto|].
      intros [H|(_ & _ & ->)]; [discriminate | reflexivity].
Qed.

Lemma cargar_desde_archivo_unreadable_locked :
  let s := store_locked [("P1", bolt)] PermissionError in
  let s' := snd (cargar_desde_archivo s) in
  productos s' = [("P1", bolt)]
  /\ ruta s' = INVENTARIO_FILE
  /\ exists rest,
       consola s' = ErrReadPermission INVENTARIO_FILE :: rest.
Proof.
  exact (cargar_desde_archivo_unreadable
           (store_locked [("P1", bolt)] PermissionError) PermissionError
           eq_refl).
Defined.

(** C10: of several well-formed lines with the same id, reload keeps one
    record under that id, the one of the last such line. *)
Theorem cargar_desde_archivo_last_wins
    (s : Inventario) (c : string) (pre post : list string) (l : string)
    (p : Producto) :
  read_fault (archivo s) = None -> contents (archivo s) = Some c ->
  readlines c = (pre ++ l :: post)%list ->
  from_line l = Some p ->
  (forall l' q, In l' post -> from_line l' = Some q -> id q <> id p) ->
  let d := productos (snd (cargar_desde_archivo s)) in
  dict_get (id p) d = Some p
  /\ count_occ string_dec (dict_keys d) (id p) = 1%nat.
Proof.
  intros Hr Hc Hlines Hl Hpost d. subst d.
  rewrite (cargar_desde_archivo_ok s c Hr Hc). cbn [snd productos].
  rewrite Hlines, registros_app. cbn [registros flat_map]. rewrite Hl.
  fold (registros post). cbn [app].
  assert (Hget : dict_get (id p)
                   (dict_of (registros pre ++ p :: registros post)) = Some p).
  { apply store_all_last. intros q Hq. apply registros_spec in Hq.
    destruct Hq as (l' & Hin & Hf). eauto. }
  split; [exact Hget|].
  apply NoDup_count_occ'.
  - apply store_all_NoDup. constructor.
  - apply dict_in_keys. unfold dict_in. now rewrite Hget.
Qed.

Lemma cargar_desde_archivo_last_wins_nut :
  let d := productos (snd (cargar_desde_archivo (store_on [] text_with_repeated_id))) in
  dict_get "P1" d = Some nut
  /\ count_occ string_dec (dict_keys d) "P1" = 1%nat.
Proof.
  apply (cargar_desde_archivo_last_wins
           (store_on [] text_with_repeated_id) text_with_repeated_id
           ["P1|Bolt|10|0.5" ++ String LF EmptyString] []
           ("P1|Nut|5|0.5" ++ String LF EmptyString) nut);
    try reflexivity.
  intros l' q [].
Defined.

(** ** Adding, updating, deleting, looking up *)

Lemma dict_pop_in (k : string) (d : dict) :
  dict_in k d = true ->
  exists v, dict_get k d = Some v /\ dict_pop k d = Some (v, dict_del k d).
Proof.
  unfold dict_in, dict_pop. destruct (dict_get k d) as [v|]; [|discriminate].
  intros _. now exists v.
Qed.

Lemma anadir_producto_known (s : Inventario) (r : Producto) :
  dict_in (id r) (productos s) = true ->
  refused (WarnDuplicate (id r)) s (añadir_producto r s).
Proof.
  intros H. unfold añadir_producto, bind, get_productos. rewrite H.
  unfold refused, print, ret. simpl. auto.
Qed.

(** C4: adding a record whose id is already in the dict returns [False]
    with the duplicate-id warning; the dict and the file are unchanged. *)
Theorem anadir_producto_duplicate (s : Inventario) (r : Producto) :
  dict_in (id r) (productos s) = true ->
  fst (añadir_producto r s) = false
  /\ productos (snd (añadir_producto r s)) = productos s
  /\ archivo (snd (añadir_producto r s)) = archivo s
  /\ consola (snd (añadir_producto r s))
     = (consola s ++ [WarnDuplicate (id r)])%list.
Proof.
  intros H. destruct (anadir_producto_known s r H) as (H1 & H2 & H3 & _ & H5).
  auto.
Qed.

Lemma anadir_producto_duplicate_bolt :
  fst (añadir_producto nut store_bolt) = false
  /\ productos (snd (añadir_producto nut store_bolt)) = [("P1", bolt)]
  /\ archivo (snd (añadir_producto nut store_bolt)) = archivo store_bolt
  /\ consola (snd (añadir_producto nut store_bolt))
     = (consola store_bolt ++ [WarnDuplicate "P1"])%list.
Proof. apply (anadir_producto_duplicate store_bolt nut). reflexivity. Defined.

(** What [añadir_producto] does to the dict once the id is new. *)
Lemma anadir_producto_new (s : Inventario) (r : Producto) :
  dict_in (id r) (productos s) = false ->
  productos (snd (añadir_producto r s)) = dict_set (id r) r (productos s)
  /\ fst (añadir_producto r s)
     = match write_fault (archivo s) with None => true | Some _ => false end.
Proof.
  intros H. destruct s as [rt d [txt rf wf] c]. simpl in H.
  unfold añadir_producto, bind, get_productos. simpl. rewrite H.
  unfold guardar_todo, bind, get_ruta, get_productos, set_productos,
    write_file. simpl.
  destruct wf as [[]|]; simpl; auto.
Qed.

(** After a successful add, a second add under the same id is refused. *)
Lemma anadir_producto_twice (s : Inventario) (r r' : Producto) :
  fst (añadir_producto r s) = true -> id r' = id r ->
  refused (WarnDuplicate (id r')) (snd (añadir_producto r s))
    (añadir_producto r' (snd (añadir_producto r s))).
Proof.
  intros Hok Hid. apply anadir_producto_known. rewrite Hid.
  destruct (dict_in (id r) (productos s)) eqn:Hin.
  - exfalso. revert Hok. unfold añadir_producto, bind, get_productos.
    rewrite Hin. discriminate.
  - destruct (anadir_producto_new s r Hin) as [-> _].
    unfold dict_in. now rewrite dict_get_set_same.
Qed.

(** C5: on an id that is not in the dict, update and delete return [False]
    with the unknown-id warning and leave the dict and the file as they
    were; lookup returns nothing and changes nothing at all. *)
Theorem unknown_id_changes_nothing (s : Inventario) (k : string) :
  dict_in k (productos s) = false ->
  (forall r, id r = k -> refused (WarnMissing k) s (actualizar_producto r s))
  /\ refused (WarnMissing k) s (eliminar_producto k s)
  /\ obtener_producto k s = (None, s).
Proof.
  intros H. split; [|split].
  - intros r <-. unfold actualizar_producto, bind, get_productos. rewrite H.
    unfold refused, print, ret. simpl. auto.
  - unfold eliminar_producto, bind, get_productos. rewrite H.
    unfold refused, print, ret. simpl. auto.
  - unfold obtener_producto, bind, get_productos, ret.
    unfold dict_in in H. now destruct (dict_get k (productos s)).
Qed.

Lemma unknown_id_changes_nothing_washer :
  refused (WarnMissing "P2") store_bolt (actualizar_producto washer store_bolt)
  /\ refused (WarnMissing "P2") store_bolt (eliminar_producto "P2" store_bolt)
  /\ obtener_producto "P2" store_bolt = (None, store_bolt).
Proof.
  destruct (unknown_id_changes_nothing store_bolt "P2" eq_refl)
    as (Hup & Hdel & Hget).
  split; [exact (Hup washer eq_refl) | split; [exact Hdel | exact Hget]].
Defined.

(** C6: when the id-precondition holds and the rewrite of the file fails,
    add, update and delete return [False], yet the dict keeps the
    insertion, the replacement or the removal, and the file is the one of
    before. *)
Theorem write_failure_keeps_mutation (s : Inventario) (e : exn) :
  write_fault (archivo s) = Some e ->
  (forall r,
     dict_in (id r) (productos s) = false ->
     unsaved (dict_set (id r) r (productos s)) e s (añadir_producto r s)
     /\ dict_get (id r) (productos (snd (añadir_producto r s))) = Some r)
  /\ (forall r,
        dict_in (id r) (productos s) = true ->
        unsaved (dict_set (id r) r (productos s)) e s (actualizar_producto r s)
        /\ dict_get (id r) (productos (snd (actualizar_producto r s))) = Some r)
  /\ (forall k,
        dict_in k (productos s) = true ->
        unsaved (dict_del k (productos s)) e s (eliminar_producto k s)
        /\ dict_get k (productos (snd (eliminar_producto k s))) = None).
Proof.
  intros Hw. destruct s as [rt d f c]. simpl in Hw.
  split; [|split].
  - intros r Hin. simpl in Hin.
    assert (Hrun : añadir_producto r (mkInventario rt d f c)
                   = (false, mkInventario rt (dict_set (id r) r d) f
                               (c ++ [write_diagnostic rt e]))).
    { unfold añadir_producto, bind at 1, get_productos. simpl. rewrite Hin.
      unfold bind at 1. unfold bind at 1, set_productos. simpl.
      rewrite (guardar_todo_fault _ e) by exact Hw. reflexivity. }
    rewrite Hrun. unfold unsaved. simpl.
    rewrite dict_get_set_same. auto.
  - intros r Hin. simpl in Hin.
    assert (Hrun : actualizar_producto r (mkInventario rt d f c)
                   = (false, mkInventario rt (dict_set (id r) r d) f
                               (c ++ [write_diagnostic rt e]))).
    { unfold actualizar_producto, bind at 1, get_productos. simpl.
      rewrite Hin. simpl.
      unfold bind at 1. unfold bind at 1, set_productos. simpl.
      rewrite (guardar_todo_fault _ e) by exact Hw. reflexivity. }
    rewrite Hrun. unfold unsaved. simpl.
    rewrite dict_get_set_same. auto.
  - intros k Hin. simpl in Hin.
    destruct (dict_pop_in k d Hin) as (v & _ & Hpop).
    assert (Hrun : eliminar_producto k (mkInventario rt d f c)
                   = (false, mkInventario rt (dict_del k d) f
                               (c ++ [write_diagnostic rt e]))).
    { unfold eliminar_producto, bind at 1, get_productos. simpl.
      rewrite Hin, Hpop. simpl.
      unfold bind at 1. unfold bind at 1, set_productos. simpl.
      rewrite (guardar_todo_fault _ e) by exact Hw. reflexivity. }
    rewrite Hrun. unfold unsaved. simpl.
    rewrite dict_get_del_same. auto.
Qed.

Lemma write_failure_keeps_mutation_locked :
  let s := store_locked [("P1", bolt)] PermissionError in
  (unsaved [("P1", bolt); ("P2", washer)] PermissionError s
     (añadir_producto washer s)
   /\ dict_get "P2" (productos (snd (añadir_producto washer s))) = Some washer)
  /\ (unsaved [("P1", nut)] PermissionError s (actualizar_producto nut s)
      /\ dict_get "P1" (productos (snd (actualizar_producto nut s))) = Some nut)
  /\ (unsaved [] PermissionError s (eliminar_producto "P1" s)
      /\ dict_get "P1" (productos (snd (eliminar_producto "P1" s))) = None).
Proof.
  destruct (write_failure_keeps_mutation
              (store_locked [("P1", bolt)] PermissionError) PermissionError
              eq_refl) as (Hadd & Hup & Hdel).
  split; [exact (Hadd washer eq_refl)|].
  split; [exact (Hup nut eq_refl) | exact (Hdel "P1" eq_refl)].
Defined.

(** ** Lines in the file *)

Lemma no_line_break_lacks (s : string) :
  no_line_break s = true -> lacks LF s = true /\ lacks CR s = true.
Proof.
  intros H. split; revert H; apply forallb_weaken; intros c;
    unfold line_break; destruct (Ascii.eqb c LF), (Ascii.eqb c CR);
    simpl; congruence.
Qed.

Lemma cuerpo_no_line_break (p : Producto) :
  no_line_break (id p) = true -> no_line_break (nombre p) = true ->
  no_line_break (cuerpo p) = true.
Proof.
  intros Hid Hnom.
  destruct (str_of_int_plain (cantidad p)) as (_ & _ & Hc).
  destruct (float_repr_plain (precio p)) as (_ & _ & Hp).
  unfold no_line_break, cuerpo in *.
  repeat (rewrite forallb_app; cbn [forallb]).
  now rewrite Hid, Hnom, Hc, Hp.
Qed.

Lemma cuerpo_join (p : Producto) :
  cuerpo p
  = join FIELD_SEP
      [id p; nombre p; str_of_int (cantidad p); float_repr (precio p)].
Proof. reflexivity. Qed.

Lemma concat_all_to_line (p : Producto) (ps : list Producto) :
  concat_all (map to_line (p :: ps))
  = cuerpo p ++ String LF (concat_all (map to_line ps)).
Proof. simpl. now rewrite to_line_cuerpo, append_assoc. Qed.

(** The text written for records without line breaks reads back as their
    lines. *)
Lemma readlines_to_lines (ps : list Producto) :
  Forall (fun p => no_line_break (id p) = true
                   /\ no_line_break (nombre p) = true) ps ->
  readlines (concat_all (map to_line ps)) = map to_line ps.
Proof.
  intros Hall. unfold readlines.
  assert (Hcr : lacks CR (concat_all (map to_line ps)) = true).
  { induction Hall as [|p ps [Hid Hnom] _ IH]; [reflexivity|].
    rewrite concat_all_to_line. unfold lacks in *.
    rewrite forallb_app. cbn [forallb]. rewrite IH.
    destruct (no_line_break_lacks _ (cuerpo_no_line_break p Hid Hnom))
      as [_ Hcr]. unfold lacks in Hcr. now rewrite Hcr. }
  rewrite universal_newlines_fixed by exact Hcr. clear Hcr.
  induction Hall as [|p ps [Hid Hnom] _ IH]; [reflexivity|].
  rewrite concat_all_to_line, keepends_cons, IH.
  - cbn [map]. now rewrite to_line_cuerpo.
  - apply no_line_break_lacks. now apply cuerpo_no_line_break.
Qed.

Lemma limpio_spec (p : Producto) :
  limpio p = true ->
  lacks FIELD_SEP (id p) = true /\ lacks FIELD_SEP (nombre p) = true
  /\ starts_with isspace (id p) = false
  /\ no_line_break (id p) = true /\ no_line_break (nombre p) = true
  /\ is_float (precio p) = true /\ is_nan (precio p) = false.
Proof.
  unfold limpio. rewrite !andb_true_iff, !negb_true_iff. tauto.
Qed.

Lemma limpio_round_trips (p : Producto) :
  limpio p = true -> from_line (to_line p) = Some p /\ round_trips p = true.
Proof.
  intros H. destruct (limpio_spec p H) as (H1 & H2 & H3 & _ & _ & H6 & H7).
  pose proof (from_line_to_line_same p H1 H2 H3 (float_of_str_repr _ H6)) as Hp.
  split; [exact Hp|]. unfold round_trips. rewrite Hp.
  now apply Producto_eq_refl, float_eq_refl.
Qed.

Lemma registros_to_lines (ps : list Producto) :
  Forall (fun p => limpio p = true) ps -> registros (map to_line ps) = ps.
Proof.
  induction 1 as [|p ps Hp _ IH]; [reflexivity|].
  cbn [map registros flat_map]. fold (registros (map to_line ps)).
  destruct (limpio_round_trips p Hp) as [-> _]. now rewrite IH.
Qed.

(** Reloading the text written for a well-keyed dict of clean records
    gives the dict back. *)
Lemma cargar_file_text (s : Inventario) (d : dict) :
  read_fault (archivo s) = None ->
  contents (archivo s) = Some (file_text d) ->
  keyed_by_id d ->
  Forall (fun p => limpio p = true) (dict_values d) ->
  readlines (file_text d) = map to_line (dict_values d)
  /\ productos (snd (cargar_desde_archivo s)) = d.
Proof.
  intros Hr Hc Hkey Hclean.
  assert (Hlines : readlines (file_text d) = map to_line (dict_values d)).
  { apply readlines_to_lines. revert Hclean. apply Forall_impl.
    intros p Hp. destruct (limpio_spec p Hp) as (_ & _ & _ & H4 & H5 & _ & _).
    auto. }
  split; [exact Hlines|].
  rewrite (cargar_desde_archivo_ok s (file_text d) Hr Hc).
  cbn [snd productos]. rewrite Hlines, registros_to_lines by exact Hclean.
  apply (store_all_values [] d). exact Hkey.
Qed.

(** Writing such a dict and reloading it changes nothing in it. *)
Lemma guardar_cargar (s : Inventario) :
  write_fault (archivo s) = None -> read_fault (archivo s) = None ->
  keyed_by_id (productos s) ->
  Forall (fun p => limpio p = true) (dict_values (productos s)) ->
  productos (snd (cargar_desde_archivo (snd (guardar_todo s)))) = productos s.
Proof.
  intros Hw Hr Hkey Hclean. rewrite (guardar_todo_ok s Hw). cbn [snd].
  now apply cargar_file_text.
Qed.

(** C8, as amended: [to_line] gives the four fields id, name, quantity and
    price joined by the separator and ended by a newline; that text is
    exactly one line whenever the id and the name hold no line break; and
    after adding the record P1, Bolt, 10, 0.50 to a store created on a
    missing file, the file holds exactly the line [P1|Bolt|10|0.5]. *)
Theorem to_line_format :
  (forall p,
     to_line p
     = join FIELD_SEP
         [id p; nombre p; str_of_int (cantidad p); float_repr (precio p)]
       ++ String LF EmptyString)
  /\ (forall p,
        no_line_break (id p) = true -> no_line_break (nombre p) = true ->
        readlines (to_line p) = [to_line p])
  /\ float_of_str "0.50" = Some half
  /\ productos (Inventario_init INVENTARIO_FILE no_file) = []
  /\ contents (archivo (Inventario_init INVENTARIO_FILE no_file))
     = Some EmptyString
  /\ fst (añadir_producto bolt (Inventario_init INVENTARIO_FILE no_file)) = true
  /\ contents (archivo store_bolt)
     = Some ("P1|Bolt|10|0.5" ++ String LF EmptyString)
  /\ readlines ("P1|Bolt|10|0.5" ++ String LF EmptyString)
     = ["P1|Bolt|10|0.5" ++ String LF EmptyString].
Proof.
  split; [|split].
  - intros p. rewrite <- cuerpo_join. apply to_line_cuerpo.
  - intros p Hid Hnom.
    pose proof (readlines_to_lines [p]) as H. cbn [map concat_all] in H.
    rewrite append_nil_r in H. apply H. constructor; [auto | constructor].
  - vm_compute. repeat split; reflexivity.
Qed.

Lemma to_line_format_bolt :
  to_line bolt = "P1|Bolt|10|0.5" ++ String LF EmptyString
  /\ readlines (to_line bolt) = [to_line bolt].
Proof.
  destruct to_line_format as (Hjoin & Hone & _).
  split; [rewrite Hjoin; vm_compute; reflexivity|].
  apply (Hone bolt); reflexivity.
Defined.

(** C8 as stated fails: a name with a line break in it is written as it
    is, and the text of the record is two lines. *)
Lemma to_line_of_two_line_name :
  to_line two_lines
  = "P1|Bo" ++ String LF ("lt|10|0.5" ++ String LF EmptyString)
  /\ readlines (to_line two_lines)
     = ["P1|Bo" ++ String LF EmptyString; "lt|10|0.5" ++ String LF EmptyString]
  /\ registros (readlines (to_line two_lines)) = [].
Proof. vm_compute. repeat split; reflexivity. Qed.

(** Text that does not end in ["\r"] is translated on its own. *)
Lemma universal_newlines_app (a b : string) :
  a = EmptyString \/ ends_with (fun c => negb (Ascii.eqb c CR)) a = true ->
  universal_newlines (a ++ b) = universal_newlines a ++ universal_newlines b.
Proof.
  assert (H : forall n a, (String.length a <= n)%nat ->
            a = EmptyString \/ ends_with (fun c => negb (Ascii.eqb c CR)) a = true ->
            universal_newlines (a ++ b)
            = universal_newlines a ++ universal_newlines b).
  { clear a. induction n as [|n IH]; intros [|c t] Hlen Hend;
      try reflexivity; simpl in Hlen; [lia|].
    destruct Hend as [Hend|Hend]; [discriminate|].
    assert (Ht : forall t', (String.length t' <= n)%nat ->
              t' = EmptyString \/ ends_with (fun c => negb (Ascii.eqb c CR)) t' = true ->
              universal_newlines (t' ++ b)
              = universal_newlines t' ++ universal_newlines b)
      by (intros; now apply IH).
    change (String c t ++ b) with (String c (t ++ b)).
    cbn [universal_newlines]. destruct (Ascii.eqb c CR) eqn:E.
    - destruct t as [|c' t']; [simpl in Hend; rewrite E in Hend; discriminate|].
      change (String c' t' ++ b) with (String c' (t' ++ b)).
      cbn [append]. f_equal.
      assert (Hend' : ends_with (fun c => negb (Ascii.eqb c CR)) (String c' t') = true)
        by exact Hend.
      destruct (Ascii.eqb c' LF) eqn:E'.
      + apply Ht; [simpl in Hlen; lia|].
        destruct t' as [|c'' t'']; [now left | right; exact Hend'].
      + change (String c' (t' ++ b)) with (String c' t' ++ b).
        apply Ht; [simpl in *; lia | now right].
    - cbn [append]. f_equal. apply Ht; [lia|].
      destruct t as [|c' t']; [now left | right; exact Hend]. }
  apply (H (String.length a)). lia.
Qed.

Lemma keepends_nonempty (c : ascii) (t : string) :
  keepends (String c t) <> [].
Proof.
  simpl. destruct (Ascii.eqb c LF); [discriminate|].
  destruct (keepends t); discriminate.
Qed.

(** Text that ends in ["\n"] is cut in lines on its own. *)
Lemma keepends_app (a b : string) :
  a = EmptyString \/ ends_with (fun c => Ascii.eqb c LF) a = true ->
  keepends (a ++ b) = (keepends a ++ keepends b)%list.
Proof.
  induction a as [|c t IH]; intros Hend; [reflexivity|].
  destruct Hend as [Hend|Hend]; [discriminate|].
  change (String c t ++ b) with (String c (t ++ b)).
  cbn [keepends]. destruct (Ascii.eqb c LF) eqn:E.
  - cbn [app]. f_equal. apply IH.
    destruct t as [|c' t']; [now left | right; exact Hend].
  - destruct t as [|c' t']; [simpl in Hend; congruence|].
    rewrite IH by (right; exact Hend).
    pose proof (keepends_nonempty c' t') as Hne.
    destruct (keepends (String c' t')) as [|l ls]; [contradiction|].
    reflexivity.
Qed.

Lemma ends_with_cuerpo (P : ascii -> bool) (p : Producto) :
  ends_with P (cuerpo p) = ends_with P (float_repr (precio p)).
Proof.
  unfold cuerpo. destruct (float_repr_chars (precio p)) as [_ Hne].
  do 2 (rewrite ends_with_app by discriminate;
        rewrite ends_with_cons by (apply append_nonempty; discriminate)).
  rewrite ends_with_app by discriminate.
  now rewrite ends_with_cons by exact Hne.
Qed.

(** The lines of a record are lines of any text that begins with them,
    whatever its id and name hold. *)
Lemma readlines_to_line_app (p : Producto) (rest : string) :
  readlines (to_line p ++ rest)
  = (readlines (to_line p) ++ readlines rest)%list.
Proof.
  unfold readlines.
  destruct (float_repr_chars (precio p)) as [_ Hne].
  destruct (float_repr_plain (precio p)) as (_ & _ & Hnb).
  assert (Hcr : ends_with (fun c => negb (Ascii.eqb c CR)) (cuerpo p) = true).
  { rewrite ends_with_cuerpo. apply ends_with_forallb; [exact Hne|].
    revert Hnb. apply forallb_weaken. intros c. unfold line_break.
    destruct (Ascii.eqb c LF), (Ascii.eqb c CR); simpl; congruence. }
  rewrite universal_newlines_app.
  - apply keepends_app. right. rewrite to_line_cuerpo.
    rewrite universal_newlines_app by (right; exact Hcr).
    rewrite ends_with_app by discriminate. reflexivity.
  - right. rewrite to_line_cuerpo. rewrite ends_with_app by discriminate.
    reflexivity.
Qed.

Lemma concat_all_app (a b : list string) :
  concat_all (a ++ b)%list = concat_all a ++ concat_all b.
Proof.
  induction a as [|x a IH]; [reflexivity|].
  simpl. now rewrite IH, append_assoc.
Qed.

Lemma file_text_app (d1 d2 : dict) :
  file_text (d1 ++ d2)%list = file_text d1 ++ file_text d2.
Proof.
  unfold file_text, dict_values. now rewrite !map_app, concat_all_app.
Qed.

Lemma readlines_file_text_app (d : dict) (rest : string) :
  readlines (file_text d ++ rest)
  = (readlines (file_text d) ++ readlines rest)%list.
Proof.
  induction d as [|[k v] d IH]; [reflexivity|].
  change (file_text ((k, v) :: d)) with (to_line v ++ file_text d).
  rewrite append_assoc, !readlines_to_line_app, IH.
  now rewrite app_assoc.
Qed.

(** A dict around the entry of a key it holds. *)
Lemma after_key_split (k : string) (d : dict) (v : Producto) :
  dict_get k d = Some v ->
  exists before, d = (before ++ (k, v) :: after_key k d)%list.
Proof.
  induction d as [|[k' v'] d IH]; [discriminate|]. simpl.
  destruct (String.eqb_spec k' k) as [->|Hne].
  - intros [= ->]. now exists [].
  - intros H. destruct (IH H) as [before Hb]. exists ((k', v') :: before).
    simpl. now rewrite <- Hb.
Qed.

(** The lines written for a dict around the line of a record without
    line breaks. *)
Lemma readlines_around (k : string) (d : dict) (v : Producto) :
  dict_get k d = Some v ->
  no_line_break (id v) = true -> no_line_break (nombre v) = true ->
  exists pre,
    readlines (file_text d)
    = (pre ++ to_line v :: readlines (file_text (after_key k d)))%list.
Proof.
  intros Hget Hid Hnom. destruct (after_key_split k d v Hget) as [before Hd].
  exists (readlines (file_text before)). rewrite Hd at 1.
  rewrite file_text_app, readlines_file_text_app. f_equal.
  change (file_text ((k, v) :: after_key k d))
    with (to_line v ++ file_text (after_key k d)).
  rewrite readlines_to_line_app. 
  pose proof (readlines_to_lines [v]) as H. cbn [map concat_all] in H.
  rewrite append_nil_r in H. rewrite H; [reflexivity|].
  constructor; [auto | constructor].
Qed.

(** C9, as amended: in a store that holds P1 and P2 under distinct ids, a
    successful update of P1 rewrites the file with the line of P2 at the
    place and with the text it had before; when moreover P2 is filed
    under its own id, P2 is clean (no separator and no line break in its
    id and name, no blank in front of its id, a price other than NaN) and
    no line written after the line of P2 parses to a record with the id
    of P2, the line of P2 is a line of the file and reload parses it back
    to P2, found under its id; nothing is asked of the other records. *)
Theorem actualizar_producto_keeps_others
    (s : Inventario) (r p2 : Producto) (k2 : string) :
  write_fault (archivo s) = None ->
  dict_in (id r) (productos s) = true ->
  dict_get k2 (productos s) = Some p2 -> id r <> k2 ->
  let s' := snd (actualizar_producto r s) in
  fst (actualizar_producto r s) = true
  /\ productos s' = dict_set (id r) r (productos s)
  /\ contents (archivo s') = Some (file_text (productos s'))
  /\ dict_get k2 (productos s') = Some p2
  /\ (exists i,
        nth_error (map to_line (dict_values (productos s))) i
        = Some (to_line p2)
        /\ nth_error (map to_line (dict_values (productos s'))) i
           = Some (to_line p2))
  /\ (read_fault (archivo s) = None -> k2 = id p2 -> limpio p2 = true ->
      (forall l q,
         In l (readlines (file_text (after_key k2 (productos s')))) ->
         from_line l = Some q -> id q <> id p2) ->
      In (to_line p2) (readlines (file_text (productos s')))
      /\ from_line (to_line p2) = Some p2
      /\ dict_get k2 (productos (snd (cargar_desde_archivo s'))) = Some p2
      /\ round_trips p2 = true).
Proof.
  intros Hw Hin Hp2 Hne s'.
  set (d' := dict_set (id r) r (productos s)).
  assert (Hrun : actualizar_producto r s
                 = (true, mkInventario (ruta s) d'
                            (mkFile (Some (file_text d'))
                               (read_fault (archivo s)) (write_fault (archivo s)))
                            (consola s ++ [OkUpdated (id r)]))).
  { unfold actualizar_producto, bind at 1, get_productos. rewrite Hin.
    cbn [negb]. unfold bind at 1. unfold bind at 1, set_productos.
    rewrite guardar_todo_ok by exact Hw. reflexivity. }
  subst s'. rewrite Hrun in *. cbn [fst snd productos archivo contents] in *.
  assert (Hget : dict_get k2 d' = Some p2).
  { unfold d'. now rewrite dict_get_set_other. }
  split; [reflexivity|]. split; [reflexivity|]. split; [reflexivity|].
  split; [exact Hget|]. split.
  - apply dict_get_In in Hp2. destruct (In_nth_error _ _ Hp2) as [i Hi].
    exists i. unfold dict_values. rewrite !map_map.
    rewrite (map_nth_error _ _ _ Hi).
    now rewrite (map_nth_error _ _ _ (dict_set_nth_other _ r _ _ _ _ Hne Hi)).
  - intros Hr Hk2 Hclean Hlater.
    destruct (limpio_spec p2 Hclean) as (_ & _ & _ & Hid & Hnom & _ & _).
    destruct (limpio_round_trips p2 Hclean) as [Hback Hrt].
    destruct (readlines_around k2 d' p2 Hget Hid Hnom) as [pre Hlines].
    split; [rewrite Hlines; apply in_or_app; right; now left|].
    split; [exact Hback|]. split; [|exact Hrt].
    rewrite (cargar_desde_archivo_ok _ (file_text d')) by (cbn; auto).
    cbn [snd productos]. rewrite Hlines, registros_app.
    cbn [registros flat_map]. rewrite Hback.
    fold (registros (readlines (file_text (after_key k2 d')))).
    cbn [app]. rewrite Hk2. apply store_all_last.
    intros q Hq. apply registros_spec in Hq. destruct Hq as (l & Hl & Hf).
    rewrite <- Hk2 in Hl. exact (Hlater l q Hl Hf).
Qed.

Lemma actualizar_producto_keeps_others_screw :
  let s' := snd (actualizar_producto dirty store_bolt_screw) in
  fst (actualizar_producto dirty store_bolt_screw) = true
  /\ contents (archivo s')
     = Some ("P1|a|b|5|0.5" ++ String LF ("P2|Screw|3|1.0" ++ String LF EmptyString))
  /\ dict_get "P2" (productos s') = Some screw
  /\ In (to_line screw) (readlines (file_text (productos s')))
  /\ dict_get "P2" (productos (snd (cargar_desde_archivo s'))) = Some screw
  /\ round_trips screw = true.
Proof.
  assert (Hafter : readlines (file_text (after_key "P2"
                     (productos (snd (actualizar_producto dirty store_bolt_screw)))))
                   = []) by (vm_compute; reflexivity).
  destruct (actualizar_producto_keeps_others store_bolt_screw dirty screw "P2")
    as (Hok & Hd & Hfile & Hget & _ & Hreload).
  - vm_compute; reflexivity.
  - vm_compute; reflexivity.
  - vm_compute; reflexivity.
  - discriminate.
  - destruct Hreload as (Hline & _ & Hback & Hrt).
    + vm_compute; reflexivity.
    + reflexivity.
    + vm_compute; reflexivity.
    + rewrite Hafter. intros l q [].
    + cbv zeta. split; [exact Hok|]. split.
      * rewrite Hfile. vm_compute. reflexivity.
      * split; [exact Hget|]. split; [exact Hline|].
        split; [exact Hback | exact Hrt].
Defined.

(** C9 as stated fails: the name of P2 holds the separator, so after a
    successful update of P1 the line of P2, though unchanged, has five
    parts, and reload drops it. *)
Lemma actualizar_producto_loses_washer :
  let s' := snd (actualizar_producto nut store_bolt_washer) in
  productos store_bolt_washer = [("P1", bolt); ("P2", washer)]
  /\ fst (actualizar_producto nut store_bolt_washer) = true
  /\ productos s' = [("P1", nut); ("P2", washer)]
  /\ contents (archivo s')
     = Some ("P1|Nut|5|0.5" ++ String LF ("P2|a|b|1|1.0" ++ String LF EmptyString))
  /\ productos (snd (cargar_desde_archivo s')) = [("P1", nut)]
  /\ dict_get "P2" (productos (snd (cargar_desde_archivo s'))) = None
  /\ In (WarnCorrupt "P2|a|b|1|1.0") (consola (snd (cargar_desde_archivo s'))).
Proof.
  vm_compute. repeat split; try reflexivity. do 5 right. left. reflexivity.
Qed.

(** The line of a later record can take the place of P2: a record filed
    under the id of P2 after a blank is written after the line of P2, and
    its line parses to the id of P2, so reload finds it there. *)
Lemma actualizar_producto_later_line :
  let s' := snd (actualizar_producto nut store_bolt_screw_ghost) in
  fst (actualizar_producto nut store_bolt_screw_ghost) = true
  /\ productos s' = [("P1", nut); ("P2", screw); (" P2", ghost)]
  /\ limpio screw = true
  /\ readlines (file_text (after_key "P2" (productos s')))
     = [" P2|Ghost|1|1.0" ++ String LF EmptyString]
  /\ from_line (" P2|Ghost|1|1.0" ++ String LF EmptyString)
     = Some (mkProducto "P2" "Ghost" 1 one)
  /\ dict_get "P2" (productos (snd (cargar_desde_archivo s')))
     = Some (mkProducto "P2" "Ghost" 1 one).
Proof. vm_compute. repeat split; reflexivity. Qed.

(** ** The invariant of the dict *)

Lemma productos_after_anadir (s : Inventario) (r : Producto) :
  productos (snd (añadir_producto r s)) = productos s
  \/ productos (snd (añadir_producto r s)) = dict_set (id r) r (productos s).
Proof.
  destruct (dict_in (id r) (productos s)) eqn:Hin.
  - left. apply (anadir_producto_known s r Hin).
  - right. apply (anadir_producto_new s r Hin).
Qed.

Lemma productos_after_actualizar (s : Inventario) (r : Producto) :
  productos (snd (actualizar_producto r s)) = productos s
  \/ productos (snd (actualizar_producto r s))
     = dict_set (id r) r (productos s).
Proof.
  destruct s as [rt d [txt rf wf] c].
  unfold actualizar_producto, bind, get_productos. simpl.
  destruct (dict_in (id r) d); simpl; [|now left].
  unfold guardar_todo, bind, get_ruta, get_productos, write_file. simpl.
  destruct wf as [[]|]; simpl; now right.
Qed.

Lemma productos_after_eliminar (s : Inventario) (k : string) :
  productos (snd (eliminar_producto k s)) = productos s
  \/ productos (snd (eliminar_producto k s)) = dict_del k (productos s).
Proof.
  destruct s as [rt d [txt rf wf] c].
  unfold eliminar_producto, bind, get_productos. simpl.
  destruct (dict_in k d) eqn:Hin; simpl; [|now left].
  destruct (dict_pop_in k d Hin) as (v & _ & ->).
  unfold guardar_todo, bind, get_ruta, get_productos, set_productos,
    write_file. simpl.
  destruct wf as [[]|]; simpl; now right.
Qed.

Lemma productos_after_cargar (s : Inventario) :
  productos (snd (cargar_desde_archivo s)) = productos s
  \/ exists ps, productos (snd (cargar_desde_archivo s)) = dict_of ps.
Proof.
  destruct (fst (read_file s)) as [e|ls] eqn:Hf.
  - left. destruct (cargar_desde_archivo_fault s e Hf) as (f' & rest & ->).
    reflexivity.
  - right. unfold read_file in Hf. simpl in Hf.
    destruct (read_fault (archivo s)) eqn:Hr; [discriminate|].
    destruct (contents (archivo s)) as [c|] eqn:Hc; [|discriminate].
    rewrite (cargar_desde_archivo_ok s c Hr Hc). simpl. eauto.
Qed.

(** Every operation of the store keeps each entry of the dict filed under
    the id of its record, once; a store just created is so. *)
Lemma keyed_by_id_kept (s : Inventario) :
  keyed_by_id (productos s) ->
  (forall r, keyed_by_id (productos (snd (añadir_producto r s))))
  /\ (forall r, keyed_by_id (productos (snd (actualizar_producto r s))))
  /\ (forall k, keyed_by_id (productos (snd (eliminar_producto k s))))
  /\ keyed_by_id (productos (snd (cargar_desde_archivo s))).
Proof.
  intros Hkey.
  split; [|split; [|split]].
  - intros r. destruct (productos_after_anadir s r) as [-> | ->];
      [exact Hkey | now apply dict_set_keyed].
  - intros r. destruct (productos_after_actualizar s r) as [-> | ->];
      [exact Hkey | now apply dict_set_keyed].
  - intros k. destruct (productos_after_eliminar s k) as [-> | ->];
      [exact Hkey | now apply dict_del_keyed].
  - destruct (productos_after_cargar s) as [-> | [ps ->]];
      [exact Hkey |]. apply store_all_keyed. split; constructor.
Qed.

Lemma keyed_by_id_init (r : string) (f : file) :
  keyed_by_id (productos (Inventario_init r f)).
Proof.
  unfold Inventario_init, bind.
  destruct (ensure_file_exists_frame (mkInventario r [] f [])) as (f' & m & ->).
  apply keyed_by_id_kept. split; constructor.
Qed.

(** * The store in use *)

(** ** The three mutations when the file can be written *)

Lemma anadir_producto_ok (s : Inventario) (r : Producto) :
  dict_in (id r) (productos s) = false -> write_fault (archivo s) = None ->
  añadir_producto r s
  = (true, mkInventario (ruta s) (dict_set (id r) r (productos s))
             (mkFile (Some (file_text (dict_set (id r) r (productos s))))
                (read_fault (archivo s)) (write_fault (archivo s)))
             (consola s ++ [OkAdded (nombre r)])).
Proof.
  intros Hin Hw. unfold añadir_producto, bind at 1, get_productos.
  rewrite Hin. unfold bind at 1. unfold bind at 1, set_productos.
  rewrite guardar_todo_ok by exact Hw. reflexivity.
Qed.

Lemma actualizar_producto_ok (s : Inventario) (r : Producto) :
  dict_in (id r) (productos s) = true -> write_fault (archivo s) = None ->
  actualizar_producto r s
  = (true, mkInventario (ruta s) (dict_set (id r) r (productos s))
             (mkFile (Some (file_text (dict_set (id r) r (productos s))))
                (read_fault (archivo s)) (write_fault (archivo s)))
             (consola s ++ [OkUpdated (id r)])).
Proof.
  intros Hin Hw. unfold actualizar_producto, bind at 1, get_productos.
  rewrite Hin. cbn [negb]. unfold bind at 1. unfold bind at 1, set_productos.
  rewrite guardar_todo_ok by exact Hw. reflexivity.
Qed.

Lemma eliminar_producto_ok (s : Inventario) (k : string) (v : Producto) :
  dict_get k (productos s) = Some v -> write_fault (archivo s) = None ->
  eliminar_producto k s
  = (true, mkInventario (ruta s) (dict_del k (productos s))
             (mkFile (Some (file_text (dict_del k (productos s))))
                (read_fault (archivo s)) (write_fault (archivo s)))
             (consola s ++ [OkDeleted (nombre v)])).
Proof.
  intros Hget Hw. unfold eliminar_producto, bind at 1, get_productos.
  unfold dict_in, dict_pop. rewrite Hget. cbn [negb].
  unfold bind at 1. unfold bind at 1, set_productos.
  rewrite guardar_todo_ok by exact Hw. reflexivity.
Qed.

Lemma dict_in_false_keys (k : string) (d : dict) :
  dict_in k d = false -> ~ In k (dict_keys d).
Proof.
  intros H Hin. apply dict_in_keys in Hin. congruence.
Qed.

(** X1: adding a record under a new id, when the file can be written,
    returns [True]: the record goes last in the dict, the file is
    rewritten as the lines of the old dict followed by the line of the
    record, the success is printed, and a lookup finds the record. *)
Theorem anadir_producto_saves (s : Inventario) (r : Producto) :
  dict_in (id r) (productos s) = false -> write_fault (archivo s) = None ->
  let s' := snd (añadir_producto r s) in
  fst (añadir_producto r s) = true
  /\ productos s' = (productos s ++ [(id r, r)])%list
  /\ contents (archivo s') = Some (file_text (productos s) ++ to_line r)
  /\ consola s' = (consola s ++ [OkAdded (nombre r)])%list
  /\ obtener_producto (id r) s' = (Some r, s').
Proof.
  intros Hin Hw s'. subst s'. rewrite (anadir_producto_ok s r Hin Hw).
  cbn [fst snd productos archivo contents consola].
  rewrite (dict_set_fresh _ r _ (dict_in_false_keys _ _ Hin)).
  split; [reflexivity|]. split; [reflexivity|]. split; [|split].
  - rewrite file_text_app. unfold file_text at 2. simpl.
    now rewrite append_nil_r.
  - reflexivity.
  - unfold obtener_producto, bind, get_productos, ret.
    cbn [productos].
    rewrite <- (dict_set_fresh _ r _ (dict_in_false_keys _ _ Hin)).
    now rewrite dict_get_set_same.
Qed.

Lemma anadir_producto_saves_screw :
  fst (añadir_producto screw store_bolt) = true
  /\ productos store_bolt_screw = [("P1", bolt); ("P2", screw)]
  /\ contents (archivo store_bolt_screw)
     = Some ("P1|Bolt|10|0.5" ++ String LF ("P2|Screw|3|1.0" ++ String LF EmptyString))
  /\ obtener_producto "P2" store_bolt_screw = (Some screw, store_bolt_screw).
Proof.
  destruct (anadir_producto_saves store_bolt screw eq_refl eq_refl)
    as (Hok & Hd & Hf & _ & Hget).
  split; [exact Hok|]. split; [exact Hd|]. split; [|exact Hget].
  unfold store_bolt_screw. rewrite Hf. vm_compute. reflexivity.
Defined.

(** X2: deleting an id that is in the dict, when the file can be written,
    returns [True]: the id is gone, every other id keeps its record, the
    file is rewritten from what is left, and the name printed is the one
    of the record that was removed. *)
Theorem eliminar_producto_removes (s : Inventario) (k : string) (v : Producto) :
  dict_get k (productos s) = Some v -> write_fault (archivo s) = None ->
  let s' := snd (eliminar_producto k s) in
  fst (eliminar_producto k s) = true
  /\ dict_get k (productos s') = None
  /\ (forall k', k' <> k ->
        dict_get k' (productos s') = dict_get k' (productos s))
  /\ (forall kv, In kv (productos s') -> In kv (productos s))
  /\ contents (archivo s') = Some (file_text (productos s'))
  /\ consola s' = (consola s ++ [OkDeleted (nombre v)])%list.
Proof.
  intros Hget Hw s'. subst s'. rewrite (eliminar_producto_ok s k v Hget Hw).
  cbn [fst snd productos archivo contents consola].
  split; [reflexivity|]. split; [apply dict_get_del_same|].
  split; [|split; [|split; reflexivity]].
  - intros k' Hne. apply dict_get_del_other. congruence.
  - intros kv. apply dict_del_entries.
Qed.

Lemma eliminar_producto_removes_bolt :
  let s' := snd (eliminar_producto "P1" store_bolt_screw) in
  fst (eliminar_producto "P1" store_bolt_screw) = true
  /\ dict_get "P1" (productos s') = None
  /\ dict_get "P2" (productos s') = Some screw
  /\ contents (archivo s') = Some ("P2|Screw|3|1.0" ++ String LF EmptyString)
  /\ consola s' = (consola store_bolt_screw ++ [OkDeleted "Bolt"])%list.
Proof.
  destruct (eliminar_producto_removes store_bolt_screw "P1" bolt eq_refl eq_refl)
    as (Hok & Hgone & Hothers & _ & Hf & Hc).
  cbv zeta. split; [exact Hok|]. split; [exact Hgone|]. split; [|split].
  - rewrite (Hothers "P2"); [reflexivity | discriminate].
  - rewrite Hf. vm_compute. reflexivity.
  - exact Hc.
Defined.
(** ** What a mutation leaves alone *)

(** X3: whatever their outcome, add, update and delete leave the record
    of every other id as it was, and update neither adds, removes nor
    reorders ids. *)
Theorem mutations_touch_one_id (s : Inventario) (k : string) :
  (forall r, id r <> k ->
     dict_get k (productos (snd (añadir_producto r s)))
     = dict_get k (productos s))
  /\ (forall r, id r <> k ->
        dict_get k (productos (snd (actualizar_producto r s)))
        = dict_get k (productos s))
  /\ (forall k', k' <> k ->
        dict_get k (productos (snd (eliminar_producto k' s)))
        = dict_get k (productos s))
  /\ (forall r,
        dict_keys (productos (snd (actualizar_producto r s)))
        = dict_keys (productos s)).
Proof.
  split; [|split; [|split]].
  - intros r Hne. destruct (productos_after_anadir s r) as [-> | ->];
      [reflexivity | now apply dict_get_set_other].
  - intros r Hne. destruct (productos_after_actualizar s r) as [-> | ->];
      [reflexivity | now apply dict_get_set_other].
  - intros k' Hne. destruct (productos_after_eliminar s k') as [-> | ->];
      [reflexivity | now apply dict_get_del_other].
  - intros r. destruct (dict_in (id r) (productos s)) eqn:Hin.
    + destruct (productos_after_actualizar s r) as [-> | ->];
        [reflexivity|]. now rewrite dict_keys_set, Hin.
    + unfold actualizar_producto, bind, get_productos. now rewrite Hin.
Qed.

Lemma mutations_touch_one_id_screw :
  dict_get "P2" (productos (snd (añadir_producto nut store_bolt_screw)))
  = Some screw
  /\ dict_get "P2" (productos (snd (actualizar_producto nut store_bolt_screw)))
     = Some screw
  /\ dict_get "P2" (productos (snd (eliminar_producto "P1" store_bolt_screw)))
     = Some screw
  /\ dict_keys (productos (snd (actualizar_producto nut store_bolt_screw)))
     = ["P1"; "P2"].
Proof.
  destruct (mutations_touch_one_id store_bolt_screw "P2")
    as (Hadd & Hup & Hdel & Hkeys).
  split; [|split; [|split]].
  - rewrite (Hadd nut); [reflexivity | discriminate].
  - rewrite (Hup nut); [reflexivity | discriminate].
  - rewrite (Hdel "P1"); [reflexivity | discriminate].
  - rewrite (Hkeys nut). reflexivity.
Defined.


(** ** Creating the store *)

Lemma ensure_file_exists_present (s : Inventario) (c : string) :
  contents (archivo s) = Some c -> _ensure_file_exists s = (tt, s).
Proof.
  intros H. unfold _ensure_file_exists, bind, get_ruta, path_exists.
  now rewrite H.
Qed.



(** X6: creating the store on a file that exists never changes the
    file, whether it can be read or not. *)
Theorem Inventario_init_keeps_file (r : string) (f : file) (c : string) :
  contents f = Some c -> archivo (Inventario_init r f) = f.
Proof.
  intros Hc. unfold Inventario_init, bind.
  rewrite (ensure_file_exists_present _ c) by exact Hc.
  destruct f as [txt rf wf]. simpl in Hc. subst txt.
  unfold cargar_desde_archivo, bind, get_ruta, read_file. simpl.
  destruct rf as [[]|]; try reflexivity.
  unfold set_productos. rewrite for_each_cargar. reflexivity.
Qed.

Lemma Inventario_init_keeps_file_locked :
  archivo (Inventario_init INVENTARIO_FILE
             (mkFile (Some text_with_short_line) (Some PermissionError) None))
  = mkFile (Some text_with_short_line) (Some PermissionError) None.
Proof.
  exact (Inventario_init_keeps_file INVENTARIO_FILE
           (mkFile (Some text_with_short_line) (Some PermissionError) None)
           text_with_short_line eq_refl).
Defined.

(** X7: what was saved is what the next run starts with: when the file
    holds the lines of a dict that is keyed by id and made of clean
    records, a store created on that file has the same dict, and the
    file is untouched. *)
Theorem saved_store_restarts (s : Inventario) :
  saved s -> read_fault (archivo s) = None ->
  keyed_by_id (productos s) ->
  Forall (fun p => limpio p = true) (dict_values (productos s)) ->
  productos (Inventario_init (ruta s) (archivo s)) = productos s
  /\ archivo (Inventario_init (ruta s) (archivo s)) = archivo s.
Proof.
  intros Hs Hr Hkey Hclean. unfold saved in Hs.
  split; [|now apply (Inventario_init_keeps_file _ _ _ Hs)].
  unfold Inventario_init, bind.
  rewrite (ensure_file_exists_present _ (file_text (productos s)))
    by exact Hs.
  apply (cargar_file_text (mkInventario (ruta s) [] (archivo s) []));
    assumption.
Qed.

Lemma saved_store_restarts_screw :
  productos (Inventario_init INVENTARIO_FILE (archivo store_bolt_screw))
  = [("P1", bolt); ("P2", screw)]
  /\ archivo (Inventario_init INVENTARIO_FILE (archivo store_bolt_screw))
     = archivo store_bolt_screw.
Proof.
  apply (saved_store_restarts store_bolt_screw).
  - reflexivity.
  - reflexivity.
  - split.
    + repeat constructor; simpl; intuition discriminate.
    + repeat constructor.
  - repeat constructor.
Defined.

(** X20: a reload that finds no file does not empty the store: it
    prints the not-found warning and creates an empty file, or reports
    that it cannot, and in both cases keeps the dict it had, which the
    file no longer backs. *)
Theorem cargar_desde_archivo_missing (s : Inventario) :
  contents (archivo s) = None -> read_fault (archivo s) = None ->
  cargar_desde_archivo s
  = (tt,
     match write_fault (archivo s) with
     | None =>
         mkInventario (ruta s) (productos s)
           (mkFile (Some EmptyString) None None)
           (consola s ++ [WarnNotFound (ruta s); InfoCreated (ruta s)])
     | Some e =>
         mkInventario (ruta s) (productos s) (archivo s)
           (consola s ++ [WarnNotFound (ruta s); create_diagnostic (ruta s) e])
     end).
Proof.
  destruct s as [rt d [txt rf wf] c]. simpl. intros -> ->.
  unfold cargar_desde_archivo, _ensure_file_exists, bind, get_ruta,
    read_file, path_exists, write_file. simpl.
  destruct wf as [[]|]; unfold print; simpl; rewrite <- ?app_assoc;
    reflexivity.
Qed.

Lemma cargar_desde_archivo_missing_bolt :
  cargar_desde_archivo (mkInventario INVENTARIO_FILE [("P1", bolt)] no_file [])
  = (tt,
     mkInventario INVENTARIO_FILE [("P1", bolt)]
       (mkFile (Some EmptyString) None None)
       [WarnNotFound INVENTARIO_FILE; InfoCreated INVENTARIO_FILE]).
Proof.
  exact (cargar_desde_archivo_missing
           (mkInventario INVENTARIO_FILE [("P1", bolt)] no_file [])
           eq_refl eq_refl).
Defined.

(** ** Any sequence of calls *)

Lemma ruta_after_guardar (s : Inventario) :
  ruta (snd (guardar_todo s)) = ruta s
  /\ productos (snd (guardar_todo s)) = productos s.
Proof.
  destruct s as [rt d [txt rf wf] c].
  unfold guardar_todo, bind, get_ruta, get_productos, write_file. simpl.
  destruct wf as [[]|]; split; reflexivity.
Qed.

Lemma ruta_after_llamar (c : llamada) (s : Inventario) :
  ruta (llamar c s) = ruta s.
Proof.
  destruct c as [r|r|k|k| |]; cbn [llamar].
  - destruct s as [rt d [txt rf wf] c].
    unfold añadir_producto, bind, get_productos. simpl.
    destruct (dict_in (id r) d); simpl; [reflexivity|].
    unfold guardar_todo, bind, get_ruta, get_productos, write_file. simpl.
    destruct wf as [[]|]; reflexivity.
  - destruct s as [rt d [txt rf wf] c].
    unfold actualizar_producto, bind, get_productos. simpl.
    destruct (dict_in (id r) d); simpl; [|reflexivity].
    unfold guardar_todo, bind, get_ruta, get_productos, write_file. simpl.
    destruct wf as [[]|]; reflexivity.
  - destruct s as [rt d [txt rf wf] c].
    unfold eliminar_producto, bind, get_productos. simpl.
    destruct (dict_in k d) eqn:Hin; simpl; [|reflexivity].
    destruct (dict_pop_in k d Hin) as (v & _ & ->).
    unfold guardar_todo, bind, get_ruta, get_productos, set_productos,
      write_file. simpl.
    destruct wf as [[]|]; reflexivity.
  - reflexivity.
  - destruct (fst (read_file s)) as [e|ls] eqn:Hf.
    + destruct (cargar_desde_archivo_fault s e Hf) as (f' & rest & ->).
      reflexivity.
    + unfold read_file in Hf. simpl in Hf.
      destruct (read_fault (archivo s)) eqn:Hr; [discriminate|].
      destruct (contents (archivo s)) as [txt|] eqn:Hc; [|discriminate].
      now rewrite (cargar_desde_archivo_ok s txt Hr Hc).
  - apply ruta_after_guardar.
Qed.

Lemma keyed_after_llamar (c : llamada) (s : Inventario) :
  keyed_by_id (productos s) -> keyed_by_id (productos (llamar c s)).
Proof.
  intros Hkey. destruct (keyed_by_id_kept s Hkey) as (Ha & Hu & He & Hc).
  destruct c as [r|r|k|k| |]; cbn [llamar]; auto.
  now destruct (ruta_after_guardar s) as [_ ->].
Qed.

(** X8: after any sequence of calls on a store just created, every
    entry of the dict is filed under the id of its own record, no id
    occurs twice, and the path of the file is the one given at
    creation. *)
Theorem historia_keyed_by_id (r : string) (f : file) (cs : list llamada) :
  keyed_by_id (productos (historia cs (Inventario_init r f)))
  /\ ruta (historia cs (Inventario_init r f)) = r.
Proof.
  assert (H0 : keyed_by_id (productos (Inventario_init r f))
               /\ ruta (Inventario_init r f) = r).
  { split; [apply keyed_by_id_init|]. unfold Inventario_init, bind.
    destruct (ensure_file_exists_frame (mkInventario r [] f []))
      as (f' & m & ->).
    apply (ruta_after_llamar Cargar). }
  revert H0. generalize (Inventario_init r f). unfold historia.
  induction cs as [|c cs IH]; intros s [Hk Hr]; [now split|].
  cbn [fold_left]. apply IH. split.
  - now apply keyed_after_llamar.
  - now rewrite ruta_after_llamar.
Qed.
(** * Lines read from a file *)

(** ** Blanks around a line *)

Section StripMore.

Variable P : ascii -> bool.

Lemma lstrip_by_blanks (pre s : string) :
  forallb P pre = true -> lstrip_by P (pre ++ s) = lstrip_by P s.
Proof.
  induction pre as [|c pre IH]; simpl; [reflexivity|].
  rewrite andb_true_iff. intros [-> H]. now apply IH.
Qed.

Lemma rstrip_by_blanks (s post : string) :
  forallb P post = true -> rstrip_by P (s ++ post) = rstrip_by P s.
Proof.
  intros H. induction s as [|c s IH]; simpl.
  - now apply rstrip_by_all.
  - now rewrite IH.
Qed.

Lemma strip_by_blanks (pre s post : string) :
  forallb P pre = true -> forallb P post = true ->
  strip_by P (pre ++ s ++ post) = strip_by P s.
Proof.
  intros Hpre Hpost. unfold strip_by. rewrite lstrip_by_blanks by exact Hpre.
  induction s as [|c s IH]; simpl.
  - rewrite (rstrip_by_all P (lstrip_by P post)); [reflexivity|].
    clear Hpre. induction post as [|x post IHp]; [reflexivity|].
    simpl in *. apply andb_true_iff in Hpost. destruct Hpost as [-> Hp].
    now apply IHp.
  - destruct (P c); [exact IH|].
    change (String c (s ++ post)) with (String c s ++ post).
    now apply rstrip_by_blanks.
Qed.

Lemma lstrip_by_start (s : string) : starts_with P (lstrip_by P s) = false.
Proof.
  induction s as [|c s IH]; simpl; [reflexivity|].
  destruct (P c) eqn:E; [exact IH | exact E].
Qed.

Lemma rstrip_by_start (s : string) :
  starts_with P s = false -> starts_with P (rstrip_by P s) = false.
Proof.
  destruct s as [|c s]; simpl; [reflexivity|]. intros Hc.
  destruct (rstrip_by P s); [|exact Hc].
  rewrite Hc. exact Hc.
Qed.

Lemma strip_by_start (s : string) : starts_with P (strip_by P s) = false.
Proof. apply rstrip_by_start, lstrip_by_start. Qed.

Variable Q : ascii -> bool.

Lemma lstrip_by_forallb (s : string) :
  forallb Q s = true -> forallb Q (lstrip_by P s) = true.
Proof.
  induction s as [|c s IH]; simpl; [reflexivity|]. intros H.
  destruct (P c); [|exact H].
  apply andb_true_iff in H. now apply IH.
Qed.

Lemma rstrip_by_forallb (s : string) :
  forallb Q s = true -> forallb Q (rstrip_by P s) = true.
Proof.
  induction s as [|c s IH]; simpl; [reflexivity|].
  rewrite andb_true_iff. intros [Hc Hs]. specialize (IH Hs).
  destruct (rstrip_by P s).
  - destruct (P c); [reflexivity|]. simpl. now rewrite Hc.
  - simpl in *. now rewrite Hc, IH.
Qed.

Lemma strip_by_forallb (s : string) :
  forallb Q s = true -> forallb Q (strip_by P s) = true.
Proof. intros H. now apply rstrip_by_forallb, lstrip_by_forallb. Qed.

End StripMore.

Lemma split_forallb (Q : ascii -> bool) (sep : ascii) (s : string) :
  forallb Q s = true -> Forall (fun x => forallb Q x = true) (split sep s).
Proof.
  induction s as [|c s IH]; simpl.
  - intros _. repeat constructor.
  - rewrite andb_true_iff. intros [Hc Hs]. specialize (IH Hs).
    destruct (Ascii.eqb c sep).
    + constructor; [reflexivity | exact IH].
    + destruct (split sep s) as [|x xs].
      * repeat constructor. simpl. now rewrite Hc.
      * inversion IH; subst. constructor; [|assumption].
        simpl. now rewrite Hc.
Qed.

Lemma split_lacks (sep : ascii) (s : string) :
  Forall (fun x => lacks sep x = true) (split sep s).
Proof.
  induction s as [|c s IH]; simpl.
  - repeat constructor.
  - destruct (Ascii.eqb c sep) eqn:E.
    + constructor; [reflexivity | exact IH].
    + destruct (split sep s) as [|x xs].
      * repeat constructor. unfold lacks. simpl. now rewrite E.
      * inversion IH; subst. constructor; [|assumption].
        unfold lacks in *. simpl. now rewrite E.
Qed.

Lemma split_start (P : ascii -> bool) (sep : ascii) (s a : string)
    (rest : list string) :
  split sep s = a :: rest -> starts_with P s = false ->
  starts_with P a = false.
Proof.
  destruct s as [|c s]; simpl.
  - intros [= <- _] _. reflexivity.
  - destruct (Ascii.eqb c sep).
    + intros [= <- _] _. reflexivity.
    + destruct (split sep s); intros [= <- _] H; exact H.
Qed.

(** The four fields of a line that parses. *)
Lemma from_line_parts (l : string) (p : Producto) :
  from_line l = Some p ->
  exists cantidad_s precio_s,
    split FIELD_SEP (strip l) = [id p; nombre p; cantidad_s; precio_s]
    /\ int_of_str cantidad_s = Some (cantidad p)
    /\ float_of_str precio_s = Some (precio p).
Proof.
  unfold from_line. intros H.
  destruct (split FIELD_SEP (strip l)) as [|a [|b [|c [|d [|x t]]]]];
    try discriminate.
  destruct (int_of_str c) as [n|] eqn:Hn; [|discriminate].
  destruct (float_of_str d) as [x|] eqn:Hx; [|discriminate].
  injection H as <-. exists c, d. auto.
Qed.

(** X9: blanks around a line do not matter to [from_line]: whitespace
    in front of the line and after it, line ends included, is dropped
    before the line is split. *)
Theorem from_line_ignores_blanks (pre l post : string) :
  forallb isspace pre = true -> forallb isspace post = true ->
  from_line (pre ++ l ++ post) = from_line l.
Proof.
  intros Hpre Hpost. unfold from_line, strip.
  now rewrite strip_by_blanks.
Qed.

Lemma from_line_ignores_blanks_crlf :
  from_line ("  " ++ "P1|Bolt|10|0.5" ++ String CR (String LF EmptyString))
  = from_line "P1|Bolt|10|0.5".
Proof.
  apply (from_line_ignores_blanks "  " "P1|Bolt|10|0.5"
           (String CR (String LF EmptyString))); reflexivity.
Defined.

Lemma from_line_clean (l : string) (p : Producto) :
  from_line l = Some p ->
  lacks FIELD_SEP (id p) = true /\ lacks FIELD_SEP (nombre p) = true
  /\ starts_with isspace (id p) = false
  /\ is_float (precio p) = true.
Proof.
  intros H. pose proof (from_line_is_float l p H) as Hfl.
  destruct (from_line_parts l p H) as (c & d & Hsplit & _ & _).
  pose proof (split_lacks FIELD_SEP (strip l)) as Hl. rewrite Hsplit in Hl.
  inversion Hl as [|? ? H1 Hl']; subst. inversion Hl' as [|? ? H2 _]; subst.
  repeat split; try assumption.
  apply (split_start isspace _ _ _ _ Hsplit). apply strip_by_start.
Qed.

(** X10: a record that [from_line] returns is one its own line gives
    back: its id and name hold no separator, its id does not begin with
    whitespace, its price is a float, and parsing the line [to_line]
    writes for it returns the same record. *)
Theorem from_line_to_line_from_line (l : string) (p : Producto) :
  from_line l = Some p ->
  lacks FIELD_SEP (id p) = true /\ lacks FIELD_SEP (nombre p) = true
  /\ starts_with isspace (id p) = false
  /\ from_line (to_line p) = Some p.
Proof.
  intros H. destruct (from_line_clean l p H) as (H1 & H2 & H3 & H4).
  repeat split; try assumption.
  apply from_line_to_line_same; try assumption.
  now apply float_of_str_repr.
Qed.

Lemma from_line_to_line_from_line_padded :
  from_line " P1|Bolt |010| .5 " = Some (mkProducto "P1" "Bolt " 10 half)
  /\ to_line (mkProducto "P1" "Bolt " 10 half)
     = "P1|Bolt |10|0.5" ++ String LF EmptyString
  /\ from_line (to_line (mkProducto "P1" "Bolt " 10 half))
     = Some (mkProducto "P1" "Bolt " 10 half).
Proof.
  assert (H : from_line " P1|Bolt |010| .5 "
              = Some (mkProducto "P1" "Bolt " 10 half))
    by (vm_compute; reflexivity).
  split; [exact H|]. split; [vm_compute; reflexivity|].
  apply (from_line_to_line_from_line _ _ H).
Defined.
(** ** Lines as [readlines] gives them *)

Lemma universal_newlines_lacks_CR (s : string) :
  lacks CR (universal_newlines s) = true.
Proof.
  assert (H : forall n s, (String.length s <= n)%nat ->
                          lacks CR (universal_newlines s) = true).
  { clear s. induction n as [|n IH]; intros [|c s] Hlen;
      try reflexivity; simpl in Hlen; [lia|].
    cbn [universal_newlines]. destruct (Ascii.eqb c CR) eqn:E.
    - unfold lacks. cbn [forallb]. change (negb (Ascii.eqb LF CR)) with true.
      cbn [andb]. destruct s as [|c' s']; [reflexivity|].
      destruct (Ascii.eqb c' LF); apply IH; simpl in *; lia.
    - unfold lacks. cbn [forallb]. rewrite E. cbn [negb andb].
      apply IH. lia. }
  apply (H (String.length s)). lia.
Qed.

Lemma keepends_forallb (Q : ascii -> bool) (s : string) :
  forallb Q s = true -> Forall (fun l => forallb Q l = true) (keepends s).
Proof.
  induction s as [|c s IH]; simpl; [constructor|].
  rewrite andb_true_iff. intros [Hc Hs]. specialize (IH Hs).
  destruct (Ascii.eqb c LF).
  - constructor; [|exact IH]. simpl. now rewrite Hc.
  - destruct (keepends s) as [|l ls].
    + repeat constructor. simpl. now rewrite Hc.
    + inversion IH; subst. constructor; [|assumption].
      simpl. now rewrite Hc.
Qed.

(** A line of [keepends] is a text without ["\n"], with or without a
    ["\n"] after it. *)
Lemma keepends_lines (s : string) :
  Forall (fun l => exists body,
            lacks LF body = true
            /\ (l = body \/ l = body ++ String LF EmptyString))
         (keepends s).
Proof.
  induction s as [|c s IH]; simpl; [constructor|].
  destruct (Ascii.eqb c LF) eqn:E.
  - constructor; [|exact IH]. exists EmptyString. split; [reflexivity|].
    right. apply Ascii.eqb_eq in E. now subst c.
  - destruct (keepends s) as [|l ls].
    + repeat constructor. exists (String c EmptyString). split.
      * unfold lacks. simpl. now rewrite E.
      * now left.
    + inversion IH as [|? ? (body & Hb & Hl) Hls]; subst.
      constructor; [|assumption]. exists (String c body). split.
      * unfold lacks in *. simpl. now rewrite E.
      * destruct Hl as [-> | ->]; [now left | now right].
Qed.

(** The stripped text of a line of [readlines] holds no line break. *)
Lemma readlines_strip (c l : string) :
  In l (readlines c) -> no_line_break (strip l) = true.
Proof.
  intros Hin. unfold readlines in Hin.
  pose proof (keepends_forallb _ _ (universal_newlines_lacks_CR c)) as Hcr.
  pose proof (keepends_lines (universal_newlines c)) as Hlf.
  rewrite Forall_forall in Hcr, Hlf.
  specialize (Hcr l Hin). destruct (Hlf l Hin) as (body & Hb & Hl).
  assert (Hbody : no_line_break body = true /\ strip l = strip body).
  { destruct Hl as [-> | ->].
    - split; [|reflexivity]. clear Hin Hlf.
      unfold no_line_break, lacks, line_break in *.
      induction body as [|x body IH]; [reflexivity|]. simpl in *.
      apply andb_true_iff in Hcr, Hb. destruct Hcr as [Hx1 Hcr].
      destruct Hb as [Hx2 Hb]. rewrite (IH Hcr Hb).
      apply negb_true_iff in Hx1, Hx2. now rewrite Hx1, Hx2.
    - split.
      + clear Hin Hlf. unfold lacks in Hcr. rewrite forallb_app in Hcr.
        apply andb_true_iff in Hcr. destruct Hcr as [Hcr _].
        unfold no_line_break, lacks, line_break in *.
        induction body as [|x body IH]; [reflexivity|]. simpl in *.
        apply andb_true_iff in Hcr, Hb. destruct Hcr as [Hx1 Hcr].
        destruct Hb as [Hx2 Hb]. rewrite (IH Hcr Hb).
        apply negb_true_iff in Hx1, Hx2. now rewrite Hx1, Hx2.
      + unfold strip.
        apply (strip_by_blanks isspace EmptyString body
                 (String LF EmptyString)); reflexivity. }
  destruct Hbody as [Hnb ->]. unfold no_line_break, strip.
  now apply strip_by_forallb.
Qed.

(** A record read from a line of [readlines] holds no line break. *)
Lemma readlines_record (c l : string) (p : Producto) :
  In l (readlines c) -> from_line l = Some p ->
  no_line_break (id p) = true /\ no_line_break (nombre p) = true.
Proof.
  intros Hin Hf. pose proof (readlines_strip c l Hin) as Hnb.
  destruct (from_line_parts l p Hf) as (cs & ps & Hsplit & _ & _).
  pose proof (split_forallb _ FIELD_SEP _ Hnb) as Hall.
  rewrite Hsplit in Hall.
  inversion Hall as [|? ? H1 Hall']; subst.
  inversion Hall' as [|? ? H2 _]; subst. auto.
Qed.

Lemma registros_of_lines (ps : list Producto) :
  Forall (fun p => from_line (to_line p) = Some p) ps ->
  registros (map to_line ps) = ps
  /\ corruptas (map to_line ps) = [].
Proof.
  induction 1 as [|p ps Hp _ [IH1 IH2]]; [split; reflexivity|].
  cbn [map registros corruptas flat_map].
  fold (registros (map to_line ps)). fold (corruptas (map to_line ps)).
  rewrite Hp, IH1, IH2. split; [reflexivity|].
  now destruct (blank (to_line p)).
Qed.

(** What a store holds after a load, written and read again. *)
Lemma loaded_reads_back (c : string) :
  let d := dict_of (registros (readlines c)) in
  readlines (file_text d) = map to_line (dict_values d)
  /\ registros (readlines (file_text d)) = dict_values d
  /\ corruptas (readlines (file_text d)) = []
  /\ dict_of (registros (readlines (file_text d))) = d.
Proof.
  intros d.
  assert (Hfrom : forall p, In p (dict_values d) ->
                    exists l, In l (readlines c) /\ from_line l = Some p).
  { intros p Hp. unfold dict_values in Hp. apply in_map_iff in Hp.
    destruct Hp as ([k v] & <- & Hin).
    destruct (store_all_entries _ _ _ Hin) as [[]|[Hv _]].
    now apply registros_spec in Hv. }
  assert (Hlines : readlines (file_text d) = map to_line (dict_values d)).
  { apply readlines_to_lines. apply Forall_forall. intros p Hp.
    destruct (Hfrom p Hp) as (l & Hl & Hf).
    exact (readlines_record c l p Hl Hf). }
  assert (Hback : Forall (fun p => from_line (to_line p) = Some p)
                    (dict_values d)).
  { apply Forall_forall. intros p Hp. destruct (Hfrom p Hp) as (l & _ & Hf).
    apply (from_line_to_line_from_line l p Hf). }
  destruct (registros_of_lines _ Hback) as [Hreg Hcor].
  rewrite Hlines, Hreg, Hcor. repeat split.
  apply (store_all_values [] d). apply store_all_keyed. split; constructor.
Qed.

(** X11: a file that was loaded and saved is stable: after a reload
    and a save, when both succeed, a further reload gives the same dict
    and reports no corrupt line, and a further save writes the same
    text. *)
Theorem reload_save_is_stable (s : Inventario) (c : string) :
  read_fault (archivo s) = None -> write_fault (archivo s) = None ->
  contents (archivo s) = Some c ->
  let s1 := snd (cargar_desde_archivo s) in
  let s2 := snd (guardar_todo s1) in
  let s3 := snd (cargar_desde_archivo s2) in
  fst (guardar_todo s1) = true
  /\ productos s3 = productos s1
  /\ consola s3 = (consola s2 ++ [InfoLoaded (List.length (productos s1))])%list
  /\ fst (guardar_todo s3) = true
  /\ archivo (snd (guardar_todo s3)) = archivo s2.
Proof.
  intros Hr Hw Hc s1 s2 s3. subst s3 s2 s1.
  rewrite (cargar_desde_archivo_ok s c Hr Hc). cbn [snd].
  rewrite guardar_todo_ok by exact Hw. cbn [fst snd].
  unfold with_contents. cbn [ruta productos archivo consola read_fault
    write_fault].
  destruct (loaded_reads_back c) as (_ & _ & Hcor & Hd).
  rewrite (cargar_desde_archivo_ok _
             (file_text (dict_of (registros (readlines c)))))
    by (cbn; first [assumption | reflexivity]).
  cbn [snd ruta productos archivo consola]. rewrite Hcor, Hd.
  rewrite guardar_todo_ok by (cbn; assumption).
  cbn [fst snd]. unfold with_contents. cbn. repeat split.
Qed.

Lemma reload_save_is_stable_short_line :
  let s := store_on [] text_with_short_line in
  let s1 := snd (cargar_desde_archivo s) in
  let s2 := snd (guardar_todo s1) in
  let s3 := snd (cargar_desde_archivo s2) in
  fst (guardar_todo s1) = true
  /\ productos s3 = productos s1
  /\ consola s3 = (consola s2 ++ [InfoLoaded (List.length (productos s1))])%list
  /\ fst (guardar_todo s3) = true
  /\ archivo (snd (guardar_todo s3)) = archivo s2.
Proof.
  exact (reload_save_is_stable (store_on [] text_with_short_line)
           text_with_short_line eq_refl eq_refl eq_refl).
Defined.
(** * The listing *)

Lemma length_repeat_char (c : ascii) (n : nat) :
  String.length (repeat_char c n) = n.
Proof. induction n as [|n IH]; simpl; [reflexivity | now rewrite IH]. Qed.

Lemma length_ljust (w : nat) (s : string) :
  String.length (ljust w s) = Nat.max w (String.length s).
Proof. unfold ljust. rewrite length_append, length_repeat_char. lia. Qed.

Lemma length_rjust (w : nat) (s : string) :
  String.length (rjust w s) = Nat.max w (String.length s).
Proof. unfold rjust. rewrite length_append, length_repeat_char. lia. Qed.

(** X12: a line of the listing never cuts a field: each column is as
    wide as its field when the field is wider than the column, so a
    line has 63 characters or more, 63 when the id has at most 10
    characters, the name at most 30, the quantity at most 6 and the
    price at most 8; the header has 63 and the rule under it 62. *)
Theorem fila_width (p : Producto) :
  String.length (fila p)
  = (Nat.max 10 (String.length (id p))
     + Nat.max 30 (String.length (nombre p))
     + Nat.max 6 (String.length (str_of_int (cantidad p)))
     + Nat.max 8 (String.length (format_2f (precio p))) + 9)%nat
  /\ (63 <= String.length (fila p))%nat
  /\ String.length encabezado = 63%nat
  /\ String.length regla = 62%nat.
Proof.
  assert (H : String.length (fila p)
              = (Nat.max 10 (String.length (id p))
                 + Nat.max 30 (String.length (nombre p))
                 + Nat.max 6 (String.length (str_of_int (cantidad p)))
                 + Nat.max 8 (String.length (format_2f (precio p))) + 9)%nat).
  { unfold fila, COLUMN_SEP. rewrite !length_append, !length_ljust, !length_rjust.
    simpl. lia. }
  split; [exact H|]. split; [lia|]. split; reflexivity.
Qed.

Lemma nearest_nonneg (a b : Z) : 0 <= a -> 0 < b -> 0 <= nearest a b.
Proof.
  intros Ha Hb. unfold nearest.
  pose proof (Z.div_pos a b Ha Hb).
  destruct (2 * (a mod b) ?= b); [destruct (Z.even (a / b))| |]; lia.
Qed.

Lemma ratio_pos (m : positive) (e : Z) :
  0 < fst (ratio m e) /\ 0 < snd (ratio m e).
Proof.
  unfold ratio. destruct (0 <=? e) eqn:E; cbn [fst snd].
  - apply Z.leb_le in E. pose proof (pow2_pos e E).
    split; [apply Z.mul_pos_pos|]; lia.
  - apply Z.leb_gt in E. pose proof (pow2_pos (- e)). lia.
Qed.

(** X13: the price column shows the price to the nearest hundredth:
    for a finite price the text is a sign, digits, a point and two
    digits, and the number of hundredths it denotes is within half a
    hundredth of the price. *)
Theorem format_2f_nearest_cent (s : bool) (m : positive) (e : Z) :
  exists ip fp,
    format_2f (S754_finite s m e)
    = (if s then "-" else "") ++ ip ++ String "." fp
    /\ forallb isdigit ip = true /\ ip <> EmptyString
    /\ forallb isdigit fp = true /\ String.length fp = 2%nat
    /\ 2 * Z.abs (100 * fst (ratio m e)
                  - Z_of_digits 0 (ip ++ fp) * snd (ratio m e))
       <= snd (ratio m e).
Proof.
  destruct (ratio_pos m e) as [Hnum Hden].
  set (n := cents m e).
  assert (Hn : 0 <= n).
  { unfold n, cents. destruct (ratio m e) as [num den]. cbn [fst snd] in *.
    apply nearest_nonneg; lia. }
  assert (Hnear : 2 * Z.abs (100 * fst (ratio m e) - n * snd (ratio m e))
                  <= snd (ratio m e)).
  { unfold n, cents. destruct (ratio m e) as [num den]. cbn [fst snd] in *.
    pose proof (nearest_half (100 * num) den Hden) as H.
    fold (nearest (100 * num) den) in H.
    rewrite <- Z.abs_opp.
    replace (- (100 * num - nearest (100 * num) den * den))
      with (nearest (100 * num) den * den - 100 * num) by ring.
    exact H. }
  pose proof (Z.div_pos n 100 Hn ltac:(lia)) as Hq.
  pose proof (Z.mod_pos_bound n 100 ltac:(lia)) as Hr.
  pose proof (Z.mod_pos_bound n 10 ltac:(lia)) as Hr1.
  assert (Hd1 : 0 <= n mod 100 / 10 < 10).
  { split; [apply Z.div_pos; lia|]. apply Z.div_lt_upper_bound; lia. }
  destruct (digit_char_spec _ Hd1) as [Hi1 Hv1].
  destruct (digit_char_spec _ Hr1) as [Hi2 Hv2].
  exists (str_of_nat (n / 100)),
    (String (digit_char (n mod 100 / 10))
       (String (digit_char (n mod 10)) EmptyString)).
  split; [|split; [|split; [|split; [|split]]]].
  - cbn [format_2f]. fold n. destruct s; reflexivity.
  - apply str_of_nat_isdigit.
  - apply str_of_nat_nonempty.
  - cbn [forallb]. now rewrite Hi1, Hi2.
  - reflexivity.
  - rewrite Z_of_digits_app, str_of_nat_value by exact Hq.
    cbn [Z_of_digits]. rewrite Hv1, Hv2.
    replace (10 * (10 * (n / 100) + n mod 100 / 10) + n mod 10) with n;
      [exact Hnear|].
    pose proof (Z.div_mod n 100 ltac:(lia)).
    pose proof (Z.div_mod (n mod 100) 10 ltac:(lia)).
    assert (n mod 100 mod 10 = n mod 10).
    { apply Z.mod_mod_divide. exists 10. reflexivity. }
    lia.
Qed.

(** * The menu *)

(** ** Lines are taken from the front of the input *)














(** A turn either stops on an empty input or takes a line and runs the
    branch of its choice. *)
Lemma ronda_step (t : Sesion) :
  ronda t
  = match entrada t with
    | [] => (None, tras_opcion t [])
    | l :: rest => eleccion (strip l) (tras_opcion t rest)
    end.
Proof.
  unfold ronda, io_bind, mostrar, input, tras_opcion. simpl.
  destruct (entrada t); rewrite <- app_assoc; reflexivity.
Qed.



(** ** What a turn does to the store *)

Lemma ronda_choice (t : Sesion) (l : string) (rest : list string) :
  entrada t = l :: rest -> ronda t = eleccion (strip l) (tras_opcion t rest).
Proof. intros H. now rewrite ronda_step, H. Qed.

Lemma clase_inv {A} (m : M A) (t : Sesion) :
  fst (clase m t) = Some (fst (m (inv t)))
  /\ inv (snd (clase m t)) = snd (m (inv t))
  /\ entrada (snd (clase m t)) = entrada t.
Proof. unfold clase. now destruct (m (inv t)). Qed.

Lemma skipn_length {A} (l : list A) : skipn (List.length l) l = [].
Proof. induction l; simpl; auto. Qed.

Lemma clase_obtener (k : string) (t : Sesion) :
  clase (obtener_producto k) t = (Some (dict_get k (productos (inv t))), t).
Proof.
  unfold clase, obtener_producto, bind, get_productos, ret.
  rewrite skipn_length. simpl. rewrite app_nil_r. now destruct t.
Qed.

(** X15: listing, lookup and a choice that is none of 0 to 6 leave the
    store as it is: the listing prints the table of the dict, the lookup
    asks for an id and prints its record or that there is none, and an
    unknown choice prints that it is invalid; each goes round again. *)
Theorem ronda_reads_only (t : Sesion) (l : string) (rest : list string) :
  entrada t = l :: rest ->
  (strip l = "1" ->
   ronda t
   = (Some true,
      mkSesion (inv t) rest
        (pantalla (tras_opcion t rest) ++ listado (productos (inv t)))))
  /\ (forall pid rest',
        strip l = "5" -> rest = pid :: rest' ->
        ronda t
        = (Some true,
           mkSesion (inv t) rest'
             (pantalla (tras_opcion t rest)
              ++ [Pregunta PideIdBuscar;
                  match dict_get (strip pid) (productos (inv t)) with
                  | Some p => Ficha p
                  | None => NoEncontrado
                  end])))
  /\ (~ In (strip l) ["0"; "1"; "2"; "3"; "4"; "5"; "6"] ->
      ronda t
      = (Some true,
         mkSesion (inv t) rest
           (pantalla (tras_opcion t rest) ++ [OpcionInvalida]))).
Proof.
  intros He. rewrite (ronda_choice t l rest He).
  split; [|split].
  - intros ->. reflexivity.
  - intros pid rest' -> ->. unfold eleccion. simpl (String.eqb "5" _).
    cbv iota. unfold io_bind at 1. unfold opcion_buscar, io_bind at 1.
    unfold input at 1. cbn [tras_opcion entrada inv pantalla].
    unfold io_bind at 1. rewrite clase_obtener. cbn [inv].
    destruct (dict_get (strip pid) (productos (inv t)));
      unfold mostrar, io_ret; cbn [inv entrada pantalla];
      now rewrite <- app_assoc.
  - intros Hno. unfold eleccion.
    repeat match goal with
           | |- context [if String.eqb (strip l) ?c then _ else _] =>
               destruct (String.eqb_spec (strip l) c) as [Heq|_];
               [exfalso; apply Hno; rewrite Heq; simpl; tauto|]
           end.
    reflexivity.
Qed.

Lemma ronda_reads_only_examples :
  ronda (sesion store_bolt [" 1"; "0"])
  = (Some true,
     mkSesion store_bolt ["0"]
       [Opciones; Pregunta PideOpcion; Linea encabezado; Linea regla;
        Linea "P1         | Bolt                           |     10 |     0.50"])
  /\ ronda (sesion store_bolt ["5"; "P1 "; "0"])
     = (Some true,
        mkSesion store_bolt ["0"]
          [Opciones; Pregunta PideOpcion; Pregunta PideIdBuscar; Ficha bolt])
  /\ ronda (sesion store_bolt ["salir"; "0"])
     = (Some true,
        mkSesion store_bolt ["0"]
          [Opciones; Pregunta PideOpcion; OpcionInvalida]).
Proof.
  split; [|split].
  - destruct (ronda_reads_only (sesion store_bolt [" 1"; "0"]) " 1" ["0"]
                eq_refl) as (H & _ & _).
    rewrite H by reflexivity. vm_compute. reflexivity.
  - destruct (ronda_reads_only (sesion store_bolt ["5"; "P1 "; "0"]) "5"
                ["P1 "; "0"] eq_refl) as (_ & H & _).
    rewrite (H "P1 " ["0"]) by reflexivity. vm_compute. reflexivity.
  - destruct (ronda_reads_only (sesion store_bolt ["salir"; "0"]) "salir"
                ["0"] eq_refl) as (_ & _ & H).
    rewrite H; [vm_compute; reflexivity|].
    vm_compute. intros [H'|[H'|[H'|[H'|[H'|[H'|[H'|[]]]]]]]]; discriminate H'.
Defined.
Ltac turn :=
  unfold io_bind, input, mostrar, io_ret, tras_opcion;
  cbn [entrada inv pantalla fst snd]; cbv beta.

(** X16: at choice 2 an answer that is not a number adds nothing: when
    the quantity is not an integer the price is not even asked, and
    when the price is not a float the four answers are dropped; the
    store is left as it is and the loop goes round again. *)
Theorem opcion_anadir_rejects
    (t : Sesion) (l pid nom cs : string) (rest : list string) :
  entrada t = l :: pid :: nom :: cs :: rest -> strip l = "2" ->
  (int_of_str (strip cs) = None ->
   ronda t
   = (Some true,
      mkSesion (inv t) rest
        (pantalla (tras_opcion t rest)
         ++ [Pregunta PideId; Pregunta PideNombre; Pregunta PideCantidad;
             ErrEntrada])))
  /\ (forall ps rest',
        rest = ps :: rest' ->
        int_of_str (strip cs) <> None -> float_of_str (strip ps) = None ->
        ronda t
        = (Some true,
           mkSesion (inv t) rest'
             (pantalla (tras_opcion t rest)
              ++ [Pregunta PideId; Pregunta PideNombre;
                  Pregunta PideCantidad; Pregunta PidePrecio; ErrEntrada]))).
Proof.
  intros He Hl. rewrite (ronda_choice t l _ He), Hl.
  unfold eleccion. simpl (String.eqb "2" _). cbv beta iota.
  unfold opcion_anadir. split.
  - intros Hc. turn. rewrite Hc. turn. now rewrite <- !app_assoc.
  - intros ps rest' -> Hc Hp. turn.
    destruct (int_of_str (strip cs)) as [c|]; [|contradiction].
    turn. rewrite Hp. turn. now rewrite <- !app_assoc.
Qed.

Lemma opcion_anadir_rejects_examples :
  ronda (sesion store_bolt ["2"; "P2"; "Screw"; "three"; "0"])
  = (Some true,
     mkSesion store_bolt ["0"]
       [Opciones; Pregunta PideOpcion; Pregunta PideId; Pregunta PideNombre;
        Pregunta PideCantidad; ErrEntrada])
  /\ ronda (sesion store_bolt ["2"; "P2"; "Screw"; "3"; "1,5"; "0"])
     = (Some true,
        mkSesion store_bolt ["0"]
          [Opciones; Pregunta PideOpcion; Pregunta PideId; Pregunta PideNombre;
           Pregunta PideCantidad; Pregunta PidePrecio; ErrEntrada]).
Proof.
  split.
  - destruct (opcion_anadir_rejects
                (sesion store_bolt ["2"; "P2"; "Screw"; "three"; "0"])
                "2" "P2" "Screw" "three" ["0"] eq_refl eq_refl) as [H _].
    exact (H eq_refl).
  - destruct (opcion_anadir_rejects
                (sesion store_bolt ["2"; "P2"; "Screw"; "3"; "1,5"; "0"])
                "2" "P2" "Screw" "3" ["1,5"; "0"] eq_refl eq_refl) as [_ H].
    apply (H "1,5" ["0"] eq_refl); [discriminate | reflexivity].
Defined.

Lemma lower_char_s (c : ascii) :
  lower_char c = "s"%char -> c = "s"%char \/ c = "S"%char.
Proof.
  destruct c as [[] [] [] [] [] [] [] []]; vm_compute; intros H;
    first [discriminate H | now left | now right].
Qed.

Lemma str_lower_s (x : string) : str_lower x = "s" <-> x = "s" \/ x = "S".
Proof.
  split.
  - destruct x as [|c [|c' x]]; simpl; try discriminate.
    intros [= H]. destruct (lower_char_s c H) as [-> | ->]; auto.
  - intros [-> | ->]; reflexivity.
Qed.

(** X17: choice 4 deletes only on the answer s or S, blanks around it
    aside: then [eliminar_producto] is called on the id typed, stripped;
    on any other answer the store is left as it is and nothing more is
    printed. *)
Theorem opcion_eliminar_confirm
    (t : Sesion) (l pid conf : string) (rest : list string) :
  entrada t = l :: pid :: conf :: rest -> strip l = "4" ->
  (strip conf = "s" \/ strip conf = "S" ->
   fst (ronda t) = Some true
   /\ inv (snd (ronda t)) = snd (eliminar_producto (strip pid) (inv t))
   /\ entrada (snd (ronda t)) = rest)
  /\ (strip conf <> "s" -> strip conf <> "S" ->
      ronda t
      = (Some true,
         mkSesion (inv t) rest
           (pantalla (tras_opcion t rest)
            ++ [Pregunta PideIdEliminar; Pregunta PideConfirmar]))).
Proof.
  intros He Hl. rewrite (ronda_choice t l _ He), Hl.
  unfold eleccion. simpl (String.eqb "4" _). cbv beta iota.
  unfold opcion_eliminar. split.
  - intros Hs. apply str_lower_s in Hs. turn. rewrite Hs.
    simpl (String.eqb "s" "s"). cbv beta iota.
    match goal with
    | |- context [clase ?m ?t0] =>
        destruct (clase_inv m t0) as (H1 & H2 & H3);
        destruct (clase m t0) as [[a|] t1]; [|discriminate]
    end.
    cbn [fst snd] in *. turn. auto.
  - intros H1 H2. turn.
    destruct (String.eqb_spec (str_lower (strip conf)) "s") as [Hs|_].
    + apply str_lower_s in Hs. tauto.
    + turn. now rewrite <- !app_assoc.
Qed.

Lemma opcion_eliminar_confirm_examples :
  productos (inv (snd (ronda (sesion store_bolt ["4"; "P1"; " S "; "0"])))) = []
  /\ ronda (sesion store_bolt ["4"; "P1"; "si"; "0"])
     = (Some true,
        mkSesion store_bolt ["0"]
          [Opciones; Pregunta PideOpcion; Pregunta PideIdEliminar;
           Pregunta PideConfirmar]).
Proof.
  split.
  - destruct (opcion_eliminar_confirm
                (sesion store_bolt ["4"; "P1"; " S "; "0"])
                "4" "P1" " S " ["0"] eq_refl eq_refl) as [H _].
    destruct H as (_ & -> & _); [now right|]. vm_compute. reflexivity.
  - destruct (opcion_eliminar_confirm
                (sesion store_bolt ["4"; "P1"; "si"; "0"])
                "4" "P1" "si" ["0"] eq_refl eq_refl) as [_ H].
    apply H; discriminate.
Defined.

Lemma dict_set_same (k : string) (v : Producto) (d : dict) :
  dict_get k d = Some v -> dict_set k v d = d.
Proof.
  induction d as [|[k' v'] d IH]; [discriminate|]. simpl.
  destruct (String.eqb_spec k' k) as [->|Hne].
  - now intros [= ->].
  - intros H. now rewrite (IH H).
Qed.

Lemma keyed_by_id_get (k : string) (v : Producto) (d : dict) :
  keyed_by_id d -> dict_get k d = Some v -> k = id v.
Proof.
  intros [_ Hall] Hget. apply dict_get_In in Hget.
  rewrite Forall_forall in Hall. exact (Hall (k, v) Hget).
Qed.

(** X18: at choice 3 an id that is not in the store ends the turn at
    once, nothing more is asked; for an id that is there, three blank
    answers keep the name, the quantity and the price: the record of
    the store is passed to [actualizar_producto] as it is, and the
    dict is the one of before. *)
Theorem opcion_actualizar_blank
    (t : Sesion) (l pid : string) (rest : list string) :
  entrada t = l :: pid :: rest -> strip l = "3" ->
  (dict_get (strip pid) (productos (inv t)) = None ->
   ronda t
   = (Some true,
      mkSesion (inv t) rest
        (pantalla (tras_opcion t rest)
         ++ [Pregunta PideIdActualizar; WarnNoExiste])))
  /\ (forall a b c rest' ex,
        rest = a :: b :: c :: rest' ->
        dict_get (strip pid) (productos (inv t)) = Some ex ->
        keyed_by_id (productos (inv t)) ->
        blank a = true -> blank b = true -> blank c = true ->
        fst (ronda t) = Some true
        /\ inv (snd (ronda t)) = snd (actualizar_producto ex (inv t))
        /\ productos (inv (snd (ronda t))) = productos (inv t)
        /\ entrada (snd (ronda t)) = rest').
Proof.
  intros He Hl. rewrite (ronda_choice t l _ He), Hl.
  unfold eleccion. simpl (String.eqb "3" _). cbv beta iota.
  unfold opcion_actualizar. split.
  - intros Hget. turn. rewrite clase_obtener. turn. rewrite Hget. turn.
    now rewrite <- !app_assoc.
  - intros a b c rest' ex -> Hget Hkey Ha Hb Hc. unfold blank in *.
    turn. rewrite clase_obtener. turn. rewrite Hget. turn.
    rewrite Ha, Hb, Hc.
    rewrite (keyed_by_id_get _ _ _ Hkey Hget).
    replace (mkProducto (id ex) (nombre ex) (cantidad ex) (precio ex))
      with ex by now destruct ex.
    match goal with
    | |- context [clase ?m ?t0] =>
        destruct (clase_inv m t0) as (H1 & H2 & H3);
        destruct (clase m t0) as [[x|] t1]; [|discriminate]
    end.
    cbn [fst snd inv entrada] in *. turn. rewrite H2.
    repeat split; try assumption.
    destruct (productos_after_actualizar (inv t) ex) as [-> | ->];
      [reflexivity|].
    apply dict_set_same. now rewrite <- (keyed_by_id_get _ _ _ Hkey Hget).
Qed.

Lemma opcion_actualizar_blank_examples :
  ronda (sesion store_bolt ["3"; "P9"; "0"])
  = (Some true,
     mkSesion store_bolt ["0"]
       [Opciones; Pregunta PideOpcion; Pregunta PideIdActualizar;
        WarnNoExiste])
  /\ productos (inv (snd (ronda (sesion store_bolt ["3"; "P1"; ""; " "; ""; "0"]))))
     = [("P1", bolt)].
Proof.
  split.
  - destruct (opcion_actualizar_blank (sesion store_bolt ["3"; "P9"; "0"])
                "3" "P9" ["0"] eq_refl eq_refl) as [H _].
    apply H. vm_compute. reflexivity.
  - destruct (opcion_actualizar_blank
                (sesion store_bolt ["3"; "P1"; ""; " "; ""; "0"])
                "3" "P1" [""; " "; ""; "0"] eq_refl eq_refl) as [_ H].
    destruct (H "" " " "" ["0"] bolt eq_refl) as (_ & _ & -> & _);
      try reflexivity.
    split.
    + repeat constructor. simpl. tauto.
    + repeat constructor.
Defined.
(** ** From the keyboard to the next run *)

Lemma after_key_last (k : string) (v : Producto) (d : dict) :
  ~ In k (dict_keys d) -> after_key k (d ++ [(k, v)])%list = [].
Proof.
  induction d as [|[k' v'] d IH]; simpl.
  - intros _. now rewrite String.eqb_refl.
  - intros H. destruct (String.eqb_spec k' k) as [->|_]; [tauto|].
    apply IH. tauto.
Qed.

(** A store created on a file whose last line is the line of a record
    finds the record under its id. *)
Lemma Inventario_init_last_line (rt : string) (f : file) (d : dict)
    (r : Producto) :
  contents f = Some (file_text (d ++ [(id r, r)])%list) -> read_fault f = None ->
  ~ In (id r) (dict_keys d) ->
  no_line_break (id r) = true -> no_line_break (nombre r) = true ->
  from_line (to_line r) = Some r ->
  dict_get (id r) (productos (Inventario_init rt f)) = Some r.
Proof.
  intros Hc Hr Hfresh Hid Hnom Hback.
  unfold Inventario_init, bind.
  rewrite (ensure_file_exists_present (mkInventario rt [] f []) _ Hc).
  rewrite (cargar_desde_archivo_ok (mkInventario rt [] f []) _ Hr Hc).
  cbn [snd productos].
  assert (Hget : dict_get (id r) (d ++ [(id r, r)])%list = Some r).
  { rewrite <- (dict_set_fresh _ r _ Hfresh). apply dict_get_set_same. }
  destruct (readlines_around _ _ _ Hget Hid Hnom) as [pre Hlines].
  rewrite after_key_last in Hlines by exact Hfresh.
  change (readlines (file_text [])) with (@nil string) in Hlines.
  rewrite Hlines, registros_app. cbn [registros flat_map]. rewrite Hback.
  cbn [app]. apply store_all_last. intros q [].
Qed.

(** X19: a product typed at choice 2 under an id that is new, with a
    quantity and a price that are numbers, is stored last in the dict
    under the id typed, stripped, and the file is rewritten; its id never
    begins with whitespace; and when the id and the name typed hold no
    separator and no line break and the price is not NaN, a store
    created later on that file finds the product under its id with the
    same name, quantity and price, whatever else the file holds. *)
Theorem menu_add_survives_restart
    (t : Sesion) (l pid nom cs ps : string) (rest : list string)
    (c : Z) (x : float) :
  entrada t = l :: pid :: nom :: cs :: ps :: rest -> strip l = "2" ->
  int_of_str (strip cs) = Some c -> float_of_str (strip ps) = Some x ->
  dict_in (strip pid) (productos (inv t)) = false ->
  write_fault (archivo (inv t)) = None ->
  let r := mkProducto (strip pid) (strip nom) c x in
  let t' := snd (ronda t) in
  fst (ronda t) = Some true
  /\ entrada t' = rest
  /\ productos (inv t') = (productos (inv t) ++ [(strip pid, r)])%list
  /\ saved (inv t')
  /\ starts_with isspace (id r) = false
  /\ (read_fault (archivo (inv t)) = None ->
      lacks FIELD_SEP (strip pid) = true ->
      lacks FIELD_SEP (strip nom) = true ->
      no_line_break pid = true -> no_line_break nom = true ->
      is_nan x = false ->
      dict_get (strip pid)
        (productos (Inventario_init (ruta (inv t)) (archivo (inv t'))))
      = Some r
      /\ round_trips r = true).
Proof.
  intros He Hl Hc Hx Hnew Hw r t'.
  assert (Hrun : inv t' = snd (añadir_producto r (inv t))
                 /\ fst (ronda t) = Some true /\ entrada t' = rest).
  { subst t'. rewrite (ronda_choice t l _ He), Hl.
    unfold eleccion. simpl (String.eqb "2" _). cbv beta iota.
    unfold opcion_anadir. turn. rewrite Hc. turn. rewrite Hx.
    match goal with
    | |- context [clase ?m ?t0] =>
        destruct (clase_inv m t0) as (H1 & H2 & H3);
        destruct (clase m t0) as [[a|] t1]; [|discriminate]
    end.
    cbn [fst snd inv entrada] in *. auto. }
  destruct Hrun as (Hinv & Hok & Hrest).
  pose proof (anadir_producto_ok (inv t) r Hnew Hw) as Hadd.
  pose proof (dict_in_false_keys _ _ Hnew) as Hfresh.
  change (strip pid) with (id r) in Hfresh.
  rewrite (dict_set_fresh _ r _ Hfresh) in Hadd.
  rewrite Hadd in Hinv. cbn [snd] in Hinv.
  split; [exact Hok|]. split; [exact Hrest|]. rewrite Hinv.
  cbn [productos archivo]. unfold saved. cbn [productos archivo contents].
  split; [reflexivity|]. split; [reflexivity|].
  split; [apply strip_by_start|].
  intros Hr Hid Hnom Hnlid Hnlnom Hnan.
  assert (Hclean : limpio r = true).
  { unfold limpio, r. cbn [id nombre precio].
    rewrite Hid, Hnom, Hnan. unfold strip at 1. rewrite strip_by_start.
    unfold no_line_break, strip in *.
    rewrite !strip_by_forallb by assumption.
    unfold is_float. now rewrite (float_of_str_valid _ _ Hx). }
  destruct (limpio_round_trips r Hclean) as [Hback Hrt].
  split; [|exact Hrt].
  destruct (limpio_spec r Hclean) as (_ & _ & _ & H4 & H5 & _ & _).
  now apply (Inventario_init_last_line _ _ (productos (inv t)) r).
Qed.

Lemma menu_add_survives_restart_screw :
  let t' := snd (ronda (sesion store_bolt ["2"; " P2 "; "Screw"; "3"; "1"; "0"])) in
  fst (ronda (sesion store_bolt ["2"; " P2 "; "Screw"; "3"; "1"; "0"]))
  = Some true
  /\ entrada t' = ["0"]
  /\ productos (inv t') = [("P1", bolt); ("P2", screw)]
  /\ dict_get "P2"
       (productos (Inventario_init INVENTARIO_FILE (archivo (inv t'))))
     = Some screw.
Proof.
  assert (Hc : int_of_str (strip "3") = Some 3) by (vm_compute; reflexivity).
  assert (Hx : float_of_str (strip "1") = Some one)
    by (vm_compute; reflexivity).
  assert (Hnew : dict_in (strip " P2 ") (productos store_bolt) = false)
    by (vm_compute; reflexivity).
  assert (Hw : write_fault (archivo store_bolt) = None)
    by (vm_compute; reflexivity).
  destruct (menu_add_survives_restart
              (sesion store_bolt ["2"; " P2 "; "Screw"; "3"; "1"; "0"])
              "2" " P2 " "Screw" "3" "1" ["0"] 3 one eq_refl eq_refl
              Hc Hx Hnew Hw) as (Hok & Hrest & Hd & _ & _ & Hrestart).
  destruct Hrestart as [Hget _]; try (vm_compute; reflexivity).
  cbv zeta. split; [exact Hok|]. split; [exact Hrest|]. split.
  - rewrite Hd. vm_compute. reflexivity.
  - exact Hget.
Defined.
